(** * Glitch Clocks: the timing engine of [glitch-clocks.ino]

    A shallow embedding of the sketch's lane scheduler, effect library,
    mode dispatcher and weight table, and the properties its design
    document states about them.

    Conventions.
    - [uint32_t] values are integers in [[0, 2^32)]; every store into one
      is written with [u32], every [(int32_t)] cast with [i32].
    - [float] is IEEE binary32, through the standard library's executable
      [spec_float] operations at precision 24 and maximal exponent 128.
    - [millis()], [esp_random()] and Arduino's [random] are collaborators
      outside the sketch: the k-th clock reading is [clock k] (the time in
      ms since boot, not yet truncated to 32 bits) and the k-th raw random
      word is [entropy k]; the world keeps one cursor for each.
    - [digitalWrite] on a lane's pins is recorded in a trace of actuator
      events; [Serial] output is presentation only and is left out. *)

From Stdlib Require Import ZArith Bool Lia SpecFloat Ascii.
From stdpp Require Import base list.

Local Open Scope Z_scope.

(** ** Fixed-width integers *)

Module Int.

Definition u32 (z : Z) : Z := z mod 2 ^ 32.
Definition i32 (z : Z) : Z := (z + 2 ^ 31) mod 2 ^ 32 - 2 ^ 31.
Definition u8 (z : Z) : Z := z mod 2 ^ 8.

(** C's [a % b] and [a / b] on [int]: truncation towards zero. *)
Definition crem (a b : Z) : Z := Z.rem a b.
Definition cdiv (a b : Z) : Z := Z.quot a b.

(** [(int32_t)(now - t)], the signed distance from [t] to [now] on the
    wrapping clock. *)
Definition sdiff (now t : Z) : Z := i32 (now - t).

(** [(int32_t)(now - t) >= 0]: the deadline [t] has passed. *)
Definition passed (now t : Z) : bool := 0 <=? sdiff now t.

End Int.
Export Int.

(** Wrap-around arithmetic is reasoned about through its lemmas and
    evaluated on closed terms only. *)
#[global] Arguments u32 : simpl never.
#[global] Arguments i32 : simpl never.
#[global] Arguments u8 : simpl never.
#[global] Arguments crem : simpl never.
#[global] Arguments cdiv : simpl never.
#[global] Arguments sdiff : simpl never.
#[global] Arguments passed : simpl never.

(** ** binary32 arithmetic *)

Module F32.

Definition prec : Z := 24.
Definition emax : Z := 128.

Definition float : Type := spec_float.

Definition of_Z (z : Z) : float := binary_normalize prec emax z 0 false.
Definition add : float -> float -> float := SFadd prec emax.
Definition sub : float -> float -> float := SFsub prec emax.
Definition mul : float -> float -> float := SFmul prec emax.
Definition div : float -> float -> float := SFdiv prec emax.
Definition ltb : float -> float -> bool := SFltb.
Definition leb : float -> float -> bool := SFleb.
Definition eqb : float -> float -> bool := SFeqb.

(** A decimal literal [n/d] with both parts exactly representable, such as
    [0.98f] = [dec 98 100]: the division rounds to the nearest binary32. *)
Definition dec (n d : Z) : float := div (of_Z n) (of_Z d).

Definition zero : float := S754_zero false.
Definition one : float := of_Z 1.

(** Arduino's [max(a, b)] on floats, [(a < b) ? b : a]. *)
Definition fmax (a b : float) : float := if ltb a b then b else a.

(** Arduino's [constrain(x, lo, hi)]. *)
Definition constrain (x lo hi : float) : float :=
  if ltb x lo then lo else if ltb hi x then hi else x.

(** [(int)x]: truncation towards zero (the conversion is undefined in C
    for NaN and infinities; they are read as 0 here). *)
Definition trunc (x : float) : Z :=
  match x with
  | S754_finite s m e =>
      let a := if 0 <=? e then Z.pos m * 2 ^ e else Z.pos m / 2 ^ (- e) in
      if s then - a else a
  | _ => 0
  end.

(** [roundf(x)] as an integer: nearest, ties away from zero. *)
Definition roundf (x : float) : Z :=
  match x with
  | S754_finite s m e =>
      let a := if 0 <=? e then Z.pos m * 2 ^ e
               else (2 * Z.pos m + 2 ^ (- e)) / 2 ^ (- e + 1) in
      if s then - a else a
  | _ => 0
  end.

Definition is_nan (x : float) : bool :=
  match x with S754_nan => true | _ => false end.

(** The same datum (not IEEE equality: [-0] and [+0] differ here). *)
Definition same (x y : float) : bool :=
  match x, y with
  | S754_zero s, S754_zero s' => Bool.eqb s s'
  | S754_infinity s, S754_infinity s' => Bool.eqb s s'
  | S754_nan, S754_nan => true
  | S754_finite s m e, S754_finite s' m' e' =>
      Bool.eqb s s' && Pos.eqb m m' && Z.eqb e e'
  | _, _ => false
  end.

End F32.
Export F32 (float).

(** Float operations are evaluated on closed terms only. *)
#[global] Arguments F32.of_Z : simpl never.
#[global] Arguments F32.add : simpl never.
#[global] Arguments F32.sub : simpl never.
#[global] Arguments F32.mul : simpl never.
#[global] Arguments F32.div : simpl never.
#[global] Arguments F32.ltb : simpl never.
#[global] Arguments F32.leb : simpl never.
#[global] Arguments F32.eqb : simpl never.
#[global] Arguments F32.dec : simpl never.
#[global] Arguments F32.one : simpl never.
#[global] Arguments F32.trunc : simpl never.
#[global] Arguments F32.roundf : simpl never.

Example dec_one : F32.dec 100 100 = F32.one.
Proof. reflexivity. Qed.

Example roundf_half_up : F32.roundf (F32.dec 5 2) = 3.
Proof. reflexivity. Qed.

Example trunc_down : F32.trunc (F32.mul (F32.dec 125 100) (F32.of_Z 100)) = 125.
Proof. reflexivity. Qed.

(** ** Configuration

    The tunable globals at the top of the sketch.  The sketch never writes
    them after start-up, so they are collected in one record. *)

Record Config := {
  BASE_HZ : list float;          (* BASE_HZ_A, BASE_HZ_B, ... of the lanes in LANES *)
  PULSE_ON_MS : Z;               (* uint16_t *)
  MIN_OFF_MS : Z;                (* uint16_t *)
  JITTER_MS : Z;                 (* int16_t *)
  GLITCH_CHECK_MS : Z;
  GLITCH_PROB : float;
  W_PAUSE : float; W_STAGGER : float; W_SYNC : float; W_BEAT : float;
  W_ACCEL : float; W_DECEL : float; W_COUNTER : float; W_STORM : float;
  W_SNAP : float; W_SCOPE : float; W_REORG : float;
  NUDGE_MAX_PCT : float;
  NUDGE_MIN_MS : Z; NUDGE_MAX_MS : Z;
  FREEZE_MIN_MS : Z; FREEZE_MAX_MS : Z;
  BURST_MIN_PULSES : Z; BURST_MAX_PULSES : Z;   (* uint8_t *)
  BURST_TARGET_MS : Z;           (* uint16_t *)
  LONG_PAUSE_MIN_MS : Z; LONG_PAUSE_MAX_MS : Z; LONG_PAUSE_COOLDOWN : Z;
  STAGGER_STOP_STEP_MS : Z; STAGGER_SILENCE_MS : Z;
  SYNC_BPM : Z;                  (* uint16_t *)
  SYNC_HOLD_MS : Z; SYNC_COOLDOWN_MS : Z;
  ACCEL_DUR_MS : Z; ACCEL_TO_MUL_MIN : float; ACCEL_TO_MUL_MAX : float;
  DECEL_DUR_MS : Z; DECEL_TO_MUL_MIN : float; DECEL_TO_MUL_MAX : float;
  COUNTERBAL_DUR_MS : Z; COUNTERBAL_DELTA_MIN : float; COUNTERBAL_DELTA_MAX : float;
  STORM_DUR_MS : Z; STORM_TICK_MIN_MS : Z; STORM_TICK_MAX_MS : Z;
  SCOPE_DUR_MS : Z; SCOPE_DH : float;
  LIVENESS_WARN_MS : Z
}.

(** The values the sketch ships with (four lanes). *)
Definition default_config : Config := {|
  BASE_HZ := [F32.dec 100 100; F32.dec 98 100; F32.dec 102 100; F32.dec 101 100];
  PULSE_ON_MS := 120; MIN_OFF_MS := 120; JITTER_MS := 10;
  GLITCH_CHECK_MS := 4000; GLITCH_PROB := F32.dec 4 10;
  W_PAUSE := F32.dec 8 100; W_STAGGER := F32.dec 8 100; W_SYNC := F32.dec 10 100;
  W_BEAT := F32.dec 3 100; W_ACCEL := F32.dec 10 100; W_DECEL := F32.dec 10 100;
  W_COUNTER := F32.dec 8 100; W_STORM := F32.dec 8 100; W_SNAP := F32.dec 6 100;
  W_SCOPE := F32.dec 6 100; W_REORG := F32.dec 6 100;
  NUDGE_MAX_PCT := F32.dec 3 100;
  NUDGE_MIN_MS := 2000; NUDGE_MAX_MS := 8000;
  FREEZE_MIN_MS := 2000; FREEZE_MAX_MS := 7000;
  BURST_MIN_PULSES := 3; BURST_MAX_PULSES := 8; BURST_TARGET_MS := 150;
  LONG_PAUSE_MIN_MS := 10000; LONG_PAUSE_MAX_MS := 14000; LONG_PAUSE_COOLDOWN := 40000;
  STAGGER_STOP_STEP_MS := 700; STAGGER_SILENCE_MS := 3500;
  SYNC_BPM := 120; SYNC_HOLD_MS := 8000; SYNC_COOLDOWN_MS := 10000;
  ACCEL_DUR_MS := 10000; ACCEL_TO_MUL_MIN := F32.dec 125 100; ACCEL_TO_MUL_MAX := F32.dec 140 100;
  DECEL_DUR_MS := 10000; DECEL_TO_MUL_MIN := F32.dec 70 100; DECEL_TO_MUL_MAX := F32.dec 85 100;
  COUNTERBAL_DUR_MS := 8000; COUNTERBAL_DELTA_MIN := F32.dec 20 100; COUNTERBAL_DELTA_MAX := F32.dec 35 100;
  STORM_DUR_MS := 3500; STORM_TICK_MIN_MS := 180; STORM_TICK_MAX_MS := 350;
  SCOPE_DUR_MS := 60000; SCOPE_DH := F32.dec 1 100;
  LIVENESS_WARN_MS := 20000
|}.

(** The pulse-safety constants keep to their declared [uint16_t] type. *)
Definition pulse_cfg_ok (c : Config) : Prop :=
  0 <= PULSE_ON_MS c < 2 ^ 16 /\ 0 <= MIN_OFF_MS c < 2 ^ 16.

(** ** Beat patterns *)

Record BeatPattern := {
  bp_bpm : Z;              (* uint16_t bpm *)
  bp_steps : Z;            (* uint8_t steps *)
  bp_A : list Z;           (* const uint8_t* A, nA *)
  bp_B : list Z;
  bp_C : list Z;
  bp_bars : Z              (* uint8_t bars *)
}.

Definition DEMBOW : BeatPattern :=
  {| bp_bpm := 95; bp_steps := 16; bp_A := [0; 6; 8; 14]; bp_B := [4; 12];
     bp_C := [2; 6; 10; 14]; bp_bars := 4 |}.
Definition ROCK : BeatPattern :=
  {| bp_bpm := 104; bp_steps := 16; bp_A := [0; 8]; bp_B := [4; 12];
     bp_C := [2; 6; 10; 14]; bp_bars := 4 |}.

Fixpoint hasStep (arr : list Z) (step : Z) : bool :=
  match arr with
  | [] => false
  | a :: rest => if a =? step then true else hasStep rest step
  end.

(** ** Lanes *)

Record Lane := {
  baseHz : float;
  nudgeMul : float;
  nudgeUntil : Z;
  nextDue : Z;
  nextFree : Z;
  coilOffAt : Z;
  running : bool;
  pol : bool;
  minute : Z;
  freezeUntil : Z;
  burstRemain : Z;
  savedHz : float
}.

(** [Lane X{ pins, BASE_HZ_X }]: the default member initialisers. *)
Definition newLane (hz : float) : Lane :=
  {| baseHz := hz; nudgeMul := F32.one; nudgeUntil := 0; nextDue := 0;
     nextFree := 0; coilOffAt := 0; running := true; pol := false;
     minute := 0; freezeUntil := 0; burstRemain := 0; savedHz := F32.one |}.

Definition set_baseHz (v : float) (L : Lane) : Lane :=
  {| baseHz := v; nudgeMul := nudgeMul L; nudgeUntil := nudgeUntil L;
     nextDue := nextDue L; nextFree := nextFree L; coilOffAt := coilOffAt L;
     running := running L; pol := pol L; minute := minute L;
     freezeUntil := freezeUntil L; burstRemain := burstRemain L;
     savedHz := savedHz L |}.
Definition set_nudgeMul (v : float) (L : Lane) : Lane :=
  {| baseHz := baseHz L; nudgeMul := v; nudgeUntil := nudgeUntil L;
     nextDue := nextDue L; nextFree := nextFree L; coilOffAt := coilOffAt L;
     running := running L; pol := pol L; minute := minute L;
     freezeUntil := freezeUntil L; burstRemain := burstRemain L;
     savedHz := savedHz L |}.
Definition set_nudgeUntil (v : Z) (L : Lane) : Lane :=
  {| baseHz := baseHz L; nudgeMul := nudgeMul L; nudgeUntil := v;
     nextDue := nextDue L; nextFree := nextFree L; coilOffAt := coilOffAt L;
     running := running L; pol := pol L; minute := minute L;
     freezeUntil := freezeUntil L; burstRemain := burstRemain L;
     savedHz := savedHz L |}.
Definition set_nextDue (v : Z) (L : Lane) : Lane :=
  {| baseHz := baseHz L; nudgeMul := nudgeMul L; nudgeUntil := nudgeUntil L;
     nextDue := v; nextFree := nextFree L; coilOffAt := coilOffAt L;
     running := running L; pol := pol L; minute := minute L;
     freezeUntil := freezeUntil L; burstRemain := burstRemain L;
     savedHz := savedHz L |}.
Definition set_nextFree (v : Z) (L : Lane) : Lane :=
  {| baseHz := baseHz L; nudgeMul := nudgeMul L; nudgeUntil := nudgeUntil L;
     nextDue := nextDue L; nextFree := v; coilOffAt := coilOffAt L;
     running := running L; pol := pol L; minute := minute L;
     freezeUntil := freezeUntil L; burstRemain := burstRemain L;
     savedHz := savedHz L |}.
Definition set_coilOffAt (v : Z) (L : Lane) : Lane :=
  {| baseHz := baseHz L; nudgeMul := nudgeMul L; nudgeUntil := nudgeUntil L;
     nextDue := nextDue L; nextFree := nextFree L; coilOffAt := v;
     running := running L; pol := pol L; minute := minute L;
     freezeUntil := freezeUntil L; burstRemain := burstRemain L;
     savedHz := savedHz L |}.
Definition set_running (v : bool) (L : Lane) : Lane :=
  {| baseHz := baseHz L; nudgeMul := nudgeMul L; nudgeUntil := nudgeUntil L;
     nextDue := nextDue L; nextFree := nextFree L; coilOffAt := coilOffAt L;
     running := v; pol := pol L; minute := minute L;
     freezeUntil := freezeUntil L; burstRemain := burstRemain L;
     savedHz := savedHz L |}.
Definition set_pol (v : bool) (L : Lane) : Lane :=
  {| baseHz := baseHz L; nudgeMul := nudgeMul L; nudgeUntil := nudgeUntil L;
     nextDue := nextDue L; nextFree := nextFree L; coilOffAt := coilOffAt L;
     running := running L; pol := v; minute := minute L;
     freezeUntil := freezeUntil L; burstRemain := burstRemain L;
     savedHz := savedHz L |}.
Definition set_minute (v : Z) (L : Lane) : Lane :=
  {| baseHz := baseHz L; nudgeMul := nudgeMul L; nudgeUntil := nudgeUntil L;
     nextDue := nextDue L; nextFree := nextFree L; coilOffAt := coilOffAt L;
     running := running L; pol := pol L; minute := v;
     freezeUntil := freezeUntil L; burstRemain := burstRemain L;
     savedHz := savedHz L |}.
Definition set_freezeUntil (v : Z) (L : Lane) : Lane :=
  {| baseHz := baseHz L; nudgeMul := nudgeMul L; nudgeUntil := nudgeUntil L;
     nextDue := nextDue L; nextFree := nextFree L; coilOffAt := coilOffAt L;
     running := running L; pol := pol L; minute := minute L;
     freezeUntil := v; burstRemain := burstRemain L;
     savedHz := savedHz L |}.
Definition set_burstRemain (v : Z) (L : Lane) : Lane :=
  {| baseHz := baseHz L; nudgeMul := nudgeMul L; nudgeUntil := nudgeUntil L;
     nextDue := nextDue L; nextFree := nextFree L; coilOffAt := coilOffAt L;
     running := running L; pol := pol L; minute := minute L;
     freezeUntil := freezeUntil L; burstRemain := v;
     savedHz := savedHz L |}.
Definition set_savedHz (v : float) (L : Lane) : Lane :=
  {| baseHz := baseHz L; nudgeMul := nudgeMul L; nudgeUntil := nudgeUntil L;
     nextDue := nextDue L; nextFree := nextFree L; coilOffAt := coilOffAt L;
     running := running L; pol := pol L; minute := minute L;
     freezeUntil := freezeUntil L; burstRemain := burstRemain L;
     savedHz := v |}.

(** [periodMs]: the lane's period from its effective frequency. *)
Definition effHz (L : Lane) : float :=
  F32.fmax (F32.dec 1 1000) (F32.mul (baseHz L) (nudgeMul L)).

Definition periodMs (L : Lane) : Z :=
  u32 (F32.roundf (F32.div (F32.of_Z 1000) (effHz L))).

Example period_law : periodMs (newLane F32.one) = 1000.
Proof. reflexivity. Qed.

#[global] Arguments effHz : simpl never.
#[global] Arguments periodMs : simpl never.

(** ** Modes and effect state *)

Inductive Mode :=
  | MODE_NORMAL | MODE_BEAT | MODE_SYNC_LOCK | MODE_LONG_PAUSE
  | MODE_STAGGER_BLACKOUT | MODE_ACCEL | MODE_DECEL | MODE_SCOPE_CREEP
  | MODE_PHASE_SNAP | MODE_COUNTERBAL | MODE_EMAIL_STORM.

#[global] Instance Mode_eq_dec : EqDecision Mode.
Proof. solve_decision. Defined.

(** The file-scope variables of the effects, grouped as in the sketch. *)
Record BeatState := {
  pat : option BeatPattern;      (* nullptr = None *)
  stepPeriodMs : Z;
  nextStepAt : Z;
  step : Z;                      (* uint8_t *)
  barsLeft : Z                   (* uint8_t *)
}.
Record Ramp := { rampStart : Z; rampEnd : Z; rampTo : float }.
Record Counterbal :=
  { cbUp : Z; cbDown : Z; cbStart : Z; cbEnd : Z; cbDelta : float }.
Record Storm := { stormEnd : Z; nextStormTick : Z }.
Record Scope := { scopeStartHz : list float; scopeStart : Z; scopeEnd : Z }.
Record Snap := { snapRef : Z; snapFol : Z; snapEnd : Z }.

(** Actuator events: [EN] driven high with the polarity asserted on
    [IN1]/[IN2], at the (untruncated) time of the clock reading that
    [coilOn] took; [EN] driven low. *)
Inductive Event :=
  | Energize (lane : nat) (polarity : bool) (t : Z)
  | Deenergize (lane : nat).

(** The engine: every variable the sketch owns, plus the actuator trace
    (newest event first). *)
Record Engine := {
  lanes : list Lane;             (* the objects LANES[0], LANES[1], ... *)
  mode : Mode;
  beat : BeatState;
  lastSyncEnd : Z;
  modeEndsAt : Z;
  lastLongPauseEnd : Z;
  ramp : Ramp;
  cb : Counterbal;
  storm : Storm;
  scope : Scope;
  snap : Snap;
  cumW : list float;             (* float cumW[NEFF + 1] *)
  lastAnyPulseAt : Z;
  lastTry : Z;                   (* static in loop() *)
  lastLivenessLog : Z;           (* static in loop() *)
  trace : list Event
}.

Definition with_lanes (v : list Lane) (e : Engine) : Engine :=
  {| lanes := v; mode := mode e; beat := beat e;
     lastSyncEnd := lastSyncEnd e; modeEndsAt := modeEndsAt e;
     lastLongPauseEnd := lastLongPauseEnd e; ramp := ramp e; cb := cb e;
     storm := storm e; scope := scope e; snap := snap e; cumW := cumW e;
     lastAnyPulseAt := lastAnyPulseAt e; lastTry := lastTry e;
     lastLivenessLog := lastLivenessLog e; trace := trace e |}.
Definition with_mode (v : Mode) (e : Engine) : Engine :=
  {| lanes := lanes e; mode := v; beat := beat e;
     lastSyncEnd := lastSyncEnd e; modeEndsAt := modeEndsAt e;
     lastLongPauseEnd := lastLongPauseEnd e; ramp := ramp e; cb := cb e;
     storm := storm e; scope := scope e; snap := snap e; cumW := cumW e;
     lastAnyPulseAt := lastAnyPulseAt e; lastTry := lastTry e;
     lastLivenessLog := lastLivenessLog e; trace := trace e |}.
Definition with_beat (v : BeatState) (e : Engine) : Engine :=
  {| lanes := lanes e; mode := mode e; beat := v;
     lastSyncEnd := lastSyncEnd e; modeEndsAt := modeEndsAt e;
     lastLongPauseEnd := lastLongPauseEnd e; ramp := ramp e; cb := cb e;
     storm := storm e; scope := scope e; snap := snap e; cumW := cumW e;
     lastAnyPulseAt := lastAnyPulseAt e; lastTry := lastTry e;
     lastLivenessLog := lastLivenessLog e; trace := trace e |}.
Definition with_lastSyncEnd (v : Z) (e : Engine) : Engine :=
  {| lanes := lanes e; mode := mode e; beat := beat e; lastSyncEnd := v;
     modeEndsAt := modeEndsAt e; lastLongPauseEnd := lastLongPauseEnd e;
     ramp := ramp e; cb := cb e; storm := storm e; scope := scope e;
     snap := snap e; cumW := cumW e; lastAnyPulseAt := lastAnyPulseAt e;
     lastTry := lastTry e; lastLivenessLog := lastLivenessLog e;
     trace := trace e |}.
Definition with_modeEndsAt (v : Z) (e : Engine) : Engine :=
  {| lanes := lanes e; mode := mode e; beat := beat e;
     lastSyncEnd := lastSyncEnd e; modeEndsAt := v;
     lastLongPauseEnd := lastLongPauseEnd e; ramp := ramp e; cb := cb e;
     storm := storm e; scope := scope e; snap := snap e; cumW := cumW e;
     lastAnyPulseAt := lastAnyPulseAt e; lastTry := lastTry e;
     lastLivenessLog := lastLivenessLog e; trace := trace e |}.
Definition with_lastLongPauseEnd (v : Z) (e : Engine) : Engine :=
  {| lanes := lanes e; mode := mode e; beat := beat e;
     lastSyncEnd := lastSyncEnd e; modeEndsAt := modeEndsAt e;
     lastLongPauseEnd := v; ramp := ramp e; cb := cb e; storm := storm e;
     scope := scope e; snap := snap e; cumW := cumW e;
     lastAnyPulseAt := lastAnyPulseAt e; lastTry := lastTry e;
     lastLivenessLog := lastLivenessLog e; trace := trace e |}.
Definition with_ramp (v : Ramp) (e : Engine) : Engine :=
  {| lanes := lanes e; mode := mode e; beat := beat e;
     lastSyncEnd := lastSyncEnd e; modeEndsAt := modeEndsAt e;
     lastLongPauseEnd := lastLongPauseEnd e; ramp := v; cb := cb e;
     storm := storm e; scope := scope e; snap := snap e; cumW := cumW e;
     lastAnyPulseAt := lastAnyPulseAt e; lastTry := lastTry e;
     lastLivenessLog := lastLivenessLog e; trace := trace e |}.
Definition with_cb (v : Counterbal) (e : Engine) : Engine :=
  {| lanes := lanes e; mode := mode e; beat := beat e;
     lastSyncEnd := lastSyncEnd e; modeEndsAt := modeEndsAt e;
     lastLongPauseEnd := lastLongPauseEnd e; ramp := ramp e; cb := v;
     storm := storm e; scope := scope e; snap := snap e; cumW := cumW e;
     lastAnyPulseAt := lastAnyPulseAt e; lastTry := lastTry e;
     lastLivenessLog := lastLivenessLog e; trace := trace e |}.
Definition with_storm (v : Storm) (e : Engine) : Engine :=
  {| lanes := lanes e; mode := mode e; beat := beat e;
     lastSyncEnd := lastSyncEnd e; modeEndsAt := modeEndsAt e;
     lastLongPauseEnd := lastLongPauseEnd e; ramp := ramp e; cb := cb e;
     storm := v; scope := scope e; snap := snap e; cumW := cumW e;
     lastAnyPulseAt := lastAnyPulseAt e; lastTry := lastTry e;
     lastLivenessLog := lastLivenessLog e; trace := trace e |}.
Definition with_scope (v : Scope) (e : Engine) : Engine :=
  {| lanes := lanes e; mode := mode e; beat := beat e;
     lastSyncEnd := lastSyncEnd e; modeEndsAt := modeEndsAt e;
     lastLongPauseEnd := lastLongPauseEnd e; ramp := ramp e; cb := cb e;
     storm := storm e; scope := v; snap := snap e; cumW := cumW e;
     lastAnyPulseAt := lastAnyPulseAt e; lastTry := lastTry e;
     lastLivenessLog := lastLivenessLog e; trace := trace e |}.
Definition with_snap (v : Snap) (e : Engine) : Engine :=
  {| lanes := lanes e; mode := mode e; beat := beat e;
     lastSyncEnd := lastSyncEnd e; modeEndsAt := modeEndsAt e;
     lastLongPauseEnd := lastLongPauseEnd e; ramp := ramp e; cb := cb e;
     storm := storm e; scope := scope e; snap := v; cumW := cumW e;
     lastAnyPulseAt := lastAnyPulseAt e; lastTry := lastTry e;
     lastLivenessLog := lastLivenessLog e; trace := trace e |}.
Definition with_cumW (v : list float) (e : Engine) : Engine :=
  {| lanes := lanes e; mode := mode e; beat := beat e;
     lastSyncEnd := lastSyncEnd e; modeEndsAt := modeEndsAt e;
     lastLongPauseEnd := lastLongPauseEnd e; ramp := ramp e; cb := cb e;
     storm := storm e; scope := scope e; snap := snap e; cumW := v;
     lastAnyPulseAt := lastAnyPulseAt e; lastTry := lastTry e;
     lastLivenessLog := lastLivenessLog e; trace := trace e |}.
Definition with_lastAnyPulseAt (v : Z) (e : Engine) : Engine :=
  {| lanes := lanes e; mode := mode e; beat := beat e;
     lastSyncEnd := lastSyncEnd e; modeEndsAt := modeEndsAt e;
     lastLongPauseEnd := lastLongPauseEnd e; ramp := ramp e; cb := cb e;
     storm := storm e; scope := scope e; snap := snap e; cumW := cumW e;
     lastAnyPulseAt := v; lastTry := lastTry e;
     lastLivenessLog := lastLivenessLog e; trace := trace e |}.
Definition with_lastTry (v : Z) (e : Engine) : Engine :=
  {| lanes := lanes e; mode := mode e; beat := beat e;
     lastSyncEnd := lastSyncEnd e; modeEndsAt := modeEndsAt e;
     lastLongPauseEnd := lastLongPauseEnd e; ramp := ramp e; cb := cb e;
     storm := storm e; scope := scope e; snap := snap e; cumW := cumW e;
     lastAnyPulseAt := lastAnyPulseAt e; lastTry := v;
     lastLivenessLog := lastLivenessLog e; trace := trace e |}.
Definition with_lastLivenessLog (v : Z) (e : Engine) : Engine :=
  {| lanes := lanes e; mode := mode e; beat := beat e;
     lastSyncEnd := lastSyncEnd e; modeEndsAt := modeEndsAt e;
     lastLongPauseEnd := lastLongPauseEnd e; ramp := ramp e; cb := cb e;
     storm := storm e; scope := scope e; snap := snap e; cumW := cumW e;
     lastAnyPulseAt := lastAnyPulseAt e; lastTry := lastTry e;
     lastLivenessLog := v; trace := trace e |}.
Definition with_trace (v : list Event) (e : Engine) : Engine :=
  {| lanes := lanes e; mode := mode e; beat := beat e;
     lastSyncEnd := lastSyncEnd e; modeEndsAt := modeEndsAt e;
     lastLongPauseEnd := lastLongPauseEnd e; ramp := ramp e; cb := cb e;
     storm := storm e; scope := scope e; snap := snap e; cumW := cumW e;
     lastAnyPulseAt := lastAnyPulseAt e; lastTry := lastTry e;
     lastLivenessLog := lastLivenessLog e; trace := v |}.

(** The world: the engine and how many clock readings and random words
    have been consumed so far. *)
Record World := {
  eng : Engine;
  clk : nat;
  rnd : nat
}.

(** ** The sketch *)

Section Sketch.

Variable cfg : Config.
(** [clock k]: the time in ms at the k-th call of [millis()];
    [entropy k]: the k-th word delivered by the random source. *)
Variable clock : nat -> Z.
Variable entropy : nat -> Z.

(** *** A state monad over the world *)

Definition St (A : Type) : Type := World -> A * World.

Definition ret {A} (a : A) : St A := fun w => (a, w).
Definition bind {A B} (m : St A) (k : A -> St B) : St B :=
  fun w => k (fst (m w)) (snd (m w)).

Notation "x <- m ;; k" := (bind m (fun x => k))
  (at level 20, m at level 99, k at level 200, only parsing).
Notation "m ;; k" := (bind m (fun _ => k))
  (at level 100, k at level 200, right associativity, only parsing).

Definition get : St Engine := fun w => (eng w, w).
Definition modify (f : Engine -> Engine) : St unit :=
  fun w => (tt, {| eng := f (eng w); clk := clk w; rnd := rnd w |}).
Definition when (b : bool) (m : St unit) : St unit := if b then m else ret tt.

Fixpoint forEach {A} (l : list A) (body : A -> St unit) : St unit :=
  match l with
  | [] => ret tt
  | x :: rest => body x ;; forEach rest body
  end.

(** Loops that can fail to terminate run on fuel; [None] is "still
    looping when the fuel ran out". *)
Definition Loop (A : Type) : Type := World -> option (A * World).

Definition lift {A} (m : St A) : Loop A := fun w => Some (m w).
Definition bindL {A B} (m : Loop A) (k : A -> Loop B) : Loop B :=
  fun w => match m w with
           | Some (a, w1) => k a w1
           | None => None
           end.

Notation "x <~ m ;; k" := (bindL m (fun x => k))
  (at level 20, m at level 99, k at level 200, only parsing).
Notation "m ;;~ k" := (bindL m (fun _ => k))
  (at level 100, k at level 200, right associativity, only parsing).

Fixpoint forEachL {A} (l : list A) (body : A -> Loop unit) : Loop unit :=
  match l with
  | [] => lift (ret tt)
  | x :: rest => body x ;;~ forEachL rest body
  end.

(** *** Collaborators: clock and randomness *)

(** One clock reading, before truncation to 32 bits. *)
Definition reading : St Z :=
  fun w => (clock (clk w), {| eng := eng w; clk := S (clk w); rnd := rnd w |}).

Definition millis : St Z := T <- reading ;; ret (u32 T).

Definition esp_random : St Z :=
  fun w => (u32 (entropy (rnd w)), {| eng := eng w; clk := clk w; rnd := S (rnd w) |}).

(** [rng(lo, hi) = lo + (esp_random() % (uint32_t)(hi - lo + 1))].  When
    [hi - lo + 1] is 0 the sketch divides by zero; [Z.modulo] then returns
    the dividend. *)
Definition rng (lo hi : Z) : St Z :=
  r <- esp_random ;; ret (i32 (lo + r mod u32 (hi - lo + 1))).

(** Arduino's [random(lo, hi)], a value in [[lo, hi)]. *)
Definition random (lo hi : Z) : St Z :=
  if hi <=? lo then ret lo
  else r <- esp_random ;; ret (lo + r mod (hi - lo)).

(** *** The lane table *)

Definition NLANES (e : Engine) : nat := length (lanes e).

Definition laneAt (e : Engine) (i : nat) : Lane :=
  default (newLane F32.zero) (lanes e !! i).

Definition updLane (i : nat) (f : Lane -> Lane) : St unit :=
  modify (fun e => with_lanes (alter f i (lanes e)) e).

(** [for (Lane* L : LANES) { ... }] with a body that only writes [*L]. *)
Definition mapLanes (f : Lane -> Lane) : St unit :=
  modify (fun e => with_lanes (f <$> lanes e) e).

(** [for (size_t i = 0; i < NLANES; i++) { ... }] likewise. *)
Definition imapLanes (f : nat -> Lane -> Lane) : St unit :=
  modify (fun e => with_lanes (imap f (lanes e)) e).

(** The same loops with a body that reads the clock or the random source. *)
Definition forLanes (body : nat -> St unit) : St unit :=
  e <- get ;; forEach (seq 0 (NLANES e)) body.

(** *** Lane engine *)

(** [coilOn(L)] for the lane object at index [i] of the table.
    [handleBeat] names the objects [A], [B] and [C] directly; they are
    the table entries 0, 1 and 2 in both tables the source gives
    ([{ &A, &B, &C, &D }] and the commented-out [{ &A, &B, &C }]), and
    lanes are kept here by table index only.  On a table with fewer than
    three entries the sketch would still pulse the unlisted objects and
    move [lastAnyPulseAt]; the engine below keeps no object outside the
    table, so for an index outside it the embedding only takes the clock
    reading and does not describe that pulse. *)
Definition fire (now : Z) (L : Lane) : Lane :=
  set_minute (crem (minute L + 1) 60)
    (set_pol (negb (pol L))
       (set_nextFree (u32 (now + PULSE_ON_MS cfg + MIN_OFF_MS cfg))
          (set_coilOffAt (u32 (now + PULSE_ON_MS cfg)) L))).

Definition coilOn (i : nat) : St unit :=
  T <- reading ;;
  let now := u32 T in
  e <- get ;;
  match lanes e !! i with
  | None => ret tt
  | Some L =>
      if sdiff now (nextFree L) <? 0 then ret tt
      else
        modify (fun e => with_trace (Energize i (pol L) T :: trace e) e) ;;
        updLane i (fire now) ;;
        modify (with_lastAnyPulseAt now)
  end.

Definition maybeCoilOff (i : nat) (now : Z) : St unit :=
  e <- get ;;
  let L := laneAt e i in
  when (negb (coilOffAt L =? 0) && passed now (coilOffAt L))
    (modify (fun e => with_trace (Deenergize i :: trace e) e) ;;
     updLane i (set_coilOffAt 0)).

Definition jitter (lo hi : Z) : St Z :=
  if 0 <? JITTER_MS cfg then rng lo hi else ret 0.

Definition scheduleNext (i : nat) (now : Z) : St unit :=
  e <- get ;;
  let base := periodMs (laneAt e i) in
  j <- jitter (- JITTER_MS cfg) (JITTER_MS cfg) ;;
  updLane i (fun L =>
    if i32 (u32 (base * 4)) <? sdiff now (nextDue L)
    then set_nextDue (u32 (now + base + j)) L
    else set_nextDue (u32 (nextDue L + base + j)) L).

Definition setupLane (i : nat) : St unit :=
  modify (fun e => with_trace (Deenergize i :: trace e) e) ;;
  now <- millis ;;
  r <- rng 0 500 ;;
  updLane i (fun L => set_nextFree now (set_nextDue (u32 (now + r)) L)).

(** *** Effects *)

Definition clearTransients (L : Lane) : Lane :=
  set_nudgeUntil 0 (set_nudgeMul F32.one (set_freezeUntil 0 (set_burstRemain 0 L))).

Definition clearTransientsAll : St unit := mapLanes clearTransients.

Definition setMode (m : Mode) : St unit := modify (with_mode m).

(** Beat *)
Definition startBeat (p : BeatPattern) : St unit :=
  clearTransientsAll ;;
  mapLanes (set_running false) ;;
  now <- millis ;;
  modify (with_beat
    {| pat := Some p;
       stepPeriodMs :=
         u32 (F32.roundf (F32.div (F32.div (F32.of_Z 60000) (F32.of_Z (bp_bpm p)))
                                  (F32.of_Z 4)));
       nextStepAt := u32 (now + 20);
       step := 0;
       barsLeft := bp_bars p |}) ;;
  setMode MODE_BEAT.

Definition endBeat : St unit :=
  forLanes (fun i =>
    now <- millis ;;
    updLane i (fun L => set_nextDue (u32 (now + periodMs (set_running true L)))
                          (set_running true L))) ;;
  setMode MODE_NORMAL ;;
  modify (fun e => with_beat
    {| pat := None; stepPeriodMs := stepPeriodMs (beat e);
       nextStepAt := nextStepAt (beat e); step := step (beat e);
       barsLeft := barsLeft (beat e) |} e).

Definition handleBeat (now : Z) : St unit :=
  e <- get ;;
  let b := beat e in
  match pat b with
  | None => ret tt
  | Some p =>
      if sdiff now (nextStepAt b) <? 0 then ret tt
      else
        when (hasStep (bp_A p) (step b)) (coilOn 0) ;;
        when (hasStep (bp_B p) (step b)) (coilOn 1) ;;
        when (hasStep (bp_C p) (step b)) (coilOn 2) ;;
        j <- jitter (cdiv (- JITTER_MS cfg) 2) (cdiv (JITTER_MS cfg) 2) ;;
        let step' := u8 (crem (step b + 1) (bp_steps p)) in
        let wraps := (step' =? 0) && negb (barsLeft b =? 0) in
        let bars' := if wraps then u8 (barsLeft b - 1) else barsLeft b in
        modify (with_beat
          {| pat := pat b; stepPeriodMs := stepPeriodMs b;
             nextStepAt := u32 (nextStepAt b + stepPeriodMs b + j);
             step := step'; barsLeft := bars' |}) ;;
        when (wraps && (bars' =? 0)) endBeat
  end.

(** Sync-lock *)
Definition syncHz : float := F32.div (F32.of_Z (SYNC_BPM cfg)) (F32.of_Z 60).

Definition startSyncLock : St unit :=
  t <- millis ;;
  e <- get ;;
  if sdiff t (lastSyncEnd e) <? i32 (SYNC_COOLDOWN_MS cfg) then ret tt
  else
    clearTransientsAll ;;
    now <- millis ;;
    mapLanes (fun L =>
      set_pol false
        (set_nextDue (u32 (now + 50))
           (set_running true
              (set_baseHz syncHz (set_savedHz (baseHz L) L))))) ;;
    setMode MODE_SYNC_LOCK ;;
    modify (with_modeEndsAt (u32 (now + SYNC_HOLD_MS cfg))).

(** The body shared by the release loops: [L->nextDue = millis() +
    periodMs( *L ) + rng(0, hi)] after [prep] has been applied to the lane. *)
Definition relaunch (prep : Lane -> Lane) (hi : Z) (i : nat) : St unit :=
  now <- millis ;;
  r <- rng 0 hi ;;
  updLane i (fun L => set_nextDue (u32 (now + periodMs (prep L) + r)) (prep L)).

Definition endSyncLock : St unit :=
  forLanes (relaunch (fun L =>
    set_nudgeUntil 0 (set_nudgeMul F32.one (set_baseHz (savedHz L) L))) 120) ;;
  setMode MODE_NORMAL ;;
  t <- millis ;;
  modify (with_lastSyncEnd t).

(** Long pause / Stagger blackout *)
Definition startLongPause : St unit :=
  t <- millis ;;
  e <- get ;;
  if sdiff t (lastLongPauseEnd e) <? i32 (LONG_PAUSE_COOLDOWN cfg) then ret tt
  else
    clearTransientsAll ;;
    d <- rng (i32 (LONG_PAUSE_MIN_MS cfg)) (i32 (LONG_PAUSE_MAX_MS cfg)) ;;
    let dur := u32 d in
    now <- millis ;;
    mapLanes (fun L => set_running false (set_freezeUntil (u32 (now + dur)) L)) ;;
    setMode MODE_LONG_PAUSE ;;
    modify (with_modeEndsAt (u32 (now + dur))).

Definition endLongPause : St unit :=
  forLanes (relaunch (set_running true) 120) ;;
  setMode MODE_NORMAL ;;
  t <- millis ;;
  modify (with_lastLongPauseEnd t).

(** [size_t stepsFromEnd = (NLANES - 1) - i], in 32-bit unsigned arithmetic. *)
Definition stepsFromEnd (n i : nat) : Z := u32 (u32 (Z.of_nat n - 1) - Z.of_nat i).

Definition startStaggerBlackout : St unit :=
  clearTransientsAll ;;
  now <- millis ;;
  e <- get ;;
  let n := NLANES e in
  imapLanes (fun i L =>
    set_running false
      (set_freezeUntil
         (u32 (now + STAGGER_SILENCE_MS cfg + u32 (STAGGER_STOP_STEP_MS cfg * stepsFromEnd n i)))
         L)) ;;
  setMode MODE_STAGGER_BLACKOUT ;;
  modify (with_modeEndsAt
    (u32 (now + STAGGER_SILENCE_MS cfg
          + u32 (STAGGER_STOP_STEP_MS cfg * u32 (Z.of_nat n - 1))))).

Definition endStaggerBlackout : St unit :=
  forLanes (fun i => relaunch (set_running true) (100 + i32 (20 * Z.of_nat i)) i) ;;
  setMode MODE_NORMAL.

(** Accelerando / Decelerando *)
Definition resetNudge (L : Lane) : Lane := set_nudgeUntil 0 (set_nudgeMul F32.one L).

Definition startRamp (dur : Z) (lo hi : float) (m : Mode) : St unit :=
  clearTransientsAll ;;
  t <- millis ;;
  r <- rng (F32.trunc (F32.mul lo (F32.of_Z 100))) (F32.trunc (F32.mul hi (F32.of_Z 100))) ;;
  modify (with_ramp {| rampStart := t; rampEnd := u32 (t + dur);
                       rampTo := F32.div (F32.of_Z r) (F32.of_Z 100) |}) ;;
  mapLanes resetNudge ;;
  setMode m.

Definition startAccelerando : St unit :=
  startRamp (ACCEL_DUR_MS cfg) (ACCEL_TO_MUL_MIN cfg) (ACCEL_TO_MUL_MAX cfg) MODE_ACCEL.
Definition startDecelerando : St unit :=
  startRamp (DECEL_DUR_MS cfg) (DECEL_TO_MUL_MIN cfg) (DECEL_TO_MUL_MAX cfg) MODE_DECEL.

(** [constrain((float)(now - from) / (float)(to - from), 0.0f, 1.0f)] *)
Definition progress (now from to : Z) : float :=
  F32.constrain (F32.div (F32.of_Z (u32 (now - from))) (F32.of_Z (u32 (to - from))))
                F32.zero F32.one.

Definition handleRamp (now : Z) : St unit :=
  e <- get ;;
  let t := progress now (rampStart (ramp e)) (rampEnd (ramp e)) in
  let mul := F32.add F32.one (F32.mul (F32.sub (rampTo (ramp e)) F32.one) t) in
  mapLanes (set_nudgeMul mul) ;;
  when (passed now (rampEnd (ramp e)))
    (mapLanes (set_nudgeMul F32.one) ;; setMode MODE_NORMAL).

Definition handleAccelerando : Z -> St unit := handleRamp.
Definition handleDecelerando : Z -> St unit := handleRamp.

(** [do { x = rng(0, (int)NLANES - 1); } while (x == avoid);] *)
Fixpoint pickOther (fuel : nat) (n : Z) (avoid : Z) : Loop Z :=
  match fuel with
  | O => fun _ => None
  | S fuel' =>
      x <~ lift (rng 0 (n - 1)) ;;
      if x =? avoid then pickOther fuel' n avoid else lift (ret x)
  end.

(** Counterbalance *)
Definition startCounterbalance (fuel : nat) : Loop unit :=
  e <~ lift get ;;
  let n := Z.of_nat (NLANES e) in
  up <~ lift (rng 0 (n - 1)) ;;
  down <~ pickOther fuel n up ;;
  lift (
    d <- rng (F32.trunc (F32.mul (COUNTERBAL_DELTA_MIN cfg) (F32.of_Z 100)))
             (F32.trunc (F32.mul (COUNTERBAL_DELTA_MAX cfg) (F32.of_Z 100))) ;;
    t <- millis ;;
    modify (with_cb {| cbUp := up; cbDown := down; cbStart := t;
                       cbEnd := u32 (t + COUNTERBAL_DUR_MS cfg);
                       cbDelta := F32.div (F32.of_Z d) (F32.of_Z 100) |}) ;;
    mapLanes (set_nudgeMul F32.one) ;;
    setMode MODE_COUNTERBAL).

Definition handleCounterbalance (now : Z) : St unit :=
  e <- get ;;
  let c := cb e in
  let t := progress now (cbStart c) (cbEnd c) in
  let upMul := F32.add F32.one (F32.mul (cbDelta c) t) in
  let downMul := F32.sub F32.one (F32.mul (cbDelta c) t) in
  imapLanes (fun i L =>
    if Z.of_nat i =? u32 (cbUp c) then set_nudgeMul upMul L
    else if Z.of_nat i =? u32 (cbDown c) then set_nudgeMul downMul L
    else set_nudgeMul F32.one L) ;;
  when (passed now (cbEnd c))
    (mapLanes (set_nudgeMul F32.one) ;; setMode MODE_NORMAL).

(** Email storm *)
Definition startEmailStorm : St unit :=
  clearTransientsAll ;;
  t1 <- millis ;;
  t2 <- millis ;;
  modify (with_storm {| stormEnd := u32 (t1 + STORM_DUR_MS cfg); nextStormTick := t2 |}) ;;
  setMode MODE_EMAIL_STORM.

(** [pickTwoDistinct(i, j)]: [None] is the [false] return, which leaves
    [i] and [j] unwritten. *)
Definition pickTwoDistinct : St (option (Z * Z)) :=
  e <- get ;;
  let n := Z.of_nat (NLANES e) in
  if n <? 2 then ret None
  else
    i <- random 0 n ;;
    r <- random 0 (n - 1) ;;
    ret (Some (i, crem (i + 1 + r) n)).

Definition burstPulses : St Z :=
  r <- rng (BURST_MIN_PULSES cfg) (BURST_MAX_PULSES cfg) ;; ret (u8 r).

Definition grantBurst (i : Z) : St unit :=
  b <- burstPulses ;; updLane (Z.to_nat i) (set_burstRemain b).

Definition handleEmailStorm (now : Z) : St unit :=
  e <- get ;;
  if passed now (stormEnd (storm e)) then setMode MODE_NORMAL
  else
    when (passed now (nextStormTick (storm e)))
      (p <- pickTwoDistinct ;;
       match p with
       | Some (i, j) => grantBurst i ;; grantBurst j
       | None => grantBurst 0
       end ;;
       r <- rng (i32 (STORM_TICK_MIN_MS cfg)) (i32 (STORM_TICK_MAX_MS cfg)) ;;
       modify (fun e => with_storm
         {| stormEnd := stormEnd (storm e); nextStormTick := u32 (now + r) |} e)).

(** Reorg swap (rotate base tempos) *)

(** [LANES[i]->baseHz = LANES[i + 1]->baseHz] *)
Definition shiftBody (i : nat) : St unit :=
  e <- get ;; updLane i (set_baseHz (baseHz (laneAt e (i + 1)))).

(** [L->nextDue = millis() + periodMs( *L )] *)
Definition dueBody (i : nat) : St unit :=
  now <- millis ;; updLane i (fun L => set_nextDue (u32 (now + periodMs L)) L).

Definition reorgSwap : St unit :=
  e <- get ;;
  let n := NLANES e in
  if (n <? 2)%nat then ret tt
  else
    let first := baseHz (laneAt e 0) in
    forEach (seq 0 (n - 1)) shiftBody ;;
    updLane (n - 1) (set_baseHz first) ;;
    forLanes dueBody.

(** Scope creep *)
Definition startScopeCreep : St unit :=
  t <- millis ;;
  e <- get ;;
  modify (with_scope {| scopeStartHz := baseHz <$> lanes e; scopeStart := t;
                        scopeEnd := u32 (t + SCOPE_DUR_MS cfg) |}) ;;
  setMode MODE_SCOPE_CREEP.

Definition handleScopeCreep (now : Z) : St unit :=
  e <- get ;;
  let s := scope e in
  let t := progress now (scopeStart s) (scopeEnd s) in
  let start i := default F32.zero (scopeStartHz s !! i) in
  imapLanes (fun i L => set_baseHz (F32.add (start i) (F32.mul (SCOPE_DH cfg) t)) L) ;;
  when (passed now (scopeEnd s))
    (imapLanes (fun i L => set_baseHz (start i) L) ;; setMode MODE_NORMAL).

(** Phase snap *)
Definition follow (ref fol : nat) : St unit :=
  e <- get ;; updLane fol (set_baseHz (baseHz (laneAt e ref))) ;;
  e <- get ;; updLane fol (set_nextDue (nextDue (laneAt e ref))).

Definition startPhaseSnap (fuel : nat) : Loop unit :=
  e <~ lift get ;;
  let n := Z.of_nat (NLANES e) in
  ref <~ lift (rng 0 (n - 1)) ;;
  fol <~ pickOther fuel n ref ;;
  lift (
    updLane (Z.to_nat fol) (fun L => set_savedHz (baseHz L) L) ;;
    follow (Z.to_nat ref) (Z.to_nat fol) ;;
    t <- millis ;;
    modify (with_snap {| snapRef := ref; snapFol := fol; snapEnd := u32 (t + 4000) |}) ;;
    setMode MODE_PHASE_SNAP).

Definition handlePhaseSnap (now : Z) : St unit :=
  e <- get ;;
  let s := snap e in
  follow (Z.to_nat (snapRef s)) (Z.to_nat (snapFol s)) ;;
  when (passed now (snapEnd s))
    (updLane (Z.to_nat (snapFol s)) (fun L => set_baseHz (savedHz L) L) ;;
     setMode MODE_NORMAL).

(** *** Random glitch engine *)

Definition WEIGHT_PTRS : list float :=
  [W_PAUSE cfg; W_STAGGER cfg; W_SYNC cfg; W_BEAT cfg; W_ACCEL cfg; W_DECEL cfg;
   W_COUNTER cfg; W_STORM cfg; W_SNAP cfg; W_SCOPE cfg; W_REORG cfg].

Definition NEFF : nat := length WEIGHT_PTRS.

(** The loop of [buildWeights]: the running sums [cumW[0..n-1]] of a
    weight list, starting from [sum]. *)
Fixpoint runningSums (sum : float) (ws : list float) : list float :=
  match ws with
  | [] => []
  | w :: rest => let sum' := F32.add sum w in sum' :: runningSums sum' rest
  end.

(** The table [buildWeights] leaves in [cumW]: the running sums, then the
    cap [cumW[NEFF] = 1.0f]. *)
Definition cumTable (ws : list float) : list float :=
  runningSums F32.zero ws ++ [F32.one].

Definition buildWeights : St unit := modify (with_cumW (cumTable WEIGHT_PTRS)).

Definition cumWAt (cw : list float) (i : nat) : float := default F32.zero (cw !! i).

(** The branch that [pickAndStartEffect] takes for a draw [r]. *)
Inductive Branch :=
  | BrPause | BrStagger | BrSync | BrBeat | BrAccel | BrDecel | BrCounter
  | BrStorm | BrSnap | BrScope | BrReorg | BrSubtle.

Definition chooseBranch (cw : list float) (r : float) : Branch :=
  if F32.ltb r (cumWAt cw 0) then BrPause
  else if F32.ltb r (cumWAt cw 1) then BrStagger
  else if F32.ltb r (cumWAt cw 2) then BrSync
  else if F32.ltb r (cumWAt cw 3) then BrBeat
  else if F32.ltb r (cumWAt cw 4) then BrAccel
  else if F32.ltb r (cumWAt cw 5) then BrDecel
  else if F32.ltb r (cumWAt cw 6) then BrCounter
  else if F32.ltb r (cumWAt cw 7) then BrStorm
  else if F32.ltb r (cumWAt cw 8) then BrSnap
  else if F32.ltb r (cumWAt cw 9) then BrScope
  else if F32.ltb r (cumWAt cw 10) then BrReorg
  else BrSubtle.

(** [(float)random(0, 10000) / 10000.0f] *)
Definition unitDraw (k : Z) : float := F32.div (F32.of_Z k) (F32.of_Z 10000).

(** The fallback after the chain: a subtle glitch on one lane. *)
Definition subtleGlitch : St unit :=
  e <- get ;;
  li <- random 0 (Z.of_nat (NLANES e)) ;;
  let i := Z.to_nat li in
  g <- random 0 100 ;;
  if g <? 40 then
    s <- random 0 2 ;;
    let sign := if s =? 0 then F32.of_Z (-1) else F32.one in
    p <- random 30 100 ;;
    let mul := F32.add F32.one
                 (F32.mul sign (F32.mul (NUDGE_MAX_PCT cfg)
                                        (F32.div (F32.of_Z p) (F32.of_Z 100)))) in
    d <- rng (i32 (NUDGE_MIN_MS cfg)) (i32 (NUDGE_MAX_MS cfg)) ;;
    updLane i (set_nudgeMul mul) ;;
    t <- millis ;;
    updLane i (set_nudgeUntil (u32 (t + u32 d)))
  else if g <? 65 then
    d <- rng (i32 (FREEZE_MIN_MS cfg)) (i32 (FREEZE_MAX_MS cfg)) ;;
    t <- millis ;;
    updLane i (set_freezeUntil (u32 (t + u32 d)))
  else
    b <- burstPulses ;;
    updLane i (set_burstRemain b).

Definition pickAndStartEffect (fuel : nat) : Loop unit :=
  k <~ lift (random 0 10000) ;;
  e <~ lift get ;;
  match chooseBranch (cumW e) (unitDraw k) with
  | BrPause => lift startLongPause
  | BrStagger => lift startStaggerBlackout
  | BrSync => lift startSyncLock
  | BrBeat =>
      c <~ lift (random 0 2) ;;
      lift (if c =? 0 then startBeat ROCK else startBeat DEMBOW)
  | BrAccel => lift startAccelerando
  | BrDecel => lift startDecelerando
  | BrCounter => startCounterbalance fuel
  | BrStorm => lift startEmailStorm
  | BrSnap => startPhaseSnap fuel
  | BrScope => lift startScopeCreep
  | BrReorg => lift reorgSwap
  | BrSubtle => lift subtleGlitch
  end.

(** *** Setup and loop *)

Definition initEngine : Engine := {|
  lanes := newLane <$> BASE_HZ cfg;
  mode := MODE_NORMAL;
  beat := {| pat := None; stepPeriodMs := 0; nextStepAt := 0; step := 0; barsLeft := 0 |};
  lastSyncEnd := 0; modeEndsAt := 0; lastLongPauseEnd := 0;
  ramp := {| rampStart := 0; rampEnd := 0; rampTo := F32.one |};
  cb := {| cbUp := -1; cbDown := -1; cbStart := 0; cbEnd := 0; cbDelta := F32.dec 2 10 |};
  storm := {| stormEnd := 0; nextStormTick := 0 |};
  scope := {| scopeStartHz := replicate (length (BASE_HZ cfg)) F32.zero;
              scopeStart := 0; scopeEnd := 0 |};
  snap := {| snapRef := -1; snapFol := -1; snapEnd := 0 |};
  cumW := replicate 12 F32.zero;
  lastAnyPulseAt := 0; lastTry := 0; lastLivenessLog := 0;
  trace := []
|}.

Definition boot : World := {| eng := initEngine; clk := 0; rnd := 0 |}.

Definition setup : St unit :=
  esp_random ;;                       (* randomSeed(esp_random()) *)
  forLanes setupLane ;;
  buildWeights ;;
  t <- millis ;;
  modify (with_lastAnyPulseAt t).

(** "consider a new effect while idle" *)
Definition considerEffect (fuel : nat) (now : Z) : Loop unit :=
  e <~ lift get ;;
  if bool_decide (mode e = MODE_NORMAL) && passed now (lastTry e) then
    r <~ lift (rng (-500) 500) ;;
    lift (modify (with_lastTry (u32 (now + GLITCH_CHECK_MS cfg + r)))) ;;~
    x <~ lift (random 0 1000) ;;
    if x <? F32.trunc (F32.mul (GLITCH_PROB cfg) (F32.of_Z 1000))
    then pickAndStartEffect fuel
    else lift (ret tt)
  else lift (ret tt).

(** "handle modes" *)
Definition handleMode (now : Z) : St unit :=
  e <- get ;;
  match mode e with
  | MODE_BEAT => handleBeat now
  | MODE_SYNC_LOCK => when (passed now (modeEndsAt e)) endSyncLock
  | MODE_LONG_PAUSE => when (passed now (modeEndsAt e)) endLongPause
  | MODE_STAGGER_BLACKOUT => when (passed now (modeEndsAt e)) endStaggerBlackout
  | MODE_ACCEL => handleAccelerando now
  | MODE_DECEL => handleDecelerando now
  | MODE_EMAIL_STORM => handleEmailStorm now
  | MODE_SCOPE_CREEP => handleScopeCreep now
  | MODE_PHASE_SNAP => handlePhaseSnap now
  | MODE_COUNTERBAL => handleCounterbalance now
  | MODE_NORMAL => ret tt
  end.

(** "Liveness check (engine watchdog-lite)" *)
Definition watchdog (now : Z) : St unit :=
  e <- get ;;
  when ((i32 (LIVENESS_WARN_MS cfg) <? sdiff now (lastAnyPulseAt e))
        && bool_decide (mode e = MODE_NORMAL))
    (forLanes (fun i =>
       e <- get ;;
       when (running (laneAt e i))
         (r <- rng 0 100 ;;
          updLane i (fun L => set_nextDue (u32 (now + periodMs L + r)) L))) ;;
     e <- get ;;
     when (5000 <? sdiff now (lastLivenessLog e))
       (modify (with_lastLivenessLog now))).

(** One pass through the body of the scheduler's [while] loop for lane
    [i]; the result says whether the loop goes round again. *)
Definition autoBody (i : nat) (now : Z) : St bool :=
  e <- get ;;
  let L := laneAt e i in
  if passed now (nextFree L) then
    coilOn i ;;
    scheduleNext i now ;;
    e <- get ;;
    ret (passed now (nextDue (laneAt e i)))
  else
    updLane i (set_nextDue (nextFree L)) ;;
    ret false.

(** [while ((int32_t)(now - L->nextDue) >= 0) { ... }] *)
Fixpoint autoLoop (fuel : nat) (i : nat) (now : Z) : Loop unit :=
  match fuel with
  | O => fun _ => None
  | S fuel' =>
      e <~ lift get ;;
      if passed now (nextDue (laneAt e i)) then
        again <~ lift (autoBody i now) ;;
        if again then autoLoop fuel' i now else lift (ret tt)
      else lift (ret tt)
  end.

(** The body of "lane scheduler" for lane [i]. *)
Definition scheduleLane (fuel : nat) (now : Z) (i : nat) : Loop unit :=
  lift (maybeCoilOff i now) ;;~
  lift (e <- get ;;
        let L := laneAt e i in
        when (negb (nudgeUntil L =? 0) && passed now (nudgeUntil L))
          (updLane i resetNudge)) ;;~
  e <~ lift get ;;
  let L := laneAt e i in
  if negb (freezeUntil L =? 0) && (sdiff now (freezeUntil L) <? 0) then
    lift (updLane i (set_nextDue (u32 (now + 10))))
  else
    lift (when (negb (freezeUntil L =? 0)) (updLane i (set_freezeUntil 0))) ;;~
    if (0 <? burstRemain L) && passed now (nextFree L) then
      lift (coilOn i ;;
            updLane i (fun L => set_burstRemain (u8 (burstRemain L - 1)) L) ;;
            updLane i (set_nextDue (u32 (now + BURST_TARGET_MS cfg))))
    else if negb (running L) then lift (ret tt)
    else autoLoop fuel i now.

Definition loop (fuel : nat) : Loop unit :=
  now <~ lift millis ;;
  considerEffect fuel now ;;~
  lift (handleMode now) ;;~
  lift (watchdog now) ;;~
  e <~ lift get ;;
  forEachL (seq 0 (NLANES e)) (scheduleLane fuel now).

(** [n] passes through [loop] after [setup]. *)
Fixpoint ticks (fuel : nat) (n : nat) : Loop unit :=
  match n with
  | O => lift (ret tt)
  | S n' => loop fuel ;;~ ticks fuel n'
  end.

Definition run (fuel n : nat) : option World :=
  match (lift setup ;;~ ticks fuel n) boot with
  | Some (_, w) => Some w
  | None => None
  end.

(** ** Reasoning about the sketch *)

(** *** Invariants through the monads *)

Definition preserves {A} (I : World -> Prop) (m : St A) : Prop :=
  forall w, I w -> I (snd (m w)).

Definition preservesL {A} (I : World -> Prop) (m : Loop A) : Prop :=
  forall w a w', I w -> m w = Some (a, w') -> I w'.

(** An invariant that survives taking clock readings and random words. *)
Definition cursor_closed (I : World -> Prop) : Prop :=
  forall e c r, I (Build_World e c r) ->
    I (Build_World e (S c) r) /\ I (Build_World e c (S r)).

Lemma preserves_ret {A} I (a : A) : preserves I (ret a).
Proof. intros w H. exact H. Qed.

Lemma preserves_bind {A B} I (m : St A) (k : A -> St B) :
  preserves I m -> (forall a, preserves I (k a)) -> preserves I (bind m k).
Proof. intros Hm Hk w H. unfold bind. apply Hk, Hm, H. Qed.

Lemma preserves_get I : preserves I get.
Proof. intros w H. exact H. Qed.

Lemma preserves_when I b m : preserves I m -> preserves I (when b m).
Proof. intros Hm. destruct b; [exact Hm | apply preserves_ret]. Qed.

Lemma preserves_forEach {A} I (l : list A) body :
  (forall x, preserves I (body x)) -> preserves I (forEach l body).
Proof.
  intros Hb. induction l as [|x l IH]; simpl.
  - apply preserves_ret.
  - apply preserves_bind; [apply Hb | intros _; exact IH].
Qed.

Lemma preserves_reading I : cursor_closed I -> preserves I reading.
Proof. intros Hc [e c r] H. simpl. apply Hc, H. Qed.

Lemma preserves_esp_random I : cursor_closed I -> preserves I esp_random.
Proof. intros Hc [e c r] H. simpl. apply Hc, H. Qed.

Lemma preserves_millis I : cursor_closed I -> preserves I millis.
Proof.
  intros Hc. apply preserves_bind; [apply preserves_reading, Hc|].
  intros; apply preserves_ret.
Qed.

Lemma preserves_rng I lo hi : cursor_closed I -> preserves I (rng lo hi).
Proof.
  intros Hc. apply preserves_bind; [apply preserves_esp_random, Hc|].
  intros; apply preserves_ret.
Qed.

Lemma preserves_random I lo hi : cursor_closed I -> preserves I (random lo hi).
Proof.
  intros Hc. unfold random. destruct (hi <=? lo); [apply preserves_ret|].
  apply preserves_bind; [apply preserves_esp_random, Hc|].
  intros; apply preserves_ret.
Qed.

Lemma preserves_jitter I lo hi : cursor_closed I -> preserves I (jitter lo hi).
Proof.
  intros Hc. unfold jitter. destruct (0 <? JITTER_MS cfg);
    [apply preserves_rng, Hc | apply preserves_ret].
Qed.

Lemma preservesL_lift {A} I (m : St A) : preserves I m -> preservesL I (lift m).
Proof.
  intros Hm w a w' H E. unfold lift in E. injection E as E.
  specialize (Hm w H). rewrite E in Hm. exact Hm.
Qed.

Lemma preservesL_bind {A B} I (m : Loop A) (k : A -> Loop B) :
  preservesL I m -> (forall a, preservesL I (k a)) -> preservesL I (bindL m k).
Proof.
  intros Hm Hk w b w' H E. unfold bindL in E.
  destruct (m w) as [[a w1]|] eqn:Em; [|discriminate].
  eapply Hk; [eapply Hm; eassumption | exact E].
Qed.

Lemma preservesL_forEachL {A} I (l : list A) body :
  (forall x, preservesL I (body x)) -> preservesL I (forEachL l body).
Proof.
  intros Hb. induction l as [|x l IH]; simpl.
  - apply preservesL_lift, preserves_ret.
  - apply preservesL_bind; [apply Hb | intros _; exact IH].
Qed.

Lemma preservesL_pickOther I fuel n avoid :
  cursor_closed I -> preservesL I (pickOther fuel n avoid).
Proof.
  intros Hc. induction fuel as [|fuel IH]; simpl.
  - intros w a w' _ E. discriminate.
  - apply preservesL_bind; [apply preservesL_lift, preserves_rng, Hc|].
    intros x. destruct (x =? avoid); [exact IH | apply preservesL_lift, preserves_ret].
Qed.

Lemma preservesL_autoLoop I fuel i now :
  preserves I (autoBody i now) -> preservesL I (autoLoop fuel i now).
Proof.
  intros Hb. induction fuel as [|fuel IH]; simpl.
  - intros w a w' _ E. discriminate.
  - apply preservesL_bind; [apply preservesL_lift, preserves_get|].
    intros e. destruct (passed now (nextDue (laneAt e i)));
      [|apply preservesL_lift, preserves_ret].
    apply preservesL_bind; [apply preservesL_lift, Hb|].
    intros again. destruct again; [exact IH | apply preservesL_lift, preserves_ret].
Qed.

(** *** Frames

    A frame states, field by field, what a piece of the sketch leaves
    alone: a predicate on each listed lane, on the actuator trace, on the
    mode register and on the number of clock readings taken. *)

Record Frame := {
  fr_len : nat;
  fr_lane : nat -> Lane -> Prop;
  fr_trace : list Event -> Prop;
  fr_mode : Mode -> Prop;
  fr_clk : nat -> Prop
}.

Definition holdsE (F : Frame) (e : Engine) : Prop :=
  length (lanes e) = fr_len F
  /\ (forall i L, lanes e !! i = Some L -> fr_lane F i L)
  /\ fr_trace F (trace e)
  /\ fr_mode F (mode e).

Definition holds (F : Frame) (w : World) : Prop :=
  holdsE F (eng w) /\ fr_clk F (clk w).

Definition clk_up (F : Frame) : Prop := forall c, fr_clk F c -> fr_clk F (S c).

Lemma holds_cursor_closed F : clk_up F -> cursor_closed (holds F).
Proof.
  intros Hup e c r [He Hc]. split; (split; [exact He|]); simpl in *; auto.
Qed.

Lemma preserves_modify F f :
  (forall e, holdsE F e -> holdsE F (f e)) -> preserves (holds F) (modify f).
Proof. intros Hf w [He Hc]. split; simpl; auto. Qed.

(** Writes to the effect variables and the loop statics. *)
Lemma holdsE_same F e e' :
  lanes e' = lanes e -> trace e' = trace e -> mode e' = mode e ->
  holdsE F e -> holdsE F e'.
Proof. unfold holdsE. intros -> -> ->. auto. Qed.

Lemma preserves_setMode F m : fr_mode F m -> preserves (holds F) (setMode m).
Proof.
  intros Hm. apply preserves_modify. intros e (Hl & Hq & Ht & _).
  repeat split; simpl; auto.
Qed.

Lemma preserves_push F ev :
  (forall tr, fr_trace F tr -> fr_trace F (ev :: tr)) ->
  preserves (holds F) (modify (fun e => with_trace (ev :: trace e) e)).
Proof.
  intros Hev. apply preserves_modify. intros e (Hl & Hq & Ht & Hm).
  repeat split; simpl; auto.
Qed.

Lemma preserves_updLane F i f :
  (forall L, fr_lane F i L -> fr_lane F i (f L)) ->
  preserves (holds F) (updLane i f).
Proof.
  intros Hf. apply preserves_modify. intros e (Hl & Hq & Ht & Hm).
  repeat split; simpl; auto.
  - rewrite length_alter. exact Hl.
  - intros j L. destruct (decide (i = j)) as [->|Hne].
    + rewrite list_lookup_alter_eq. destruct (lanes e !! j) as [L0|] eqn:E; [|discriminate].
      simpl. intros [= <-]. apply Hf, Hq, E.
    + rewrite list_lookup_alter_ne by exact Hne. apply Hq.
Qed.

Lemma preserves_imapLanes F f :
  (forall i L, fr_lane F i L -> fr_lane F i (f i L)) ->
  preserves (holds F) (imapLanes f).
Proof.
  intros Hf. apply preserves_modify. intros e (Hl & Hq & Ht & Hm).
  repeat split; simpl; auto.
  - rewrite length_imap. exact Hl.
  - intros j L. rewrite list_lookup_imap.
    destruct (lanes e !! j) as [L0|] eqn:E; [|discriminate].
    simpl. intros [= <-]. apply Hf, Hq, E.
Qed.

Lemma preserves_mapLanes F f :
  (forall i L, fr_lane F i L -> fr_lane F i (f L)) ->
  preserves (holds F) (mapLanes f).
Proof.
  intros Hf. apply preserves_modify. intros e (Hl & Hq & Ht & Hm).
  repeat split; simpl; auto.
  - rewrite length_fmap. exact Hl.
  - intros j L. rewrite list_lookup_fmap.
    destruct (lanes e !! j) as [L0|] eqn:E; [|discriminate].
    simpl. intros [= <-]. apply Hf, Hq, E.
Qed.

(** Reduction of field reads over field writes, and nothing else. *)
Ltac lane_cbn :=
  cbn [fr_len fr_lane fr_trace fr_mode fr_clk
       baseHz nudgeMul nudgeUntil nextDue nextFree coilOffAt running pol minute
       freezeUntil burstRemain savedHz
       set_baseHz set_nudgeMul set_nudgeUntil set_nextDue set_nextFree set_coilOffAt
       set_running set_pol set_minute set_freezeUntil set_burstRemain set_savedHz
       fire resetNudge clearTransients] in *.

(** [frame side] walks through a monadic program and leaves, for every
    write it meets, the frame's side condition to [side]. *)
Ltac head_of t :=
  lazymatch t with
  | ?f _ => head_of f
  | _ => t
  end.

Ltac frame_leaf side :=
  lazymatch goal with
  | |- preserves _ (ret _) => apply preserves_ret
  | |- preserves _ get => apply preserves_get
  | |- preserves _ reading => apply preserves_reading, holds_cursor_closed; side
  | |- preserves _ millis => apply preserves_millis, holds_cursor_closed; side
  | |- preserves _ esp_random => apply preserves_esp_random, holds_cursor_closed; side
  | |- preserves _ (rng _ _) => apply preserves_rng, holds_cursor_closed; side
  | |- preserves _ (random _ _) => apply preserves_random, holds_cursor_closed; side
  | |- preserves _ (jitter _ _) => apply preserves_jitter, holds_cursor_closed; side
  | |- preserves _ (setMode _) => apply preserves_setMode; side
  | |- preserves _ (modify (fun e => with_trace (_ :: trace e) e)) =>
      apply preserves_push; side
  | |- preserves _ (updLane _ _) => apply preserves_updLane; side
  | |- preserves _ (imapLanes _) => apply preserves_imapLanes; side
  | |- preserves _ (mapLanes _) => apply preserves_mapLanes; side
  | |- preserves _ (modify _) =>
      apply preserves_modify; intros ? ?; eapply holdsE_same;
        [reflexivity | reflexivity | reflexivity | assumption]
  end.

Ltac frame side :=
  repeat lazymatch goal with
  | |- preserves _ (bind _ _) => apply preserves_bind; [|intros ?]
  | |- preserves _ (when _ _) => apply preserves_when
  | |- preserves _ (forEach _ _) => apply preserves_forEach; intros ?
  | |- preserves _ (if ?b then _ else _) => destruct b
  | |- preserves _ (match ?x with _ => _ end) => destruct x
  | |- preserves _ ?m =>
      first [ frame_leaf side | let h := head_of m in progress unfold h ]
  end.

(** The mode register alone. *)
Definition modeFrame (n : nat) (m : Mode) : Frame :=
  {| fr_len := n; fr_lane := fun _ _ => True; fr_trace := fun _ => True;
     fr_mode := fun m' => m' = m; fr_clk := fun _ => True |}.

Lemma reorgSwap_keeps_mode w : mode (eng (snd (reorgSwap w))) = mode (eng w).
Proof.
  assert (H : preserves (holds (modeFrame (NLANES (eng w)) (mode (eng w)))) reorgSwap).
  { frame ltac:(first [done | intros ? ?; exact I | intros ? ? ?; exact I]). }
  destruct (H w) as [(_ & _ & _ & Hm) _]; [|exact Hm].
  repeat split.
Qed.

(** *** Wrap-around arithmetic *)

Lemma u32_range a : 0 <= u32 a < 2 ^ 32.
Proof. unfold u32. apply Z.mod_pos_bound. lia. Qed.

Lemma u32_small a : 0 <= a < 2 ^ 32 -> u32 a = a.
Proof. intros H. unfold u32. apply Z.mod_small, H. Qed.

Lemma u32_idem a : u32 (u32 a) = u32 a.
Proof. apply u32_small, u32_range. Qed.

Lemma u32_add_l a b : u32 (u32 a + b) = u32 (a + b).
Proof. unfold u32. apply Zplus_mod_idemp_l. Qed.

Lemma u32_add_r a b : u32 (a + u32 b) = u32 (a + b).
Proof. unfold u32. apply Zplus_mod_idemp_r. Qed.

Lemma u32_sub_l a b : u32 (u32 a - b) = u32 (a - b).
Proof. unfold u32. apply Zminus_mod_idemp_l. Qed.

Lemma u32_sub_r a b : u32 (a - u32 b) = u32 (a - b).
Proof. unfold u32. apply Zminus_mod_idemp_r. Qed.

Lemma u32_mul_r a b : u32 (a * u32 b) = u32 (a * b).
Proof. unfold u32. apply Zmult_mod_idemp_r. Qed.

Lemma i32_range a : - 2 ^ 31 <= i32 a < 2 ^ 31.
Proof.
  unfold i32. pose proof (Z.mod_pos_bound (a + 2 ^ 31) (2 ^ 32)). lia.
Qed.

Lemma i32_small a : - 2 ^ 31 <= a < 2 ^ 31 -> i32 a = a.
Proof. intros H. unfold i32. rewrite Z.mod_small; lia. Qed.

(** [i32] only looks at the residue modulo [2^32]. *)
Lemma i32_congr a b : u32 a = u32 b -> i32 a = i32 b.
Proof.
  unfold u32, i32. intros H.
  rewrite <- (Zplus_mod_idemp_l a), <- (Zplus_mod_idemp_l b), H. reflexivity.
Qed.

Lemma i32_u32 a : i32 (u32 a) = i32 a.
Proof. apply i32_congr, u32_idem. Qed.

(** The signed distance from a past instant [t] to [t + d] is [d], for
    any [d] of less than [2^31] ms. *)
Lemma sdiff_after t d : - 2 ^ 31 <= d < 2 ^ 31 -> sdiff (u32 (t + d)) t = d.
Proof.
  intros H. unfold sdiff. rewrite <- (i32_small d H) at 2.
  apply i32_congr. rewrite u32_sub_l. f_equal. lia.
Qed.

(** *** Stagger blackout: the freeze assigned to each lane *)

Lemma stepsFromEnd_congr n i :
  u32 (STAGGER_STOP_STEP_MS cfg * stepsFromEnd n i)
  = u32 (STAGGER_STOP_STEP_MS cfg * (Z.of_nat n - 1 - Z.of_nat i)).
Proof.
  unfold stepsFromEnd. rewrite u32_mul_r.
  rewrite <- (u32_mul_r _ (u32 _ - _)), u32_sub_l. apply u32_mul_r.
Qed.

Lemma startStaggerBlackout_lane w i L :
  lanes (eng w) !! i = Some L ->
  lanes (eng (snd (startStaggerBlackout w))) !! i =
    Some (set_running false
            (set_freezeUntil
               (u32 (u32 (clock (clk w)) + (STAGGER_SILENCE_MS cfg
                     + STAGGER_STOP_STEP_MS cfg
                       * (Z.of_nat (NLANES (eng w)) - 1 - Z.of_nat i))))
               (clearTransients L))).
Proof.
  intros HL. unfold startStaggerBlackout, bind; simpl.
  rewrite list_lookup_imap, list_lookup_fmap, HL; simpl.
  unfold NLANES; simpl. rewrite length_fmap.
  do 3 f_equal.
  rewrite u32_add_r, <- u32_add_r, stepsFromEnd_congr, u32_add_r.
  f_equal. lia.
Qed.

(** [frame] for the fuel-bounded part of the sketch. *)
Ltac frameL side :=
  repeat lazymatch goal with
  | |- preservesL _ (bindL _ _) => apply preservesL_bind; [|intros ?]
  | |- preservesL _ (lift _) => apply preservesL_lift; frame side
  | |- preservesL _ (pickOther _ _ _) =>
      apply preservesL_pickOther, holds_cursor_closed; side
  | |- preservesL _ (forEachL _ _) => apply preservesL_forEachL; intros ?
  | |- preservesL _ (autoLoop _ _ _) => apply preservesL_autoLoop; frame side
  | |- preservesL _ (if ?b then _ else _) => destruct b
  | |- preservesL _ (match ?x with _ => _ end) => destruct x
  | |- preservesL _ ?m => let h := head_of m in progress unfold h
  end.

(** A frame that relates every lane to the lane at the same index of an
    earlier world [w0], and constrains the trace. *)
Definition laneFrame (w0 : World) (R : nat -> Lane -> Lane -> Prop)
    (T : list Event -> Prop) : Frame :=
  {| fr_len := length (lanes (eng w0));
     fr_lane := fun i L => exists L0, lanes (eng w0) !! i = Some L0 /\ R i L0 L;
     fr_trace := T; fr_mode := fun _ => True; fr_clk := fun _ => True |}.

Lemma laneFrame_init w0 (R : nat -> Lane -> Lane -> Prop) (T : list Event -> Prop) :
  (forall i L, R i L L) -> T (trace (eng w0)) -> holds (laneFrame w0 R T) w0.
Proof.
  intros Hr Ht. repeat split; simpl; auto. intros i L HL. exists L. auto.
Qed.

Lemma laneFrame_lookup w0 R T w i L0 :
  holds (laneFrame w0 R T) w -> lanes (eng w0) !! i = Some L0 ->
  exists L, lanes (eng w) !! i = Some L /\ R i L0 L.
Proof.
  intros [(Hlen & Hq & _) _] HL0. simpl in *.
  destruct (lookup_lt_is_Some_2 (lanes (eng w)) i) as [L HL].
  { rewrite Hlen. eapply lookup_lt_Some, HL0. }
  exists L. split; [exact HL|].
  destruct (Hq i L HL) as (L0' & HL0' & HR). congruence.
Qed.

Lemma laneFrame_Forall2 w0 (R : Lane -> Lane -> Prop) T w :
  holds (laneFrame w0 (fun _ => R) T) w -> Forall2 R (lanes (eng w0)) (lanes (eng w)).
Proof.
  intros H. apply Forall2_same_length_lookup. split.
  - destruct H as [(Hlen & _) _]. simpl in Hlen. congruence.
  - intros i L0 L HL0 HL.
    destruct (laneFrame_lookup _ _ _ _ _ _ H HL0) as (L' & HL' & HR).
    congruence.
Qed.

(** Side conditions of a [laneFrame] whose relation is a conjunction of
    equations between fields, possibly guarded by a bound on the index;
    [unf] unfolds the relation and [tr] settles a push on the trace. *)
Ltac lane_side unf tr :=
  first
    [ exact I
    | intros ? ?; exact I
    | intros ? ? ?; exact I
    | intros ? ? (?L0 & ?HL0 & ?HR); eexists; split; [eassumption|];
      unf; repeat case_match; lane_cbn;
      first [ tauto | intros ?Hk; first [ lia | specialize (HR Hk); lane_cbn; tauto ] ]
    | intros ? (?L0 & ?HL0 & ?HR); eexists; split; [eassumption|];
      unf; repeat case_match; lane_cbn;
      first [ tauto | intros ?Hk; first [ lia | specialize (HR Hk); lane_cbn; tauto ] ]
    | tr ].

(** *** Transient state at the start of an effect *)

Definition cleared (L : Lane) : Prop :=
  burstRemain L = 0 /\ freezeUntil L = 0 /\ nudgeMul L = F32.one /\ nudgeUntil L = 0.

Definition sameTransients (L0 L : Lane) : Prop :=
  burstRemain L = burstRemain L0 /\ freezeUntil L = freezeUntil L0
  /\ nudgeMul L = nudgeMul L0 /\ nudgeUntil L = nudgeUntil L0.

(** What Counterbalance leaves of the transient state: the nudge
    multiplier is reset, the other three fields are kept. *)
Definition nudgeMulReset (L0 L : Lane) : Prop :=
  burstRemain L = burstRemain L0 /\ freezeUntil L = freezeUntil L0
  /\ nudgeMul L = F32.one /\ nudgeUntil L = nudgeUntil L0.

Definition sameButNudgeMul (L0 L : Lane) : Prop :=
  burstRemain L = burstRemain L0 /\ freezeUntil L = freezeUntil L0
  /\ nudgeUntil L = nudgeUntil L0.

Lemma Forall_cleared_fmap (f : Lane -> Lane) (l : list Lane) :
  (forall L, cleared (f (clearTransients L))) -> Forall cleared (f <$> (clearTransients <$> l)).
Proof.
  intros Hf. rewrite <- list_fmap_compose. apply Forall_fmap, Forall_true.
  intros L. apply Hf.
Qed.

Lemma startEmailStorm_cleared w :
  Forall cleared (lanes (eng (snd (startEmailStorm w)))).
Proof.
  unfold startEmailStorm, bind; simpl.
  rewrite <- (list_fmap_id (_ <$> _)). apply Forall_cleared_fmap.
  intros L. repeat split.
Qed.

Lemma startRamp_cleared dur lo hi m w :
  Forall cleared (lanes (eng (snd (startRamp dur lo hi m w)))).
Proof.
  unfold startRamp, bind; simpl. apply Forall_cleared_fmap.
  intros L. repeat split.
Qed.

Lemma startBeat_cleared p w :
  Forall cleared (lanes (eng (snd (startBeat p w)))).
Proof.
  unfold startBeat, bind; simpl. apply Forall_cleared_fmap.
  intros L. repeat split.
Qed.

Lemma startScopeCreep_lanes w :
  lanes (eng (snd (startScopeCreep w))) = lanes (eng w).
Proof. reflexivity. Qed.

Lemma startCounterbalance_transients fuel w u w' :
  startCounterbalance fuel w = Some (u, w') ->
  Forall2 nudgeMulReset (lanes (eng w)) (lanes (eng w')).
Proof.
  intros E.
  assert (H : preservesL (holds (laneFrame w (fun _ => sameButNudgeMul) (fun _ => True)))
                        (startCounterbalance fuel)).
  { frameL ltac:(lane_side ltac:(unfold sameButNudgeMul in *) fail). }
  assert (H0 : holds (laneFrame w (fun _ => sameButNudgeMul) (fun _ => True)) w).
  { apply laneFrame_init; [|exact I]. intros _ L. repeat split. }
  specialize (H w u w' H0 E). clear H0.
  apply Forall2_same_length_lookup. split.
  - destruct H as [(Hlen & _) _]. simpl in Hlen. congruence.
  - intros i L0 L HL0 HL.
    destruct (laneFrame_lookup _ _ _ _ _ _ H HL0) as (L' & HL' & Hb & Hf & Hn).
    assert (L' = L) by congruence. subst L'.
    repeat split; auto.
    clear H. revert E. unfold startCounterbalance, bindL, lift.
    repeat case_match; try discriminate. intros [= <-]. subst w'. simpl in *.
    rewrite list_lookup_fmap in HL.
    match type of HL with _ <$> ?o = _ => destruct o; [|discriminate] end.
    simpl in HL. injection HL as <-. reflexivity.
Qed.

Lemma startPhaseSnap_transients fuel w u w' :
  startPhaseSnap fuel w = Some (u, w') ->
  Forall2 sameTransients (lanes (eng w)) (lanes (eng w')).
Proof.
  intros E.
  assert (H : preservesL (holds (laneFrame w (fun _ => sameTransients) (fun _ => True)))
                        (startPhaseSnap fuel)).
  { frameL ltac:(lane_side ltac:(unfold sameTransients in *) fail). }
  eapply laneFrame_Forall2, H; [|exact E].
  apply laneFrame_init; [|exact I]. intros _ L. repeat split.
Qed.

(** *** Beat: lanes beyond A, B and C *)

Definition samePulse (L0 L : Lane) : Prop :=
  pol L = pol L0 /\ coilOffAt L = coilOffAt L0 /\ nextFree L = nextFree L0
  /\ minute L = minute L0.

Definition onABC (ev : Event) : Prop :=
  match ev with
  | Energize k _ _ => (k < 3)%nat
  | Deenergize _ => False
  end.

(** The trace [tr] extends [tr0] by pulses on lanes A, B, C only. *)
Definition beatTrace (tr0 tr : list Event) : Prop :=
  exists new, tr = new ++ tr0 /\ Forall onABC new.

Ltac beat_push :=
  let tr := fresh "tr" in
  let new := fresh "new" in
  let Hall := fresh "Hall" in
  intros tr (new & -> & Hall); eexists (_ :: new);
  split; [reflexivity | constructor; [simpl; lia | exact Hall]].

Lemma handleBeat_frame now w :
  holds (laneFrame w (fun j L0 L => (3 <= j)%nat -> samePulse L0 L)
                     (beatTrace (trace (eng w))))
        (snd (handleBeat now w)).
Proof.
  assert (H : preserves (holds (laneFrame w (fun j L0 L => (3 <= j)%nat -> samePulse L0 L)
                                        (beatTrace (trace (eng w)))))
                        (handleBeat now)).
  { frame ltac:(lane_side ltac:(unfold samePulse in *) beat_push). }
  apply H, laneFrame_init.
  - intros i L _. repeat split.
  - exists []. split; [reflexivity | constructor].
Qed.

(** *** Reorg swap *)

Definition hzAt (l : list Lane) (j : nat) : float :=
  baseHz (default (newLane F32.zero) (l !! j)).

Lemma world_eq e c r l :
  l = lanes e -> {| eng := with_lanes l e; clk := c; rnd := r |} = {| eng := e; clk := c; rnd := r |}.
Proof. intros ->. destruct e; reflexivity. Qed.

Lemma shift_loop (orig : list Lane) k : forall s w,
  (forall j, (s <= j)%nat -> lanes (eng w) !! j = orig !! j) ->
  snd (forEach (seq s k) shiftBody w)
  = {| eng := with_lanes
        (imap (fun j L => if bool_decide (s <= j < s + k)%nat
                          then set_baseHz (hzAt orig (j + 1)) L else L)
              (lanes (eng w))) (eng w);
       clk := clk w; rnd := rnd w |}.
Proof.
  induction k as [|k IH]; intros s w H; simpl.
  - destruct w as [e c r]; simpl. symmetry. apply world_eq.
    apply list_eq. intros j. rewrite list_lookup_imap.
    destruct (lanes e !! j); simpl; [|reflexivity].
    rewrite bool_decide_eq_false_2 by lia. reflexivity.
  - unfold bind at 1. rewrite IH.
    + destruct w as [e c r]; simpl in *. unfold with_lanes; simpl. do 2 f_equal.
      apply list_eq. intros j. rewrite !list_lookup_imap.
      destruct (decide (s = j)) as [<-|Hne].
      * rewrite list_lookup_alter_eq. destruct (lanes e !! s) as [L|] eqn:E; simpl; [|reflexivity].
        rewrite bool_decide_eq_false_2 by lia. rewrite bool_decide_eq_true_2 by lia.
        unfold laneAt, hzAt. simpl. rewrite (H (s + 1)%nat) by lia. reflexivity.
      * rewrite list_lookup_alter_ne by exact Hne.
        destruct (lanes e !! j) as [L|]; simpl; [|reflexivity].
        destruct (decide (S s <= j < S s + k)%nat).
        -- rewrite !bool_decide_eq_true_2 by lia. reflexivity.
        -- rewrite !bool_decide_eq_false_2 by lia. reflexivity.
    + intros j Hj. simpl. rewrite list_lookup_alter_ne by lia. apply H. lia.
Qed.

Lemma due_loop k : forall s w,
  snd (forEach (seq s k) dueBody w)
  = {| eng := with_lanes
        (imap (fun j L => if bool_decide (s <= j < s + k)%nat
                          then set_nextDue (u32 (u32 (clock (clk w + (j - s))) + periodMs L)) L
                          else L)
              (lanes (eng w))) (eng w);
       clk := (clk w + k)%nat; rnd := rnd w |}.
Proof.
  induction k as [|k IH]; intros s w; simpl.
  - destruct w as [e c r]; simpl. replace (c + 0)%nat with c by lia.
    symmetry. apply world_eq.
    apply list_eq. intros j. rewrite list_lookup_imap.
    destruct (lanes e !! j); simpl; [|reflexivity].
    rewrite bool_decide_eq_false_2 by lia. reflexivity.
  - unfold bind at 1. rewrite IH.
    destruct w as [e c r]; simpl. unfold with_lanes; simpl.
    f_equal; [|lia]. f_equal.
    apply list_eq. intros j. rewrite !list_lookup_imap.
    destruct (decide (s = j)) as [<-|Hne].
    + rewrite list_lookup_alter_eq. destruct (lanes e !! s) as [L|] eqn:E; simpl; [|reflexivity].
      rewrite bool_decide_eq_false_2 by lia. rewrite bool_decide_eq_true_2 by lia.
      rewrite Nat.sub_diag, Nat.add_0_r. reflexivity.
    + rewrite list_lookup_alter_ne by exact Hne.
      destruct (lanes e !! j) as [L|]; simpl; [|reflexivity].
      destruct (decide (S s <= j < S s + k)%nat).
      * rewrite !bool_decide_eq_true_2 by lia.
        replace (S (c + (j - S s)))%nat with (c + (j - s))%nat by lia. reflexivity.
      * rewrite !bool_decide_eq_false_2 by lia. reflexivity.
Qed.

Lemma reorgSwap_spec w :
  let l := lanes (eng w) in
  let n := length l in
  (2 <= n)%nat ->
  snd (reorgSwap w)
  = {| eng := with_lanes
        (imap (fun j L =>
                 let L1 := set_baseHz (hzAt l ((j + 1) mod n)) L in
                 set_nextDue (u32 (u32 (clock (clk w + j)) + periodMs L1)) L1) l)
        (eng w);
       clk := (clk w + n)%nat; rnd := rnd w |}.
Proof.
  intros l n Hn. unfold reorgSwap, forLanes, bind, get. cbn [fst snd].
  unfold NLANES at 1. fold l n.
  destruct (Nat.ltb_spec n 2) as [?|_]; [lia|].
  rewrite (shift_loop l) by reflexivity.
  unfold updLane, modify, NLANES. cbn [fst snd eng clk rnd].
  rewrite due_loop. cbn [eng clk rnd]. fold l n.
  unfold with_lanes; cbn. rewrite length_alter, length_imap. fold n.
  do 2 f_equal.
  apply list_eq. intros j. rewrite !list_lookup_imap.
  destruct (decide (j = n - 1)%nat) as [->|Hne].
  - rewrite list_lookup_alter_eq, list_lookup_imap.
    destruct (l !! (n - 1)%nat) as [L|] eqn:E; simpl; [|reflexivity].
    repeat first [ rewrite bool_decide_eq_true_2 by lia
                 | rewrite bool_decide_eq_false_2 by lia ].
    replace (n - 1 + 1)%nat with n by lia. rewrite Nat.Div0.mod_same.
    rewrite Nat.sub_0_r. reflexivity.
  - rewrite list_lookup_alter_ne by congruence. rewrite list_lookup_imap.
    destruct (l !! j) as [L|] eqn:E; simpl; [|reflexivity].
    assert (j < n)%nat by (eapply lookup_lt_Some, E).
    rewrite !bool_decide_eq_true_2 by lia.
    rewrite Nat.mod_small by lia. rewrite Nat.sub_0_r. reflexivity.
Qed.

Lemma reorgSwap_small w : (NLANES (eng w) < 2)%nat -> reorgSwap w = (tt, w).
Proof.
  intros H. unfold reorgSwap, bind, get. cbn [fst snd].
  destruct (Nat.ltb_spec (NLANES (eng w)) 2) as [_|?]; [reflexivity | lia].
Qed.

(** Lane [i] receives the former tempo of lane [i + 1], wrapping, and with
    two lanes or more it is due one period after its own clock reading. *)
Lemma reorgSwap_rotates w i L' :
  let n := NLANES (eng w) in
  lanes (eng (snd (reorgSwap w))) !! i = Some L' ->
  exists Lnext, lanes (eng w) !! ((i + 1) mod n)%nat = Some Lnext
    /\ baseHz L' = baseHz Lnext
    /\ ((2 <= n)%nat -> nextDue L' = u32 (u32 (clock (clk w + i)) + periodMs L')).
Proof.
  intros n HL'. destruct (Nat.lt_ge_cases n 2) as [Hn|Hn].
  - rewrite reorgSwap_small in HL' by exact Hn. simpl in HL'.
    assert (Hi : (i < n)%nat) by (eapply lookup_lt_Some, HL').
    assert (i = 0%nat) by lia. subst i.
    assert (Hn1 : NLANES (eng w) = 1%nat) by (unfold n in *; lia).
    exists L'. unfold n in *. rewrite Hn1. simpl.
    split; [exact HL'|]. split; [reflexivity | lia].
  - rewrite reorgSwap_spec in HL' by exact Hn. cbn [eng lanes with_lanes] in HL'.
    rewrite list_lookup_imap in HL'.
    destruct (lanes (eng w) !! i) as [L|] eqn:E; [|discriminate].
    simpl in HL'. injection HL' as <-.
    assert (Hi : (i < n)%nat) by (eapply lookup_lt_Some, E).
    destruct (lookup_lt_is_Some_2 (lanes (eng w)) ((i + 1) mod n)%nat) as [Lnext HLn].
    { apply Nat.mod_upper_bound. unfold n, NLANES in *. lia. }
    exists Lnext. split; [exact HLn|]. fold (NLANES (eng w)). fold n.
    unfold hzAt. rewrite HLn. simpl. split; [reflexivity|]. intros _. reflexivity.
Qed.

(** *** The mode register *)

Lemma setup_mode : mode (eng (snd (setup boot))) = MODE_NORMAL.
Proof.
  assert (H : preserves (holds (modeFrame (length (BASE_HZ cfg)) MODE_NORMAL)) setup).
  { frame ltac:(first [done | intros ? ?; exact I | intros ? ? ?; exact I]). }
  destruct (H boot) as [(_ & _ & _ & Hm) _]; [|exact Hm].
  repeat split. simpl. apply length_fmap.
Qed.

Lemma considerEffect_busy fuel now w :
  mode (eng w) <> MODE_NORMAL -> considerEffect fuel now w = Some (tt, w).
Proof.
  intros H. unfold considerEffect, bindL, lift, get. cbn [fst snd].
  rewrite bool_decide_eq_false_2 by exact H. reflexivity.
Qed.

(** *** One pass of the autonomous scheduler *)

(** The jitter [scheduleNext] draws in world [w]. *)
Definition jitterDraw (w : World) : Z :=
  if 0 <? JITTER_MS cfg
  then i32 (- JITTER_MS cfg + u32 (entropy (rnd w)) mod u32 (JITTER_MS cfg - - JITTER_MS cfg + 1))
  else 0.

(** The due time [scheduleNext] computes from the previous one. *)
Definition nextDueAfter (now j : Z) (L : Lane) : Z :=
  if i32 (u32 (periodMs L * 4)) <? sdiff now (nextDue L)
  then u32 (now + periodMs L + j)
  else u32 (nextDue L + periodMs L + j).

Lemma autoBody_gated i now w L :
  lanes (eng w) !! i = Some L -> passed now (nextFree L) = false ->
  autoBody i now w
  = (false, {| eng := with_lanes (alter (set_nextDue (nextFree L)) i (lanes (eng w))) (eng w);
               clk := clk w; rnd := rnd w |}).
Proof.
  intros HL Hg. unfold autoBody, bind, get. cbn [fst snd].
  unfold laneAt. rewrite HL. cbn [default from_option id]. rewrite Hg. reflexivity.
Qed.

(** [coilOn] on a listed lane: gated, or one pulse. *)
Definition pulsed (i : nat) (T : Z) (L : Lane) (e : Engine) : Engine :=
  with_lastAnyPulseAt (u32 T)
    (with_lanes (alter (fire (u32 T)) i (lanes e))
       (with_trace (Energize i (pol L) T :: trace e) e)).

Lemma coilOn_spec i w L :
  lanes (eng w) !! i = Some L ->
  snd (coilOn i w)
  = {| eng := if sdiff (u32 (clock (clk w))) (nextFree L) <? 0 then eng w
              else pulsed i (clock (clk w)) L (eng w);
       clk := S (clk w); rnd := rnd w |}.
Proof.
  intros HL. unfold coilOn, bind, get, reading. cbn [fst snd eng].
  rewrite HL. destruct (sdiff _ _ <? 0); reflexivity.
Qed.

Lemma scheduleNext_spec i now w :
  snd (scheduleNext i now w)
  = {| eng := with_lanes
         (alter (fun L =>
                   if i32 (u32 (periodMs (laneAt (eng w) i) * 4)) <? sdiff now (nextDue L)
                   then set_nextDue (u32 (now + periodMs (laneAt (eng w) i) + jitterDraw w)) L
                   else set_nextDue (u32 (nextDue L + periodMs (laneAt (eng w) i) + jitterDraw w)) L)
                i (lanes (eng w))) (eng w);
       clk := clk w;
       rnd := if 0 <? JITTER_MS cfg then S (rnd w) else rnd w |}.
Proof.
  unfold scheduleNext, jitter, jitterDraw, bind, get.
  destruct (0 <? JITTER_MS cfg); reflexivity.
Qed.

Lemma autoBody_open i now w L :
  lanes (eng w) !! i = Some L -> passed now (nextFree L) = true ->
  let T := clock (clk w) in
  let fired := negb (sdiff (u32 T) (nextFree L) <? 0) in
  let L1 := if fired then fire (u32 T) L else L in
  let w1 := snd (coilOn i w) in
  let L2 := set_nextDue (nextDueAfter now (jitterDraw w1) L1) L1 in
  let w' := snd (autoBody i now w) in
  lanes (eng w') !! i = Some L2
  /\ trace (eng w') = (if fired then [Energize i (pol L) T] else []) ++ trace (eng w)
  /\ fst (autoBody i now w) = passed now (nextDue L2).
Proof.
  intros HL Hg T fired L1 w1 L2 w'.
  assert (HL1 : lanes (eng w1) !! i = Some L1).
  { subst w1 L1 fired. rewrite (coilOn_spec i w L HL). cbn [eng]. fold T.
    destruct (sdiff (u32 T) (nextFree L) <? 0); simpl; [exact HL|].
    rewrite list_lookup_alter_eq, HL. reflexivity. }
  assert (Hw' : autoBody i now w
                = (passed now (nextDue (laneAt (eng (snd (scheduleNext i now w1))) i)),
                   snd (scheduleNext i now w1))).
  { unfold autoBody, bind, get. cbn [fst snd].
    unfold laneAt at 1. rewrite HL. cbn [default from_option id]. rewrite Hg.
    reflexivity. }
  assert (HL2 : lanes (eng (snd (scheduleNext i now w1))) !! i = Some L2).
  { rewrite scheduleNext_spec. cbn [eng lanes with_lanes].
    rewrite list_lookup_alter_eq, HL1. cbn [fmap option_fmap option_map].
    unfold laneAt. rewrite HL1. cbn [default from_option id].
    subst L2. unfold nextDueAfter.
    destruct (i32 (u32 (periodMs L1 * 4)) <? sdiff now (nextDue L1)); reflexivity. }
  subst w'. rewrite Hw'. cbn [fst snd]. split; [exact HL2|]. split.
  - rewrite scheduleNext_spec. cbn [eng trace with_lanes].
    subst w1 fired. rewrite (coilOn_spec i w L HL). cbn [eng]. fold T.
    destruct (sdiff (u32 T) (nextFree L) <? 0); reflexivity.
  - unfold laneAt. rewrite HL2. reflexivity.
Qed.

Lemma jitterDraw_bound w :
  (0 < JITTER_MS cfg < 2 ^ 15 -> - JITTER_MS cfg <= jitterDraw w <= JITTER_MS cfg)
  /\ (JITTER_MS cfg <= 0 -> jitterDraw w = 0).
Proof.
  unfold jitterDraw. split; intros H.
  - destruct (Z.ltb_spec 0 (JITTER_MS cfg)) as [_|?]; [|lia].
    rewrite (u32_small (_ - _ + 1)) by lia.
    pose proof (Z.mod_pos_bound (u32 (entropy (rnd w))) (JITTER_MS cfg - - JITTER_MS cfg + 1)).
    rewrite i32_small; lia.
  - destruct (Z.ltb_spec 0 (JITTER_MS cfg)) as [?|_]; [lia | reflexivity].
Qed.

Lemma autoLoop_unfold fuel i now w :
  passed now (nextDue (laneAt (eng w) i)) = true ->
  autoLoop (S fuel) i now w
  = if fst (autoBody i now w) then autoLoop fuel i now (snd (autoBody i now w))
    else Some (tt, snd (autoBody i now w)).
Proof.
  intros H. cbn [autoLoop]. unfold bindL, lift, get at 1. rewrite H.
  destruct (autoBody i now w) as [[|] w1]; reflexivity.
Qed.

(** *** Picking two distinct lanes out of one *)

Lemma rng_0_0 w : fst (rng 0 0 w) = 0.
Proof.
  unfold rng, bind, ret. cbn [fst snd].
  change (u32 (0 - 0 + 1)) with 1. rewrite Z.mod_1_r. reflexivity.
Qed.

Lemma pickOther_single fuel : forall w, pickOther fuel 1 0 w = None.
Proof.
  induction fuel as [|fuel IH]; intros w; [reflexivity|].
  cbn [pickOther]. unfold bindL, lift.
  destruct (rng (0) (1 - 1) w) as [x w1] eqn:E.
  assert (x = 0) by (rewrite <- (rng_0_0 w); change (1 - 1) with 0 in E; rewrite E; reflexivity).
  subst x. cbn. apply IH.
Qed.

Lemma startCounterbalance_single fuel w :
  NLANES (eng w) = 1%nat -> startCounterbalance fuel w = None.
Proof.
  intros Hn. unfold startCounterbalance, bindL, lift, get. cbn [fst snd].
  rewrite Hn. change (Z.of_nat 1) with 1.
  destruct (rng 0 (1 - 1) w) as [x w1] eqn:E.
  assert (x = 0) by (rewrite <- (rng_0_0 w); change (1 - 1) with 0 in E; rewrite E; reflexivity).
  subst x. rewrite pickOther_single. reflexivity.
Qed.

Lemma startPhaseSnap_single fuel w :
  NLANES (eng w) = 1%nat -> startPhaseSnap fuel w = None.
Proof.
  intros Hn. unfold startPhaseSnap, bindL, lift, get. cbn [fst snd].
  rewrite Hn. change (Z.of_nat 1) with 1.
  destruct (rng 0 (1 - 1) w) as [x w1] eqn:E.
  assert (x = 0) by (rewrite <- (rng_0_0 w); change (1 - 1) with 0 in E; rewrite E; reflexivity).
  subst x. rewrite pickOther_single. reflexivity.
Qed.

Lemma pickTwoDistinct_single w :
  (NLANES (eng w) < 2)%nat -> pickTwoDistinct w = (None, w).
Proof.
  intros Hn. unfold pickTwoDistinct, bind, get. cbn [fst snd].
  destruct (Z.ltb_spec (Z.of_nat (NLANES (eng w))) 2) as [_|?]; [reflexivity | lia].
Qed.

(** A storm tick with fewer than two lanes: one burst, granted to
    [LANES[0]]. *)
Lemma handleEmailStorm_single now w :
  (NLANES (eng w) < 2)%nat ->
  passed now (stormEnd (storm (eng w))) = false ->
  passed now (nextStormTick (storm (eng w))) = true ->
  lanes (eng (snd (handleEmailStorm now w)))
  = alter (set_burstRemain (fst (burstPulses w))) 0%nat (lanes (eng w)).
Proof.
  intros Hn He Ht. unfold handleEmailStorm, bind, get. cbn [fst snd].
  rewrite He, Ht. unfold when, bind. rewrite (pickTwoDistinct_single w Hn).
  reflexivity.
Qed.

(** *** Sync-lock *)

(** The release loops: lane [j] is prepared and relaunched from its own
    clock reading and random word. *)
Definition relaunched (prep : Lane -> Lane) (hi : nat -> Z) (w : World)
    (s j : nat) (L : Lane) : Lane :=
  set_nextDue
    (u32 (u32 (clock (clk w + (j - s))) + periodMs (prep L)
          + i32 (0 + u32 (entropy (rnd w + (j - s))) mod u32 (hi j - 0 + 1))))
    (prep L).

Lemma relaunch_loop prep hi k : forall s w,
  snd (forEach (seq s k) (fun i => relaunch prep (hi i) i) w)
  = {| eng := with_lanes
        (imap (fun j L => if bool_decide (s <= j < s + k)%nat
                          then relaunched prep hi w s j L else L)
              (lanes (eng w))) (eng w);
       clk := (clk w + k)%nat; rnd := (rnd w + k)%nat |}.
Proof.
  induction k as [|k IH]; intros s w; simpl.
  - destruct w as [e c r]; simpl.
    replace (c + 0)%nat with c by lia. replace (r + 0)%nat with r by lia.
    symmetry. apply world_eq.
    apply list_eq. intros j. rewrite list_lookup_imap.
    destruct (lanes e !! j); simpl; [|reflexivity].
    rewrite bool_decide_eq_false_2 by lia. reflexivity.
  - unfold bind at 1. rewrite IH.
    destruct w as [e c r]; simpl. unfold with_lanes; simpl.
    f_equal; [|lia|lia]. f_equal.
    apply list_eq. intros j. rewrite !list_lookup_imap.
    destruct (decide (s = j)) as [<-|Hne].
    + rewrite list_lookup_alter_eq. destruct (lanes e !! s) as [L|] eqn:E; simpl; [|reflexivity].
      rewrite bool_decide_eq_false_2 by lia. rewrite bool_decide_eq_true_2 by lia.
      unfold relaunched. simpl. rewrite Nat.sub_diag, !Nat.add_0_r. reflexivity.
    + rewrite list_lookup_alter_ne by exact Hne.
      destruct (lanes e !! j) as [L|]; simpl; [|reflexivity].
      destruct (decide (S s <= j < S s + k)%nat).
      * rewrite !bool_decide_eq_true_2 by lia. unfold relaunched. simpl.
        replace (S (c + (j - S s)))%nat with (c + (j - s))%nat by lia.
        replace (S (r + (j - S s)))%nat with (r + (j - s))%nat by lia. reflexivity.
      * rewrite !bool_decide_eq_false_2 by lia. reflexivity.
Qed.

Definition syncRelease (L : Lane) : Lane :=
  set_nudgeUntil 0 (set_nudgeMul F32.one (set_baseHz (savedHz L) L)).

Lemma endSyncLock_lanes w :
  lanes (eng (snd (endSyncLock w)))
  = imap (fun j L => relaunched syncRelease (fun _ => 120) w 0 j L) (lanes (eng w)).
Proof.
  unfold endSyncLock, forLanes, bind, get. cbn [fst snd].
  change (fun i : nat => relaunch _ 120 i)
    with (fun i : nat => relaunch syncRelease ((fun _ => 120) i) i).
  rewrite relaunch_loop. cbn.
  apply list_eq. intros j. rewrite !list_lookup_imap.
  destruct (lanes (eng w) !! j) as [L|] eqn:E; simpl; [|reflexivity].
  assert (j < NLANES (eng w))%nat by (eapply lookup_lt_Some, E).
  rewrite bool_decide_eq_true_2 by lia. reflexivity.
Qed.

Lemma bindL_inv {A B} (m : Loop A) (k : A -> Loop B) w r :
  bindL m k w = Some r -> exists a w1, m w = Some (a, w1) /\ k a w1 = Some r.
Proof.
  unfold bindL. destruct (m w) as [[a w1]|]; [|discriminate].
  intros H. exists a, w1. auto.
Qed.

Lemma lift_inv {A} (m : St A) w a w' :
  lift m w = Some (a, w') -> a = fst (m w) /\ w' = snd (m w).
Proof. unfold lift. intros [= E]. rewrite E. auto. Qed.

(** During the hold every lane runs at the sync tempo with no nudge and
    remembers its own tempo in [savedHz]; [orig] lists those tempos. *)
Definition holdLane (orig : list float) (i : nat) (L : Lane) : Prop :=
  baseHz L = syncHz /\ nudgeMul L = F32.one /\ orig !! i = Some (savedHz L).

Definition holdFrame (orig : list float) : Frame :=
  {| fr_len := length orig; fr_lane := holdLane orig;
     fr_trace := fun _ => True; fr_mode := fun m => m = MODE_SYNC_LOCK;
     fr_clk := fun _ => True |}.

Definition releasedLane (orig : list float) (i : nat) (L : Lane) : Prop :=
  orig !! i = Some (baseHz L).

Definition releasedFrame (orig : list float) : Frame :=
  {| fr_len := length orig; fr_lane := releasedLane orig;
     fr_trace := fun _ => True; fr_mode := fun m => m = MODE_NORMAL;
     fr_clk := fun _ => True |}.

Ltac hold_side :=
  first
    [ exact I
    | intros ? ?; exact I
    | intros ? ? ?; exact I
    | intros ? ? ?HQ; unfold holdFrame, releasedFrame in *; lane_cbn;
      unfold holdLane, releasedLane in *; repeat case_match; lane_cbn; tauto
    | intros ? ?HQ; unfold holdFrame, releasedFrame in *; lane_cbn;
      unfold holdLane, releasedLane in *; repeat case_match; lane_cbn; tauto ].

Lemma watchdog_hold orig now :
  preserves (holds (holdFrame orig)) (watchdog now)
  /\ preserves (holds (releasedFrame orig)) (watchdog now).
Proof. split; frame hold_side. Qed.

Lemma scheduler_hold orig fuel now n :
  preservesL (holds (holdFrame orig)) (forEachL (seq 0 n) (scheduleLane fuel now))
  /\ preservesL (holds (releasedFrame orig)) (forEachL (seq 0 n) (scheduleLane fuel now)).
Proof. split; frameL hold_side. Qed.

Lemma startSyncLock_hold w :
  (sdiff (u32 (clock (clk w))) (lastSyncEnd (eng w)) <? i32 (SYNC_COOLDOWN_MS cfg)) = false ->
  holds (holdFrame (baseHz <$> lanes (eng w))) (snd (startSyncLock w)).
Proof.
  intros Hg. unfold startSyncLock, bind, get. cbn [fst snd millis reading bind ret eng].
  rewrite Hg. unfold clearTransientsAll, mapLanes, setMode, modify, bind, millis, reading, ret.
  cbn [fst snd eng clk rnd]. split; [|exact I].
  split; [|split; [|split; [exact I | reflexivity]]];
    cbn [eng lanes with_lanes with_mode with_modeEndsAt mode].
  - unfold holdFrame. cbn [fr_len]. rewrite !length_fmap. reflexivity.
  - intros i L. rewrite !list_lookup_fmap.
    destruct (lanes (eng w) !! i) as [L0|] eqn:E; [|discriminate].
    cbn. intros [= <-]. unfold holdFrame, holdLane. lane_cbn.
    rewrite list_lookup_fmap, E. repeat split.
Qed.

Lemma endSyncLock_released orig w :
  holds (holdFrame orig) w -> holds (releasedFrame orig) (snd (endSyncLock w)).
Proof.
  intros [(Hlen & Hq & _ & _) _]. split; [|exact I]. split; [|split; [|split]].
  - rewrite endSyncLock_lanes, length_imap. exact Hlen.
  - intros i L. rewrite endSyncLock_lanes, list_lookup_imap.
    destruct (lanes (eng w) !! i) as [L0|] eqn:E; [|discriminate].
    cbn. intros [= <-]. destruct (Hq i L0 E) as (_ & _ & Hs).
    unfold releasedFrame, releasedLane, relaunched, syncRelease. lane_cbn. exact Hs.
  - exact I.
  - reflexivity.
Qed.

(** One pass through [loop] during the hold: the hold goes on, or this
    pass released it and every lane has its own tempo back. *)
Lemma sync_hold_step orig fuel w u w' :
  holds (holdFrame orig) w -> loop fuel w = Some (u, w') ->
  holds (holdFrame orig) w' \/ holds (releasedFrame orig) w'.
Proof.
  intros Hw E. unfold loop in E.
  apply bindL_inv in E as (now & w1 & E1 & E).
  apply bindL_inv in E as (u2 & w2 & E2 & E).
  apply bindL_inv in E as (u3 & w3 & E3 & E).
  apply bindL_inv in E as (u4 & w4 & E4 & E).
  apply bindL_inv in E as (e5 & w5 & E5 & E).
  assert (H1 : holds (holdFrame orig) w1).
  { eapply (preservesL_lift _ millis); [|exact Hw|exact E1].
    apply preserves_millis, holds_cursor_closed. intros ? ?; exact I. }
  assert (Hm1 : mode (eng w1) = MODE_SYNC_LOCK) by apply H1.
  rewrite considerEffect_busy in E2 by (rewrite Hm1; discriminate).
  injection E2 as _ <-.
  apply lift_inv in E3 as [_ ->]. apply lift_inv in E4 as [_ ->].
  apply lift_inv in E5 as [-> ->]. cbn [get fst snd] in E.
  unfold handleMode, bind, get in E. cbn [fst snd] in E. rewrite Hm1 in E.
  destruct (passed now (modeEndsAt (eng w1))); cbn [when] in E.
  - right. eapply (proj2 (scheduler_hold orig fuel now _)); [|exact E].
    apply (proj2 (watchdog_hold orig now)), endSyncLock_released, H1.
  - left. eapply (proj1 (scheduler_hold orig fuel now _)); [|exact E].
    apply (proj1 (watchdog_hold orig now)), H1.
Qed.

Lemma released_baseHz orig w :
  holds (releasedFrame orig) w -> baseHz <$> lanes (eng w) = orig.
Proof.
  intros [(Hlen & Hq & _) _]. cbn [fr_len fr_lane releasedFrame] in *.
  apply list_eq_same_length with (length orig); [reflexivity | rewrite length_fmap; exact Hlen |].
  intros i x y Hi Hx Hy. rewrite list_lookup_fmap in Hx.
  destruct (lanes (eng w) !! i) as [L|] eqn:E; [|discriminate].
  injection Hx as <-. specialize (Hq i L E). unfold releasedLane in Hq. congruence.
Qed.


(** ** Further properties of the sketch *)

(** *** Bounded random integers *)

Definition drawn (w : World) : World :=
  {| eng := eng w; clk := clk w; rnd := S (rnd w) |}.

Lemma rng_world lo hi w : snd (rng lo hi w) = drawn w.
Proof. reflexivity. Qed.

Lemma rng_bounds lo hi w :
  - 2 ^ 31 <= lo -> lo <= hi -> hi < 2 ^ 31 -> hi - lo < 2 ^ 31 - 1 ->
  lo <= fst (rng lo hi w) <= hi.
Proof.
  intros Hlo Hle Hhi Hspan. unfold rng, bind, esp_random, ret. cbn [fst snd].
  rewrite (u32_small (hi - lo + 1)) by lia.
  pose proof (Z.mod_pos_bound (u32 (entropy (rnd w))) (hi - lo + 1)).
  rewrite i32_small; lia.
Qed.

(** X1.  [rng(lo, hi)] with [lo <= hi] and a span that fits [int]
    returns a value in [[lo, hi]], takes exactly one random word and
    touches neither the engine nor the clock. *)
Theorem rng_in_range lo hi w :
  - 2 ^ 31 <= lo -> lo <= hi -> hi < 2 ^ 31 -> hi - lo < 2 ^ 31 - 1 ->
  lo <= fst (rng lo hi w) <= hi
  /\ snd (rng lo hi w) = {| eng := eng w; clk := clk w; rnd := S (rnd w) |}.
Proof.
  intros Hlo Hle Hhi Hspan. split; [apply rng_bounds; assumption | reflexivity].
Qed.

Lemma random_bounds lo hi w : lo < hi -> lo <= fst (random lo hi w) < hi.
Proof.
  intros H. unfold random. destruct (Z.leb_spec hi lo) as [?|_]; [lia|].
  unfold bind, esp_random, ret. cbn [fst snd].
  pose proof (Z.mod_pos_bound (u32 (entropy (rnd w))) (hi - lo)). lia.
Qed.

Lemma random_eng lo hi w : eng (snd (random lo hi w)) = eng w.
Proof. unfold random. destruct (hi <=? lo); reflexivity. Qed.

Lemma pickTwoDistinct_some w :
  (2 <= NLANES (eng w))%nat ->
  exists i j,
    fst (pickTwoDistinct w) = Some (i, j)
    /\ 0 <= i < Z.of_nat (NLANES (eng w))
    /\ 0 <= j < Z.of_nat (NLANES (eng w))
    /\ i <> j
    /\ eng (snd (pickTwoDistinct w)) = eng w.
Proof.
  intros Hn. set (n := Z.of_nat (NLANES (eng w))). assert (2 <= n) by lia.
  unfold pickTwoDistinct, bind, get. cbn [fst snd]. fold n.
  destruct (Z.ltb_spec n 2) as [?|_]; [lia|].
  set (w1 := snd (random 0 n w)). set (i := fst (random 0 n w)).
  set (r := fst (random 0 (n - 1) w1)).
  assert (Hi : 0 <= i < n) by (apply random_bounds; lia).
  assert (Hr : 0 <= r < n - 1) by (apply random_bounds; lia).
  exists i, (crem (i + 1 + r) n). cbn [ret fst snd].
  assert (Hj : crem (i + 1 + r) n = (i + 1 + r) mod n).
  { unfold crem. apply Z.rem_mod_nonneg; lia. }
  pose proof (Z.mod_pos_bound (i + 1 + r) n ltac:(lia)).
  pose proof (Z.div_mod (i + 1 + r) n ltac:(lia)).
  split; [reflexivity|]. split; [exact Hi|]. split; [lia|]. split.
  - rewrite Hj. intros Heq.
    assert (n * ((i + 1 + r) / n) = 1 + r) by lia.
    assert (0 < (i + 1 + r) / n) by nia. nia.
  - subst w1. rewrite !random_eng. reflexivity.
Qed.

(** X2.  With two lanes or more, [pickTwoDistinct] returns [true] with
    two valid lane indices that differ, and leaves the engine alone. *)
Theorem pickTwoDistinct_distinct w :
  (2 <= NLANES (eng w))%nat ->
  exists i j,
    fst (pickTwoDistinct w) = Some (i, j)
    /\ 0 <= i < Z.of_nat (NLANES (eng w))
    /\ 0 <= j < Z.of_nat (NLANES (eng w))
    /\ i <> j
    /\ eng (snd (pickTwoDistinct w)) = eng w.
Proof. exact (pickTwoDistinct_some w). Qed.


(** *** The do-while pick and Counterbalance *)

Lemma pickOther_inv fuel n avoid : forall w x w',
  pickOther fuel n avoid w = Some (x, w') ->
  eng w' = eng w /\ clk w' = clk w /\ x <> avoid
  /\ (1 <= n < 2 ^ 31 -> 0 <= x < n).
Proof.
  induction fuel as [|fuel IH]; intros w x w' E; [discriminate|].
  cbn [pickOther] in E. unfold bindL, lift in E.
  destruct (rng 0 (n - 1) w) as [y w1] eqn:Er.
  assert (Hw1 : w1 = drawn w) by (rewrite <- (rng_world 0 (n - 1) w), Er; reflexivity).
  assert (Hy : 1 <= n < 2 ^ 31 -> 0 <= y < n).
  { intros Hn. pose proof (rng_bounds 0 (n - 1) w) as B. rewrite Er in B.
    cbn [fst] in B. lia. }
  destruct (Z.eqb_spec y avoid) as [->|Hne].
  - destruct (IH w1 x w' E) as (He & Hc & Hx & Hr). subst w1.
    repeat split; auto; lia.
  - unfold ret in E. injection E as Hx Hw. subst x w' w1.
    repeat split; auto; lia.
Qed.

(** X3.  When [startCounterbalance] returns (two lanes or more), the
    lane sped up and the lane slowed down are valid indices that differ,
    the ramp window is [COUNTERBAL_DUR_MS] long, the mode is
    Counterbalance, and nothing was sent to the actuator. *)
Theorem startCounterbalance_picks_two fuel w u w' :
  (2 <= NLANES (eng w))%nat -> Z.of_nat (NLANES (eng w)) < 2 ^ 31 ->
  startCounterbalance fuel w = Some (u, w') ->
  let c := cb (eng w') in
  0 <= cbUp c < Z.of_nat (NLANES (eng w))
  /\ 0 <= cbDown c < Z.of_nat (NLANES (eng w))
  /\ cbUp c <> cbDown c
  /\ cbEnd c = u32 (cbStart c + COUNTERBAL_DUR_MS cfg)
  /\ mode (eng w') = MODE_COUNTERBAL
  /\ trace (eng w') = trace (eng w).
Proof.
  intros Hn Hlt E. unfold startCounterbalance in E.
  apply bindL_inv in E as (e & w0 & E0 & E). apply lift_inv in E0 as [-> ->].
  cbn [get fst snd] in E.
  apply bindL_inv in E as (up & w1 & E1 & E). apply lift_inv in E1 as [-> ->].
  apply bindL_inv in E as (down & w2 & E2 & E).
  apply pickOther_inv in E2 as (He & _ & Hne & Hr).
  apply lift_inv in E as [_ ->].
  pose proof (rng_bounds 0 (Z.of_nat (NLANES (eng w)) - 1) w
                ltac:(lia) ltac:(lia) ltac:(lia) ltac:(lia)) as Hup.
  rewrite rng_world in He. cbn [eng drawn] in He.
  remember (fst (rng 0 (Z.of_nat (NLANES (eng w)) - 1) w)) as up eqn:Eup. clear Eup.
  cbv [bind millis reading modify mapLanes setMode ret rng esp_random].
  cbn [fst snd eng cb with_cb with_lanes with_mode cbUp cbDown cbStart cbEnd mode trace].
  rewrite He. repeat split; try lia; congruence.
Qed.


(** *** Phase snap *)

(** What a completed snap leaves of the follower: its own tempo is back
    (and remembered in [savedHz]); its due time is the reference's. *)
Definition snapped (Lref : Lane) (L : Lane) : Lane :=
  set_nextDue (nextDue Lref) (set_savedHz (baseHz L) L).

Lemma laneAt_alter_ne e f i j :
  i <> j -> laneAt (with_lanes (alter f i (lanes e)) e) j = laneAt e j.
Proof.
  intros H. unfold laneAt. cbn [lanes with_lanes].
  rewrite list_lookup_alter_ne by exact H. reflexivity.
Qed.

Definition snapInstall (r f : nat) : St unit :=
  updLane f (fun L => set_savedHz (baseHz L) L) ;; follow r f.

Definition snapRelease (r f : nat) : St unit :=
  follow r f ;; updLane f (fun L => set_baseHz (savedHz L) L).

Lemma follow_lanes (r f : nat) (Lref : Lane) w :
  r <> f -> lanes (eng w) !! r = Some Lref ->
  lanes (eng (snd (follow r f w)))
  = alter (fun L => set_nextDue (nextDue Lref) (set_baseHz (baseHz Lref) L)) f (lanes (eng w)).
Proof.
  intros Hne HL. destruct w as [e c k]. cbn [eng] in HL.
  cbv [follow bind get updLane modify fst snd eng].
  rewrite laneAt_alter_ne by congruence. cbn [lanes with_lanes].
  unfold laneAt. rewrite HL. cbn [default from_option id].
  apply list_alter_alter_eq.
Qed.

Definition installed (Lref : Lane) (L : Lane) : Lane :=
  set_nextDue (nextDue Lref) (set_baseHz (baseHz Lref) (set_savedHz (baseHz L) L)).

Lemma snapInstall_lanes (r f : nat) (Lref : Lane) w :
  r <> f -> lanes (eng w) !! r = Some Lref ->
  lanes (eng (snd (snapInstall r f w))) = alter (installed Lref) f (lanes (eng w)).
Proof.
  intros Hne HL. unfold snapInstall, bind. cbn [fst snd].
  rewrite (follow_lanes r f Lref).
  - destruct w as [e c k]. cbn. apply list_alter_alter_eq.
  - exact Hne.
  - destruct w as [e c k]. cbn. rewrite list_lookup_alter_ne by congruence. exact HL.
Qed.

Lemma snapRelease_lanes (r f : nat) (Lref : Lane) (l : list Lane) w1 :
  r <> f -> l !! r = Some Lref ->
  lanes (eng w1) = alter (installed Lref) f l ->
  lanes (eng (snd (snapRelease r f w1))) = alter (snapped Lref) f l.
Proof.
  intros Hne HL H1. unfold snapRelease, bind. cbn [fst snd].
  assert (H2 := follow_lanes r f Lref w1 Hne).
  rewrite H1, list_lookup_alter_ne in H2 by congruence. specialize (H2 HL).
  destruct (follow r f w1) as [u [e2 c2 k2]]. cbn [snd eng] in *.
  cbv [updLane modify snd eng]. cbn [lanes with_lanes]. rewrite H2.
  rewrite !list_alter_alter_eq.
  apply list_alter_ext; [|reflexivity]. intros L _. destruct L; reflexivity.
Qed.

Lemma baseHz_alter_snapped Lref f (l : list Lane) :
  baseHz <$> alter (snapped Lref) f l = baseHz <$> l.
Proof.
  apply list_eq. intros i. rewrite !list_lookup_fmap.
  destruct (decide (f = i)) as [->|Hne].
  - rewrite list_lookup_alter_eq. destruct (l !! i); reflexivity.
  - rewrite list_lookup_alter_ne by exact Hne. reflexivity.
Qed.

(** X4.  Phase Snap is a round trip on [baseHz] but not on [nextDue]:
    when [startPhaseSnap] returns, reference and follower are valid lane
    indices that differ; if the release ([handlePhaseSnap] past
    [snapEnd]) comes next, every lane has its tempo from before the
    snap, the mode is Normal, and the only lane changed is the follower,
    which keeps the reference's due time. *)
Theorem phase_snap_round_trip fuel w u w1 now :
  (2 <= NLANES (eng w))%nat -> Z.of_nat (NLANES (eng w)) < 2 ^ 31 ->
  startPhaseSnap fuel w = Some (u, w1) ->
  passed now (snapEnd (snap (eng w1))) = true ->
  let s := snap (eng w1) in
  let w2 := snd (handlePhaseSnap now w1) in
  0 <= snapRef s < Z.of_nat (NLANES (eng w))
  /\ 0 <= snapFol s < Z.of_nat (NLANES (eng w))
  /\ snapRef s <> snapFol s
  /\ (exists Lref, lanes (eng w) !! Z.to_nat (snapRef s) = Some Lref
        /\ lanes (eng w2) = alter (snapped Lref) (Z.to_nat (snapFol s)) (lanes (eng w)))
  /\ baseHz <$> lanes (eng w2) = baseHz <$> lanes (eng w)
  /\ mode (eng w2) = MODE_NORMAL.
Proof.
  intros Hn Hlt E Hp. unfold startPhaseSnap in E.
  apply bindL_inv in E as (e & w0 & E0 & E). apply lift_inv in E0 as [-> ->].
  cbn [get fst snd] in E.
  apply bindL_inv in E as (ref & wr & E1 & E). apply lift_inv in E1 as [-> ->].
  apply bindL_inv in E as (fol & wf & E2 & E).
  apply pickOther_inv in E2 as (He & _ & Hne & Hr).
  rewrite rng_world in He. cbn [eng drawn] in He.
  pose proof (rng_bounds 0 (Z.of_nat (NLANES (eng w)) - 1) w
                ltac:(lia) ltac:(lia) ltac:(lia) ltac:(lia)) as Href.
  remember (fst (rng 0 (Z.of_nat (NLANES (eng w)) - 1) w)) as ref eqn:Eref. clear Eref.
  specialize (Hr ltac:(lia)).
  apply lift_inv in E as [_ ->].
  set (r := Z.to_nat ref) in *. set (f := Z.to_nat fol) in *.
  assert (Hrf : r <> f) by (subst r f; lia).
  destruct (lookup_lt_is_Some_2 (lanes (eng w)) r) as [Lref HL].
  { unfold NLANES in *. subst r. lia. }
  assert (HL' : lanes (eng wf) !! r = Some Lref) by (rewrite He; exact HL).
  match goal with |- context [handlePhaseSnap now ?x] => set (w1 := x) in * end.
  assert (Hs : snap (eng w1) = {| snapRef := ref; snapFol := fol;
                                  snapEnd := u32 (u32 (clock (clk wf)) + 4000) |}).
  { subst w1. cbv [bind millis reading modify setMode ret updLane follow get].
    cbn [fst snd eng snap with_snap with_mode with_lanes clk]. reflexivity. }
  assert (H1 : lanes (eng w1) = alter (installed Lref) f (lanes (eng w))).
  { rewrite <- He, <- (snapInstall_lanes r f Lref wf Hrf HL'). reflexivity. }
  intros s w2. subst s.
  rewrite Hs in Hp |- *. cbn [snapRef snapFol snapEnd] in Hp |- *. fold r f.
  assert (Hw2 : w2 = snd (setMode MODE_NORMAL (snd (snapRelease r f w1)))).
  { subst w2. unfold handlePhaseSnap, bind, get. cbn [fst snd].
    rewrite Hs. cbn [snapRef snapFol snapEnd]. fold r f. rewrite Hp. reflexivity. }
  assert (H2 : lanes (eng w2) = alter (snapped Lref) f (lanes (eng w))).
  { rewrite Hw2. cbn [setMode modify snd eng lanes with_mode].
    apply (snapRelease_lanes r f Lref (lanes (eng w)) w1 Hrf HL H1). }
  split; [lia|]. split; [lia|]. split; [congruence|].
  split; [exists Lref; split; [exact HL | exact H2]|].
  split; [rewrite H2; apply baseHz_alter_snapped|].
  rewrite Hw2. reflexivity.
Qed.


(** *** Scope creep *)

(** X5.  Scope Creep is a round trip on [baseHz]: whatever happened to
    the lanes' tempos since [startScopeCreep] recorded them, the
    [handleScopeCreep] call past [scopeEnd] writes the recorded baseline
    back into every lane, changes no other lane field, and returns the
    mode to Normal. *)
Theorem scope_creep_round_trip w w2 now :
  scope (eng w2) = scope (eng (snd (startScopeCreep w))) ->
  length (lanes (eng w2)) = length (lanes (eng w)) ->
  passed now (scopeEnd (scope (eng w2))) = true ->
  let w3 := snd (handleScopeCreep now w2) in
  lanes (eng w3) = imap (fun i L => set_baseHz (hzAt (lanes (eng w)) i) L) (lanes (eng w2))
  /\ baseHz <$> lanes (eng w3) = baseHz <$> lanes (eng w)
  /\ mode (eng w3) = MODE_NORMAL.
Proof.
  intros Hs Hlen Hp w3.
  assert (Hstart : scopeStartHz (scope (eng w2)) = baseHz <$> lanes (eng w))
    by (rewrite Hs; reflexivity).
  assert (H3 : lanes (eng w3)
               = imap (fun i L => set_baseHz (hzAt (lanes (eng w)) i) L) (lanes (eng w2))).
  { subst w3. unfold handleScopeCreep, bind, get. cbn [fst snd]. rewrite Hp.
    cbv [when bind imapLanes setMode modify]. cbn [fst snd eng lanes with_lanes with_mode].
    apply list_eq. intros i. rewrite !list_lookup_imap.
    destruct (lanes (eng w2) !! i) as [L|] eqn:E; [|reflexivity].
    cbn [fmap option_fmap option_map]. f_equal. unfold set_baseHz; cbn. f_equal.
    rewrite Hstart, list_lookup_fmap. unfold hzAt.
    destruct (lanes (eng w) !! i) as [L0|] eqn:E0; [reflexivity|].
    apply lookup_lt_Some in E. apply lookup_ge_None in E0. lia. }
  split; [exact H3|]. split.
  - rewrite H3. apply list_eq. intros i.
    rewrite !list_lookup_fmap, list_lookup_imap.
    destruct (lanes (eng w2) !! i) as [L|] eqn:E.
    + destruct (lanes (eng w) !! i) as [L0|] eqn:E0.
      * cbn. unfold hzAt. rewrite E0. reflexivity.
      * apply lookup_lt_Some in E. apply lookup_ge_None in E0. lia.
    + destruct (lanes (eng w) !! i) as [L0|] eqn:E0; [|reflexivity].
      apply lookup_lt_Some in E0. apply lookup_ge_None in E. lia.
  - subst w3. unfold handleScopeCreep, bind, get. cbn [fst snd]. rewrite Hp. reflexivity.
Qed.

(** *** Ramps *)

(** The interpolation fraction never leaves [[0, 1]]: whatever the
    clock reading and the window, [progress] is neither below 0.0 nor
    above 1.0, so a ramp cannot overshoot its target. *)
Lemma progress_clamped now from to :
  F32.ltb (progress now from to) F32.zero = false
  /\ F32.ltb F32.one (progress now from to) = false.
Proof.
  unfold progress, F32.constrain.
  set (x := F32.div _ _).
  destruct (F32.ltb x F32.zero) eqn:E0; [split; vm_compute; reflexivity|].
  destruct (F32.ltb F32.one x) eqn:E1; [split; vm_compute; reflexivity|].
  split; assumption.
Qed.

(** X6.  At completion Accel, Decel and Counterbalance leave every
    lane's [nudgeMul] at exactly 1.0, write no other lane field, send
    nothing to the actuator and return the mode to Normal. *)
Theorem ramps_end_clean now w :
  (passed now (rampEnd (ramp (eng w))) = true ->
     lanes (eng (snd (handleAccelerando now w))) = set_nudgeMul F32.one <$> lanes (eng w)
     /\ lanes (eng (snd (handleDecelerando now w))) = set_nudgeMul F32.one <$> lanes (eng w)
     /\ mode (eng (snd (handleAccelerando now w))) = MODE_NORMAL
     /\ trace (eng (snd (handleAccelerando now w))) = trace (eng w))
  /\ (passed now (cbEnd (cb (eng w))) = true ->
        lanes (eng (snd (handleCounterbalance now w))) = set_nudgeMul F32.one <$> lanes (eng w)
        /\ mode (eng (snd (handleCounterbalance now w))) = MODE_NORMAL
        /\ trace (eng (snd (handleCounterbalance now w))) = trace (eng w)).
Proof.
  split; intros Hp.
  - unfold handleAccelerando, handleDecelerando, handleRamp, bind, get. cbn [fst snd].
    rewrite Hp. cbv [when bind mapLanes setMode modify].
    cbn [fst snd eng lanes with_lanes with_mode mode trace].
    rewrite <- list_fmap_compose. repeat split.
  - unfold handleCounterbalance, bind, get. cbn [fst snd].
    rewrite Hp. cbv [when bind mapLanes imapLanes setMode modify].
    cbn [fst snd eng lanes with_lanes with_mode mode trace].
    split; [|split; reflexivity].
    apply list_eq. intros i. rewrite !list_lookup_fmap, list_lookup_imap.
    destruct (lanes (eng w) !! i) as [L|]; [|reflexivity]. cbn.
    repeat case_match; reflexivity.
Qed.


(** *** Switching a pulse off *)

Lemma maybeCoilOff_idle i now w :
  coilOffAt (laneAt (eng w) i) = 0 -> maybeCoilOff i now w = (tt, w).
Proof.
  intros H. unfold maybeCoilOff, bind, get. cbn [fst snd]. rewrite H. reflexivity.
Qed.

(** X7.  [maybeCoilOff] reads [coilOffAt = 0] as "no pulse in progress".
    A pulse fired at a clock reading whose off-time [now + PULSE_ON_MS]
    wraps to exactly 0 therefore is never switched off by
    [maybeCoilOff], at whatever later time it is called: the call
    changes nothing. *)
Theorem pulse_ending_at_zero_stays_on i w L :
  lanes (eng w) !! i = Some L ->
  passed (u32 (clock (clk w))) (nextFree L) = true ->
  u32 (u32 (clock (clk w)) + PULSE_ON_MS cfg) = 0 ->
  let w1 := snd (coilOn i w) in
  trace (eng w1) = Energize i (pol L) (clock (clk w)) :: trace (eng w)
  /\ forall now, maybeCoilOff i now w1 = (tt, w1).
Proof.
  intros HL Hg Hz w1. subst w1. rewrite (coilOn_spec i w L HL).
  unfold passed in Hg. apply Z.leb_le in Hg.
  destruct (Z.ltb_spec (sdiff (u32 (clock (clk w))) (nextFree L)) 0) as [?|_]; [lia|].
  split; [reflexivity|]. intros now. apply maybeCoilOff_idle.
  unfold laneAt, pulsed. cbn [eng lanes with_lanes with_lastAnyPulseAt with_trace].
  rewrite list_lookup_alter_eq, HL. cbn [fmap option_fmap option_map default from_option id].
  unfold fire. lane_cbn. exact Hz.
Qed.

(** In general [maybeCoilOff] acts exactly when a pulse is in progress
    whose end has passed. *)
Lemma maybeCoilOff_eq i now w L :
  lanes (eng w) !! i = Some L ->
  maybeCoilOff i now w
  = if negb (coilOffAt L =? 0) && passed now (coilOffAt L)
    then (tt, {| eng := with_lanes (alter (set_coilOffAt 0) i (lanes (eng w)))
                          (with_trace (Deenergize i :: trace (eng w)) (eng w));
                 clk := clk w; rnd := rnd w |})
    else (tt, w).
Proof.
  intros HL. unfold maybeCoilOff, bind, get. cbn [fst snd].
  unfold laneAt. rewrite HL. cbn [default from_option id].
  destruct (negb (coilOffAt L =? 0) && passed now (coilOffAt L)); reflexivity.
Qed.


(** *** Setup *)

(** What [setupLane] leaves of lane [j], the [(j - s)]-th lane set up from
    world [w]. *)
Definition setUp (w : World) (s j : nat) (L : Lane) : Lane :=
  set_nextFree (u32 (clock (clk w + (j - s))))
    (set_nextDue
       (u32 (u32 (clock (clk w + (j - s)))
             + i32 (0 + u32 (entropy (rnd w + (j - s))) mod u32 (500 - 0 + 1))))
       L).

Lemma setup_loop k : forall s w,
  snd (forEach (seq s k) setupLane w)
  = {| eng := with_trace ((Deenergize <$> reverse (seq s k)) ++ trace (eng w))
        (with_lanes
           (imap (fun j L => if bool_decide (s <= j < s + k)%nat
                             then setUp w s j L else L)
                 (lanes (eng w))) (eng w));
       clk := (clk w + k)%nat; rnd := (rnd w + k)%nat |}.
Proof.
  induction k as [|k IH]; intros s w.
  - destruct w as [e c r]. cbn [seq forEach ret snd reverse fmap list_fmap app eng clk rnd].
    replace (c + 0)%nat with c by lia. replace (r + 0)%nat with r by lia.
    f_equal. destruct e. unfold with_trace, with_lanes. cbn. f_equal.
    apply list_eq. intros j. rewrite list_lookup_imap.
    destruct (_ !! j); cbn; [|reflexivity].
    rewrite bool_decide_eq_false_2 by lia. reflexivity.
  - cbn [seq forEach]. unfold bind at 1. rewrite IH.
    destruct w as [e c r].
    cbv [setupLane bind millis reading rng esp_random ret modify updLane].
    cbn [fst snd eng clk rnd lanes trace with_trace with_lanes].
    f_equal; [|lia|lia].
    destruct e. unfold with_trace, with_lanes.
    cbn [lanes trace mode beat lastSyncEnd modeEndsAt lastLongPauseEnd ramp cb storm scope
         snap cumW lastAnyPulseAt lastTry lastLivenessLog].
    f_equal.
    + apply list_eq. intros j. rewrite !list_lookup_imap.
      destruct (decide (s = j)) as [<-|Hne].
      * rewrite list_lookup_alter_eq. destruct (_ !! s) as [L|] eqn:E; cbn; [|reflexivity].
        rewrite bool_decide_eq_false_2 by lia. rewrite bool_decide_eq_true_2 by lia.
        unfold setUp. cbn [clk rnd]. rewrite Nat.sub_diag, !Nat.add_0_r. reflexivity.
      * rewrite list_lookup_alter_ne by exact Hne.
        destruct (_ !! j) as [L|]; cbn; [|reflexivity].
        destruct (decide (S s <= j < S s + k)%nat).
        -- rewrite !bool_decide_eq_true_2 by lia. unfold setUp. cbn [clk rnd].
           replace (S c + (j - S s))%nat with (c + (j - s))%nat by lia.
           replace (S r + (j - S s))%nat with (r + (j - s))%nat by lia. reflexivity.
        -- rewrite !bool_decide_eq_false_2 by lia. reflexivity.
    + rewrite reverse_cons, fmap_app, <- app_assoc. reflexivity.
Qed.


(** X8.  [setup] leaves every configured lane with its gate open at the
    lane's own clock reading and its first pulse due 0 to 500 ms after
    that reading, every driver disabled and never yet enabled, the
    cumulative weight table built and the liveness baseline at the last
    reading. *)
Theorem setup_arms_every_lane :
  let w := snd (setup boot) in
  let n := length (BASE_HZ cfg) in
  length (lanes (eng w)) = n
  /\ (forall i hz, BASE_HZ cfg !! i = Some hz ->
        exists r, 0 <= r <= 500
          /\ lanes (eng w) !! i
             = Some (set_nextFree (u32 (clock i))
                       (set_nextDue (u32 (u32 (clock i) + r)) (newLane hz))))
  /\ trace (eng w) = Deenergize <$> reverse (seq 0 n)
  /\ cumW (eng w) = cumTable WEIGHT_PTRS
  /\ lastAnyPulseAt (eng w) = u32 (clock n)
  /\ mode (eng w) = MODE_NORMAL.
Proof.
  intros w n.
  assert (Hw : w = snd ((buildWeights ;; t <- millis ;; modify (with_lastAnyPulseAt t))
                          (snd (forEach (seq 0 n) setupLane (drawn boot))))).
  { subst w n. unfold setup, forLanes. cbv [bind get esp_random].
    cbn [fst snd eng clk rnd boot]. unfold NLANES. cbn [lanes initEngine].
    rewrite length_fmap. reflexivity. }
  rewrite setup_loop in Hw.
  cbv [buildWeights bind millis reading ret modify] in Hw.
  cbn [fst snd eng clk rnd drawn boot] in Hw.
  rewrite Hw.
  cbn [eng lanes trace cumW lastAnyPulseAt mode with_lastAnyPulseAt with_cumW with_trace
       with_lanes initEngine].
  split; [rewrite length_imap, length_fmap; reflexivity|].
  split; [|split; [apply app_nil_r|repeat split]].
  intros i hz Hi.
  exists (fst (rng 0 500 {| eng := initEngine; clk := 0; rnd := S i |})).
  split; [apply rng_bounds; lia|].
  rewrite list_lookup_imap, list_lookup_fmap, Hi. cbn [fmap option_fmap option_map].
  assert (i < n)%nat by (eapply lookup_lt_Some, Hi).
  rewrite bool_decide_eq_true_2 by lia.
  unfold setUp. cbn [clk rnd]. rewrite Nat.sub_0_r. reflexivity.
Qed.


(** *** Liveness watchdog *)

(** The body of the watchdog's loop over the lanes. *)
Definition watchBody (now : Z) (i : nat) : St unit :=
  e <- get ;;
  when (running (laneAt e i))
    (r <- rng 0 100 ;;
     updLane i (fun L => set_nextDue (u32 (now + periodMs L + r)) L)).

(** A lane after the watchdog re-armed the schedules: a running lane is
    due one period and 0..100 ms after [now]; a stopped lane is as before. *)
Definition rearmed (now : Z) (L0 L : Lane) : Prop :=
  if running L0
  then exists r, 0 <= r <= 100 /\ L = set_nextDue (u32 (now + periodMs L0 + r)) L0
  else L = L0.

Lemma watchBody_spec now i w :
  snd (watchBody now i w)
  = if running (laneAt (eng w) i)
    then {| eng := with_lanes
              (alter (fun L => set_nextDue
                                 (u32 (now + periodMs L + fst (rng 0 100 w))) L)
                     i (lanes (eng w))) (eng w);
            clk := clk w; rnd := S (rnd w) |}
    else w.
Proof.
  unfold watchBody, bind, get. cbn [fst snd].
  destruct (running (laneAt (eng w) i)); reflexivity.
Qed.

Lemma watch_loop now k : forall s w,
  let w' := snd (forEach (seq s k) (watchBody now) w) in
  eng w' = with_lanes (lanes (eng w')) (eng w)
  /\ clk w' = clk w
  /\ length (lanes (eng w')) = length (lanes (eng w))
  /\ forall j L0, lanes (eng w) !! j = Some L0 ->
       exists L, lanes (eng w') !! j = Some L
         /\ if bool_decide (s <= j < s + k)%nat then rearmed now L0 L else L = L0.
Proof.
  induction k as [|k IH]; intros s w; cbn [seq forEach].
  - cbn [ret snd]. split; [destruct w as [[] ? ?]; reflexivity|].
    split; [reflexivity|]. split; [reflexivity|].
    intros j L0 H. exists L0. split; [exact H|].
    rewrite bool_decide_eq_false_2 by lia. reflexivity.
  - unfold bind. cbv beta zeta.
    set (w1 := snd (watchBody now s w)).
    destruct (IH (S s) w1) as (He & Hc & Hl & Hq). cbv zeta in He, Hc, Hl, Hq.
    assert (H1 : eng w1 = with_lanes (lanes (eng w1)) (eng w) /\ clk w1 = clk w
                 /\ length (lanes (eng w1)) = length (lanes (eng w))
                 /\ forall j L0, lanes (eng w) !! j = Some L0 ->
                      exists L, lanes (eng w1) !! j = Some L
                        /\ if bool_decide (j = s) then rearmed now L0 L else L = L0).
    { subst w1. rewrite watchBody_spec. unfold laneAt.
      destruct (lanes (eng w) !! s) as [Ls|] eqn:Es; cbn [default from_option id].
      - destruct (running Ls) eqn:Hr.
        + cbn [eng clk lanes with_lanes]. split; [reflexivity|]. split; [reflexivity|].
          split; [apply length_alter|].
          intros j L0 Hj. destruct (decide (j = s)) as [->|Hne].
          * rewrite list_lookup_alter_eq, Es. cbn. eexists. split; [reflexivity|].
            rewrite bool_decide_eq_true_2 by reflexivity.
            assert (L0 = Ls) by congruence. subst L0.
            unfold rearmed. rewrite Hr. eexists. split; [|reflexivity].
            apply rng_bounds; lia.
          * rewrite list_lookup_alter_ne by congruence. exists L0. split; [exact Hj|].
            rewrite bool_decide_eq_false_2 by exact Hne. reflexivity.
        + split; [destruct w as [[] ? ?]; reflexivity|]. split; [reflexivity|].
          split; [reflexivity|].
          intros j L0 Hj. exists L0. split; [exact Hj|].
          destruct (bool_decide_reflect (j = s)) as [->|_]; [|reflexivity].
          assert (L0 = Ls) by congruence. subst L0.
          unfold rearmed. rewrite Hr. reflexivity.
      - assert (Hnr : running (newLane F32.zero) = true) by reflexivity. rewrite Hnr.
        cbn [eng clk lanes with_lanes]. split; [reflexivity|]. split; [reflexivity|].
        split; [apply length_alter|].
        intros j L0 Hj. assert (j <> s) by congruence.
        rewrite list_lookup_alter_ne by congruence. exists L0. split; [exact Hj|].
        rewrite bool_decide_eq_false_2 by assumption. reflexivity. }
    destruct H1 as (He1 & Hc1 & Hl1 & Hq1).
    split; [rewrite He, He1; reflexivity|]. split; [rewrite Hc; exact Hc1|].
    split; [rewrite Hl; exact Hl1|].
    intros j L0 Hj. destruct (Hq1 j L0 Hj) as (L1 & HL1 & HR1).
    destruct (Hq j L1 HL1) as (L & HL & HR).
    exists L. split; [exact HL|].
    destruct (decide (j = s)) as [->|Hne].
    + rewrite bool_decide_eq_true_2 in HR1 by reflexivity.
      rewrite bool_decide_eq_false_2 in HR by lia. rewrite bool_decide_eq_true_2 by lia.
      subst L. exact HR1.
    + rewrite bool_decide_eq_false_2 in HR1 by exact Hne. subst L1.
      destruct (decide (S s <= j < S s + k)%nat).
      * rewrite bool_decide_eq_true_2 in HR by lia. rewrite bool_decide_eq_true_2 by lia.
        exact HR.
      * rewrite bool_decide_eq_false_2 in HR by lia. rewrite bool_decide_eq_false_2 by lia.
        exact HR.
Qed.


(** X9.  The watchdog acts only in Normal mode and only when the last
    pulse lies more than [LIVENESS_WARN_MS] back; otherwise it changes
    nothing.  When it acts, every running lane becomes due one period
    and 0..100 ms after [now], stopped lanes are left as they are, and
    neither the mode, the actuator nor the clock is touched. *)
Theorem watchdog_rearms_running_lanes now w :
  (mode (eng w) <> MODE_NORMAL
   \/ sdiff now (lastAnyPulseAt (eng w)) <= i32 (LIVENESS_WARN_MS cfg) ->
   watchdog now w = (tt, w))
  /\ (mode (eng w) = MODE_NORMAL ->
      i32 (LIVENESS_WARN_MS cfg) < sdiff now (lastAnyPulseAt (eng w)) ->
      let w' := snd (watchdog now w) in
      mode (eng w') = MODE_NORMAL
      /\ trace (eng w') = trace (eng w)
      /\ clk w' = clk w
      /\ length (lanes (eng w')) = length (lanes (eng w))
      /\ forall j L0, lanes (eng w) !! j = Some L0 ->
           exists L, lanes (eng w') !! j = Some L /\ rearmed now L0 L).
Proof.
  split.
  - intros H. unfold watchdog, bind, get. cbn [fst snd].
    destruct H as [Hm|Hs].
    + rewrite (bool_decide_eq_false_2 _ Hm), andb_false_r. reflexivity.
    + destruct (Z.ltb_spec (i32 (LIVENESS_WARN_MS cfg)) (sdiff now (lastAnyPulseAt (eng w))))
        as [?|_]; [lia|]. reflexivity.
  - intros Hm Hs w'.
    assert (Hw : w' = snd ((e <- get ;;
                            when (5000 <? sdiff now (lastLivenessLog e))
                                 (modify (with_lastLivenessLog now)))
                           (snd (forEach (seq 0 (NLANES (eng w))) (watchBody now) w)))).
    { subst w'. unfold watchdog, bind at 1, get at 1. cbn [fst snd].
      rewrite (bool_decide_eq_true_2 _ Hm).
      destruct (Z.ltb_spec (i32 (LIVENESS_WARN_MS cfg)) (sdiff now (lastAnyPulseAt (eng w))))
        as [_|?]; [|lia].
      reflexivity. }
    destruct (watch_loop now (NLANES (eng w)) 0 w) as (He & Hc & Hl & Hq).
    cbv zeta in He, Hc, Hl, Hq.
    set (w1 := snd (forEach (seq 0 (NLANES (eng w))) (watchBody now) w)) in *.
    assert (Hw' : eng w' = eng w1 \/ eng w' = with_lastLivenessLog now (eng w1)).
    { rewrite Hw. unfold bind, get. cbn [fst snd].
      destruct (5000 <? _); [right|left]; reflexivity. }
    assert (Hcw : clk w' = clk w1).
    { rewrite Hw. unfold bind, get. cbn [fst snd]. destruct (5000 <? _); reflexivity. }
    assert (Hlanes : lanes (eng w') = lanes (eng w1)
                     /\ mode (eng w') = mode (eng w1) /\ trace (eng w') = trace (eng w1)).
    { destruct Hw' as [->| ->]; repeat split. }
    destruct Hlanes as (Hl' & Hm' & Ht').
    rewrite Hm', Ht', Hl', Hcw, He. cbn [mode trace with_lanes].
    split; [exact Hm|]. split; [reflexivity|]. split; [exact Hc|]. split; [exact Hl|].
    intros j L0 Hj. destruct (Hq j L0 Hj) as (L & HL & HR).
    exists L. split; [exact HL|].
    assert (j < NLANES (eng w))%nat by (eapply lookup_lt_Some, Hj).
    rewrite bool_decide_eq_true_2 in HR by lia. exact HR.
Qed.


(** *** The lane scheduler: housekeeping, freeze and burst *)

Lemma bindL_lift {A B} (m : St A) (k : A -> Loop B) w :
  bindL (lift m) k w = k (fst (m w)) (snd (m w)).
Proof. unfold bindL, lift. destruct (m w); reflexivity. Qed.

(** The two housekeeping steps that open the scheduler's pass over lane
    [i]: switch a finished pulse off, expire a nudge. *)
Definition nudgeExpiry (now : Z) (i : nat) : St unit :=
  e <- get ;;
  let L := laneAt e i in
  when (negb (nudgeUntil L =? 0) && passed now (nudgeUntil L)) (updLane i resetNudge).

Definition housekept (now : Z) (i : nat) (w : World) : World :=
  snd (nudgeExpiry now i (snd (maybeCoilOff i now w))).

(** Housekeeping leaves gate, freeze, burst, schedule and polarity of
    lane [i] alone. *)
Definition sameSchedule (L0 L : Lane) : Prop :=
  freezeUntil L = freezeUntil L0 /\ burstRemain L = burstRemain L0
  /\ nextFree L = nextFree L0 /\ nextDue L = nextDue L0
  /\ running L = running L0 /\ pol L = pol L0 /\ baseHz L = baseHz L0.

Lemma nudgeExpiry_eq i now w L :
  lanes (eng w) !! i = Some L ->
  nudgeExpiry now i w
  = if negb (nudgeUntil L =? 0) && passed now (nudgeUntil L)
    then (tt, {| eng := with_lanes (alter resetNudge i (lanes (eng w))) (eng w);
                 clk := clk w; rnd := rnd w |})
    else (tt, w).
Proof.
  intros HL. unfold nudgeExpiry, bind, get. cbn [fst snd].
  unfold laneAt. rewrite HL. cbn [default from_option id].
  destruct (negb (nudgeUntil L =? 0) && passed now (nudgeUntil L)); reflexivity.
Qed.

Lemma housekept_facts now i w L :
  lanes (eng w) !! i = Some L ->
  let w2 := housekept now i w in
  (exists L2, lanes (eng w2) !! i = Some L2 /\ sameSchedule L L2)
  /\ (forall j, j <> i -> lanes (eng w2) !! j = lanes (eng w) !! j)
  /\ (trace (eng w2) = trace (eng w) \/ trace (eng w2) = Deenergize i :: trace (eng w))
  /\ mode (eng w2) = mode (eng w)
  /\ clk w2 = clk w /\ rnd w2 = rnd w.
Proof.
  intros HL w2. subst w2. unfold housekept.
  rewrite (maybeCoilOff_eq i now w L HL).
  destruct (negb (coilOffAt L =? 0) && passed now (coilOffAt L)); cbn [snd].
  - erewrite nudgeExpiry_eq
      by (cbn [eng lanes with_lanes with_trace]; rewrite list_lookup_alter_eq, HL; reflexivity).
    lane_cbn.
    destruct (negb (nudgeUntil L =? 0) && passed now (nudgeUntil L));
      cbn [snd eng lanes with_lanes with_trace trace mode clk rnd].
    + split; [|split; [|split; [right; reflexivity | repeat split]]].
      * rewrite list_lookup_alter_eq, list_lookup_alter_eq, HL. eexists. split; [reflexivity|].
        repeat split.
      * intros j Hj. rewrite !list_lookup_alter_ne by congruence. reflexivity.
    + split; [|split; [|split; [right; reflexivity | repeat split]]].
      * rewrite list_lookup_alter_eq, HL. eexists. split; [reflexivity|]. repeat split.
      * intros j Hj. rewrite !list_lookup_alter_ne by congruence. reflexivity.
  - rewrite (nudgeExpiry_eq i now w L HL).
    destruct (negb (nudgeUntil L =? 0) && passed now (nudgeUntil L));
      cbn [snd eng lanes with_lanes trace mode clk rnd].
    + split; [|split; [|split; [left; reflexivity | repeat split]]].
      * rewrite list_lookup_alter_eq, HL. eexists. split; [reflexivity|]. repeat split.
      * intros j Hj. rewrite !list_lookup_alter_ne by congruence. reflexivity.
    + split; [|split; [|split; [left; reflexivity | repeat split]]].
      * exists L. split; [exact HL|]. repeat split.
      * intros j Hj. reflexivity.
Qed.

Lemma scheduleLane_unfold fuel now i w :
  scheduleLane fuel now i w
  = let w2 := housekept now i w in
    let L := laneAt (eng w2) i in
    if negb (freezeUntil L =? 0) && (sdiff now (freezeUntil L) <? 0) then
      Some (updLane i (set_nextDue (u32 (now + 10))) w2)
    else
      let w3 := snd (when (negb (freezeUntil L =? 0)) (updLane i (set_freezeUntil 0)) w2) in
      if (0 <? burstRemain L) && passed now (nextFree L) then
        Some ((coilOn i ;;
               updLane i (fun L => set_burstRemain (u8 (burstRemain L - 1)) L) ;;
               updLane i (set_nextDue (u32 (now + BURST_TARGET_MS cfg)))) w3)
      else if negb (running L) then Some (tt, w3)
      else autoLoop fuel i now w3.
Proof.
  unfold scheduleLane. rewrite !bindL_lift. cbn [get fst snd].
  fold (nudgeExpiry now i). fold (housekept now i w). cbv zeta.
  destruct (negb _ && (_ <? 0)); [reflexivity|].
  rewrite bindL_lift.
  destruct (_ && passed now _); [reflexivity|].
  destruct (negb (running _)); reflexivity.
Qed.


(** X10.  A frozen lane is silent.  While its freeze lasts, a pass of
    the scheduler over lane [i] returns at once (whatever the loop
    bound), energizes nothing, pushes the lane's due time to 10 ms after
    [now] and keeps its pending burst, gate and polarity; a burst
    granted during a freeze therefore waits for the freeze to end.  The
    only event the pass can log is the end of a pulse already in
    progress. *)
Theorem frozen_lane_is_silent fuel now i w L :
  lanes (eng w) !! i = Some L ->
  freezeUntil L <> 0 -> sdiff now (freezeUntil L) < 0 ->
  exists w' L',
    scheduleLane fuel now i w = Some (tt, w')
    /\ lanes (eng w') !! i = Some L'
    /\ nextDue L' = u32 (now + 10)
    /\ freezeUntil L' = freezeUntil L /\ burstRemain L' = burstRemain L
    /\ nextFree L' = nextFree L /\ pol L' = pol L /\ running L' = running L
    /\ (forall j, j <> i -> lanes (eng w') !! j = lanes (eng w) !! j)
    /\ (trace (eng w') = trace (eng w) \/ trace (eng w') = Deenergize i :: trace (eng w))
    /\ clk w' = clk w /\ rnd w' = rnd w.
Proof.
  intros HL Hnz Hneg.
  destruct (housekept_facts now i w L HL) as ((L2 & HL2 & Hf & Hb & Hg & Hd & Hr & Hp & Hz)
                                               & Hoth & Htr & Hm & Hc & Hn).
  rewrite scheduleLane_unfold. cbv zeta.
  unfold laneAt. rewrite HL2. cbn [default from_option id]. rewrite Hf.
  destruct (Z.eqb_spec (freezeUntil L) 0) as [?|_]; [contradiction|].
  destruct (Z.ltb_spec (sdiff now (freezeUntil L)) 0) as [_|?]; [|lia].
  cbn [negb andb]. cbv [updLane modify].
  eexists _, (set_nextDue (u32 (now + 10)) L2). split; [reflexivity|].
  cbn [eng lanes with_lanes trace clk rnd]. lane_cbn.
  rewrite list_lookup_alter_eq, HL2.
  split; [reflexivity|]. repeat split; try assumption.
  intros j Hj. rewrite list_lookup_alter_ne by congruence. apply Hoth, Hj.
Qed.

(** X11.  A pending burst overrides a stop.  On a lane that is not
    frozen, with bursts left and its gate open at [now], a pass of the
    scheduler spends one burst: it calls [coilOn] once, counts the burst
    down and makes the lane due [BURST_TARGET_MS] after [now], whether
    the lane is running or not and whatever its due time was.  [coilOn]
    takes its own clock reading [T]; the pulse is emitted when the gate
    is open at [T] too, and the burst is spent either way. *)
Theorem burst_overrides_stop fuel now i w L :
  lanes (eng w) !! i = Some L ->
  freezeUntil L = 0 \/ 0 <= sdiff now (freezeUntil L) ->
  0 < burstRemain L -> passed now (nextFree L) = true ->
  let T := clock (clk w) in
  let fired := negb (sdiff (u32 T) (nextFree L) <? 0) in
  exists w' L' pre,
    scheduleLane fuel now i w = Some (tt, w')
    /\ lanes (eng w') !! i = Some L'
    /\ burstRemain L' = u8 (burstRemain L - 1)
    /\ nextDue L' = u32 (now + BURST_TARGET_MS cfg)
    /\ freezeUntil L' = 0 /\ running L' = running L
    /\ pol L' = (if fired then negb (pol L) else pol L)
    /\ (pre = [] \/ pre = [Deenergize i])
    /\ trace (eng w')
       = (if fired then [Energize i (pol L) T] else []) ++ pre ++ trace (eng w)
    /\ clk w' = S (clk w) /\ rnd w' = rnd w.
Proof.
  intros HL Hfz Hb Hg T fired.
  destruct (housekept_facts now i w L HL) as ((L2 & HL2 & Hf & Hbr & Hnf & Hd & Hr & Hp & Hz)
                                               & Hoth & Htr & Hm & Hc & Hn).
  rewrite scheduleLane_unfold. cbv zeta.
  unfold laneAt. rewrite HL2. cbn [default from_option id]. rewrite Hf, Hbr, Hnf, Hg.
  assert (Hfr : negb (freezeUntil L =? 0) && (sdiff now (freezeUntil L) <? 0) = false).
  { destruct Hfz as [->|Hge]; [reflexivity|].
    destruct (Z.ltb_spec (sdiff now (freezeUntil L)) 0); [lia|]. apply andb_false_r. }
  rewrite Hfr. destruct (Z.ltb_spec 0 (burstRemain L)) as [_|?]; [|lia]. cbn [andb].
  set (w3 := snd (when _ _ _)).
  set (L3 := if negb (freezeUntil L =? 0) then set_freezeUntil 0 L2 else L2).
  assert (HL3 : lanes (eng w3) !! i = Some L3
                /\ trace (eng w3) = trace (eng (housekept now i w))
                /\ clk w3 = clk w /\ rnd w3 = rnd w).
  { subst w3 L3. destruct (negb (freezeUntil L =? 0)); cbv [when updLane modify ret];
      cbn [snd eng lanes with_lanes trace clk rnd].
    - rewrite list_lookup_alter_eq, HL2. auto.
    - auto. }
  destruct HL3 as (HL3 & Htr3 & Hc3 & Hn3).
  assert (E3 : freezeUntil L3 = 0 /\ burstRemain L3 = burstRemain L
               /\ nextFree L3 = nextFree L /\ running L3 = running L /\ pol L3 = pol L).
  { subst L3. destruct (Z.eqb_spec (freezeUntil L) 0) as [e|ne]; cbn [negb]; lane_cbn.
    - rewrite <- Hf in e. auto.
    - auto. }
  destruct E3 as (Ef & Eb & Eg & Er & Ep).
  unfold bind. cbv beta zeta.
  rewrite (coilOn_spec i w3 L3 HL3). rewrite Hc3, Eg. fold T.
  cbv [updLane modify]. cbn [fst snd eng clk rnd].
  subst fired.
  assert (Hpre : exists pre, (pre = [] \/ pre = [Deenergize i])
                             /\ trace (eng w3) = pre ++ trace (eng w)).
  { rewrite Htr3. destruct Htr as [->| ->]; [exists [] | exists [Deenergize i]]; auto. }
  destruct Hpre as (pre & Hpre & Etr).
  eexists _, (set_nextDue (u32 (now + BURST_TARGET_MS cfg))
                (set_burstRemain (u8 (burstRemain L - 1))
                   (if sdiff (u32 T) (nextFree L) <? 0 then L3 else fire (u32 T) L3))), pre.
  split; [reflexivity|].
  cbn [eng lanes with_lanes trace clk rnd].
  destruct (sdiff (u32 T) (nextFree L) <? 0); cbn [negb];
    unfold pulsed, fire; cbn [lanes with_lanes with_trace with_lastAnyPulseAt trace];
    rewrite ?list_lookup_alter_eq, HL3; cbn [fmap option_fmap option_map]; lane_cbn;
    rewrite ?Eb, ?Etr, ?Ep; repeat split; auto.
Qed.


Lemma housekept_modeEndsAt now i w :
  modeEndsAt (eng (housekept now i w)) = modeEndsAt (eng w).
Proof.
  unfold housekept, nudgeExpiry, maybeCoilOff, bind, get. cbn [fst snd].
  destruct (negb (coilOffAt _ =? 0) && passed now (coilOffAt _)); cbn [when ret snd];
    [cbv [bind modify updLane]; cbn [fst snd]|];
    (destruct (negb (nudgeUntil _ =? 0) && passed now (nudgeUntil _)); reflexivity).
Qed.

Lemma scheduleLane_stopped fuel now i w L :
  lanes (eng w) !! i = Some L ->
  running L = false -> burstRemain L = 0 ->
  exists w' L',
    scheduleLane fuel now i w = Some (tt, w')
    /\ lanes (eng w') !! i = Some L'
    /\ running L' = false /\ burstRemain L' = 0
    /\ nextFree L' = nextFree L /\ pol L' = pol L
    /\ (forall j, j <> i -> lanes (eng w') !! j = lanes (eng w) !! j)
    /\ (trace (eng w') = trace (eng w) \/ trace (eng w') = Deenergize i :: trace (eng w))
    /\ mode (eng w') = mode (eng w)
    /\ clk w' = clk w /\ rnd w' = rnd w
    /\ modeEndsAt (eng w') = modeEndsAt (eng w).
Proof.
  intros HL Hrun Hb0.
  destruct (housekept_facts now i w L HL) as ((L2 & HL2 & Hf & Hbr & Hnf & Hd & Hr & Hp & Hz)
                                               & Hoth & Htr & Hm & Hc & Hn).
  pose proof (housekept_modeEndsAt now i w) as Hme.
  rewrite scheduleLane_unfold. cbv zeta.
  unfold laneAt. rewrite HL2. cbn [default from_option id].
  rewrite Hbr, Hb0, Hr, Hrun. cbn [Z.ltb Z.compare andb negb].
  destruct (negb (freezeUntil L2 =? 0)) eqn:Efz; cbn [andb].
  - destruct (sdiff now (freezeUntil L2) <? 0).
    + cbv [updLane modify]. eexists _, (set_nextDue (u32 (now + 10)) L2).
      split; [reflexivity|]. cbn [eng lanes with_lanes trace mode clk rnd modeEndsAt]. lane_cbn.
      rewrite list_lookup_alter_eq, HL2. split; [reflexivity|].
      repeat split; try congruence; try assumption.
      intros j Hj. rewrite list_lookup_alter_ne by congruence. apply Hoth, Hj.
    + cbv [when updLane modify]. eexists _, (set_freezeUntil 0 L2).
      split; [reflexivity|]. cbn [snd eng lanes with_lanes trace mode clk rnd modeEndsAt].
      lane_cbn.
      rewrite list_lookup_alter_eq, HL2. split; [reflexivity|].
      repeat split; try congruence; try assumption.
      intros j Hj. rewrite list_lookup_alter_ne by congruence. apply Hoth, Hj.
  - cbv [when ret]. cbn [snd]. exists (housekept now i w), L2.
    split; [reflexivity|]. repeat split; try congruence; try assumption.
Qed.

(** X12.  A stopped lane with no burst pending is silent too, frozen or
    not: the scheduler's pass returns at once without energizing, the
    lane stays stopped with no burst, and the other lanes, the mode and
    the clock are untouched.  The property holds again after the pass,
    so it lasts until an effect restarts the lane. *)
Theorem stopped_lane_is_silent fuel now i w L :
  lanes (eng w) !! i = Some L ->
  running L = false -> burstRemain L = 0 ->
  exists w' L',
    scheduleLane fuel now i w = Some (tt, w')
    /\ lanes (eng w') !! i = Some L'
    /\ running L' = false /\ burstRemain L' = 0
    /\ nextFree L' = nextFree L /\ pol L' = pol L
    /\ (forall j, j <> i -> lanes (eng w') !! j = lanes (eng w) !! j)
    /\ (trace (eng w') = trace (eng w) \/ trace (eng w') = Deenergize i :: trace (eng w))
    /\ mode (eng w') = mode (eng w)
    /\ clk w' = clk w /\ rnd w' = rnd w.
Proof.
  intros HL Hrun Hb0.
  destruct (scheduleLane_stopped fuel now i w L HL Hrun Hb0)
    as (w' & L' & H1 & H2 & H3 & H4 & H5 & H6 & H7 & H8 & H9 & H10 & H11 & _).
  exists w', L'. repeat split; assumption.
Qed.


(** *** A due lane pulses once *)

(** X24.  A running lane that is due, with no freeze and no burst, and
    whose gate is open both at [now] and at the reading [T] that
    [coilOn] takes, gets exactly one pulse from a pass of the scheduler,
    provided the pulse's own gate [T + PULSE_ON_MS + MIN_OFF_MS] lies
    after [now]: the [while] loop ends within two rounds, and afterwards
    the lane is no longer due, either because its due time was advanced
    past [now] or because it was deferred to the new gate. *)
Theorem due_lane_pulses_once fuel now i w L :
  lanes (eng w) !! i = Some L ->
  running L = true -> burstRemain L = 0 -> freezeUntil L = 0 ->
  passed now (nextDue L) = true -> passed now (nextFree L) = true ->
  let T := clock (clk w) in
  0 <= sdiff (u32 T) (nextFree L) ->
  sdiff now (u32 (u32 T + PULSE_ON_MS cfg + MIN_OFF_MS cfg)) < 0 ->
  exists w' L' pre,
    scheduleLane (S (S fuel)) now i w = Some (tt, w')
    /\ lanes (eng w') !! i = Some L'
    /\ sdiff now (nextDue L') < 0
    /\ pol L' = negb (pol L)
    /\ nextFree L' = u32 (u32 T + PULSE_ON_MS cfg + MIN_OFF_MS cfg)
    /\ (pre = [] \/ pre = [Deenergize i])
    /\ trace (eng w') = Energize i (pol L) T :: pre ++ trace (eng w).
Proof.
  intros HL Hrun Hb0 Hfz Hdue Hgate T HgT Hnext.
  destruct (housekept_facts now i w L HL) as ((L2 & HL2 & Hf & Hbr & Hnf & Hd & Hr & Hp & Hz)
                                               & Hoth & Htr & Hm & Hc & Hn).
  assert (Hpre : exists pre, (pre = [] \/ pre = [Deenergize i])
                             /\ trace (eng (housekept now i w)) = pre ++ trace (eng w)).
  { destruct Htr as [-> | ->]; [exists [] | exists [Deenergize i]]; auto. }
  destruct Hpre as (pre & Hpre & Etr).
  rewrite scheduleLane_unfold. cbv zeta.
  unfold laneAt. rewrite HL2. cbn [default from_option id].
  rewrite Hf, Hbr, Hr, Hfz, Hb0, Hrun. cbn [Z.eqb Z.ltb Z.compare negb andb when ret snd].
  set (w2 := housekept now i w) in *.
  rewrite autoLoop_unfold by (unfold laneAt; rewrite HL2; cbn; rewrite Hd; exact Hdue).
  destruct (autoBody_open i now w2 L2 HL2 ltac:(rewrite Hnf; exact Hgate))
    as (HL3 & Ht3 & Hagain).
  rewrite Hc, Hnf, Hp in *. fold T in HL3, Ht3, Hagain.
  destruct (Z.ltb_spec (sdiff (u32 T) (nextFree L)) 0) as [?|_]; [lia|].
  cbn [negb] in *.
  set (L3 := set_nextDue _ (fire (u32 T) L2)) in *.
  set (w3 := snd (autoBody i now w2)) in *.
  assert (Hfree3 : nextFree L3 = u32 (u32 T + PULSE_ON_MS cfg + MIN_OFF_MS cfg))
    by reflexivity.
  assert (Hpol3 : pol L3 = negb (pol L)) by (subst L3; unfold fire; lane_cbn; congruence).
  rewrite Etr in Ht3.
  destruct (fst (autoBody i now w2)) eqn:Eagain.
  - assert (Hg3 : passed now (nextFree L3) = false).
    { rewrite Hfree3. unfold passed. apply Z.leb_gt. exact Hnext. }
    rewrite autoLoop_unfold
      by (unfold laneAt; rewrite HL3; cbn [default from_option id]; congruence).
    rewrite (autoBody_gated i now w3 L3 HL3 Hg3). cbn [fst snd].
    eexists _, (set_nextDue (nextFree L3) L3), pre. split; [reflexivity|].
    cbn [eng lanes with_lanes trace]. rewrite list_lookup_alter_eq, HL3.
    split; [reflexivity|]. lane_cbn. rewrite Hfree3.
    split; [exact Hnext|]. split; [exact Hpol3|]. split; [exact Hfree3|].
    split; [exact Hpre | exact Ht3].
  - exists w3, L3, pre. split; [reflexivity|]. split; [exact HL3|].
    split; [unfold passed in Hagain; apply Z.leb_gt; congruence|].
    split; [exact Hpol3|]. split; [exact Hfree3|]. split; [exact Hpre | exact Ht3].
Qed.

(** *** Long pause *)

(** X13.  Outside its cooldown [startLongPause] stops and freezes every
    lane until one common deadline, which is also the end of the mode: a
    duration drawn from [[LONG_PAUSE_MIN_MS, LONG_PAUSE_MAX_MS]] after
    the second clock reading.  Transients are cleared first and no
    actuator is touched. *)
Theorem long_pause_freezes_all w :
  0 <= LONG_PAUSE_MIN_MS cfg -> LONG_PAUSE_MIN_MS cfg <= LONG_PAUSE_MAX_MS cfg ->
  LONG_PAUSE_MAX_MS cfg < 2 ^ 31 - 1 ->
  (sdiff (u32 (clock (clk w))) (lastLongPauseEnd (eng w))
     <? i32 (LONG_PAUSE_COOLDOWN cfg)) = false ->
  let w' := snd (startLongPause w) in
  exists dur,
    LONG_PAUSE_MIN_MS cfg <= dur <= LONG_PAUSE_MAX_MS cfg
    /\ lanes (eng w')
       = (fun L => set_running false
                     (set_freezeUntil (u32 (u32 (clock (S (clk w))) + dur))
                        (clearTransients L))) <$> lanes (eng w)
    /\ modeEndsAt (eng w') = u32 (u32 (clock (S (clk w))) + dur)
    /\ mode (eng w') = MODE_LONG_PAUSE
    /\ trace (eng w') = trace (eng w).
Proof.
  intros Hmin Hle Hmax Hcool w'.
  pose proof (rng_bounds (LONG_PAUSE_MIN_MS cfg) (LONG_PAUSE_MAX_MS cfg) w
                ltac:(lia) Hle ltac:(lia) ltac:(lia)) as Hd.
  exists (fst (rng (LONG_PAUSE_MIN_MS cfg) (LONG_PAUSE_MAX_MS cfg) w)).
  split; [exact Hd|].
  assert (E : w' = {| eng := with_modeEndsAt
                         (u32 (u32 (clock (S (clk w)))
                               + fst (rng (LONG_PAUSE_MIN_MS cfg) (LONG_PAUSE_MAX_MS cfg) w)))
                         (with_mode MODE_LONG_PAUSE
                            (with_lanes
                               ((fun L => set_running false
                                   (set_freezeUntil
                                      (u32 (u32 (clock (S (clk w)))
                                            + fst (rng (LONG_PAUSE_MIN_MS cfg)
                                                     (LONG_PAUSE_MAX_MS cfg) w)))
                                      (clearTransients L))) <$> lanes (eng w))
                               (eng w)));
                      clk := S (S (clk w)); rnd := S (rnd w) |}).
  { rewrite <- (u32_small (fst (rng _ _ w))) by lia.
    subst w'. unfold startLongPause.
    cbv [bind millis reading get ret clearTransientsAll mapLanes modify setMode rng esp_random].
    cbn [fst snd eng clk rnd]. rewrite Hcool.
    cbn [fst snd eng clk rnd lanes with_lanes with_mode].
    rewrite (i32_small (LONG_PAUSE_MIN_MS cfg)), (i32_small (LONG_PAUSE_MAX_MS cfg)) by lia.
    rewrite <- list_fmap_compose. reflexivity. }
  rewrite E. cbn [eng lanes with_lanes with_mode with_modeEndsAt mode modeEndsAt trace].
  repeat split.
Qed.


(** *** Stagger blackout: the deadline and the freezes *)

Lemma u32_i32 a : u32 (i32 a) = u32 a.
Proof. unfold u32, i32. rewrite Zminus_mod_idemp_l. f_equal. lia. Qed.

(** Seen from [now], an instant [b - a] ms before [t + b] lies that much
    further back. *)
Lemma sdiff_earlier now t a b :
  - 2 ^ 31 <= sdiff now (u32 (t + b)) + (b - a) < 2 ^ 31 ->
  sdiff now (u32 (t + a)) = sdiff now (u32 (t + b)) + (b - a).
Proof.
  intros H. unfold sdiff in *. rewrite <- (i32_small _ H) at 1.
  apply i32_congr.
  rewrite u32_sub_r, <- u32_add_l, u32_i32, u32_add_l.
  replace (now - u32 (t + b) + (b - a)) with (now + (b - a) - u32 (t + b)) by lia.
  rewrite u32_sub_r. f_equal. lia.
Qed.

Lemma startStaggerBlackout_deadline w :
  modeEndsAt (eng (snd (startStaggerBlackout w)))
  = u32 (u32 (clock (clk w))
         + (STAGGER_SILENCE_MS cfg
            + STAGGER_STOP_STEP_MS cfg * (Z.of_nat (NLANES (eng w)) - 1))).
Proof.
  unfold startStaggerBlackout, bind; simpl.
  unfold NLANES; simpl. rewrite length_fmap.
  rewrite u32_add_r, <- u32_add_r, u32_mul_r, u32_add_r. f_equal. lia.
Qed.

(** X25.  The stagger blackout's deadline is the end of the longest
    freeze, lane 0's.  So when the mode's deadline has passed, every
    lane's freeze has passed too (on the wrapping clock, within its
    [2^31] ms horizon): the release never restarts a lane that is still
    frozen. *)
Theorem stagger_deadline_is_last_freeze w :
  (1 <= NLANES (eng w))%nat ->
  0 <= STAGGER_SILENCE_MS cfg -> 0 <= STAGGER_STOP_STEP_MS cfg ->
  let w' := snd (startStaggerBlackout w) in
  modeEndsAt (eng w') = freezeUntil (laneAt (eng w') 0)
  /\ forall now i L',
       lanes (eng w') !! i = Some L' ->
       passed now (modeEndsAt (eng w')) = true ->
       sdiff now (modeEndsAt (eng w')) + STAGGER_STOP_STEP_MS cfg * Z.of_nat i < 2 ^ 31 ->
       passed now (freezeUntil L') = true.
Proof.
  intros Hn Hs Hp w'. subst w'. rewrite startStaggerBlackout_deadline. split.
  - destruct (lookup_lt_is_Some_2 (lanes (eng w)) 0 ltac:(unfold NLANES in Hn; lia)) as [L HL].
    unfold laneAt. rewrite (startStaggerBlackout_lane w 0 L HL).
    cbn [default from_option id]. lane_cbn. do 2 f_equal. lia.
  - intros now i L' HL' Hpass Hfit.
    assert (Hi : (i < NLANES (eng w))%nat).
    { apply lookup_lt_Some in HL'. unfold startStaggerBlackout, bind in HL'; simpl in HL'.
      rewrite length_imap, length_fmap in HL'. exact HL'. }
    destruct (lookup_lt_is_Some_2 (lanes (eng w)) i Hi) as [L HL].
    rewrite (startStaggerBlackout_lane w i L HL) in HL'. injection HL' as <-. lane_cbn.
    unfold passed in *. apply Z.leb_le in Hpass. apply Z.leb_le.
    pose proof (Zmult_le_0_compat _ _ Hp (Nat2Z.is_nonneg i)).
    rewrite (sdiff_earlier now _ _
               (STAGGER_SILENCE_MS cfg
                + STAGGER_STOP_STEP_MS cfg * (Z.of_nat (NLANES (eng w)) - 1))); lia.
Qed.

(** *** Releases *)

Lemma relaunch_all prep hi w :
  snd (forLanes (fun i => relaunch prep (hi i) i) w)
  = {| eng := with_lanes (imap (relaunched prep hi w 0) (lanes (eng w))) (eng w);
       clk := (clk w + NLANES (eng w))%nat; rnd := (rnd w + NLANES (eng w))%nat |}.
Proof.
  unfold forLanes, bind, get. cbn [fst snd].
  rewrite relaunch_loop. f_equal. f_equal.
  apply list_eq. intros j. rewrite !list_lookup_imap.
  destruct (lanes (eng w) !! j) as [L|] eqn:E; simpl; [|reflexivity].
  assert (j < NLANES (eng w))%nat by (eapply lookup_lt_Some, E).
  rewrite bool_decide_eq_true_2 by lia. reflexivity.
Qed.

Lemma relaunched_window prep hi w j L :
  0 <= hi j < 2 ^ 31 - 1 ->
  exists r, 0 <= r <= hi j
    /\ relaunched prep hi w 0 j L
       = set_nextDue (u32 (u32 (clock (clk w + j)) + periodMs (prep L) + r)) (prep L).
Proof.
  intros H. unfold relaunched. rewrite Nat.sub_0_r.
  eexists. split; [|reflexivity].
  rewrite (u32_small (hi j - 0 + 1)) by lia.
  pose proof (Z.mod_pos_bound (u32 (entropy (rnd w + j))) (hi j - 0 + 1)).
  rewrite i32_small; lia.
Qed.

(** X14.  [endLongPause] restarts every lane, due one period and 0..120
    ms after the clock reading taken for that lane, returns to Normal
    and stamps the cooldown with a reading taken after the last lane.
    The lanes' freeze deadlines are not cleared here: the scheduler
    clears them on its next pass. *)
Theorem long_pause_release w :
  let w' := snd (endLongPause w) in
  (forall j L, lanes (eng w) !! j = Some L ->
     exists r, 0 <= r <= 120
       /\ lanes (eng w') !! j
          = Some (set_nextDue (u32 (u32 (clock (clk w + j))
                                    + periodMs (set_running true L) + r))
                    (set_running true L)))
  /\ NLANES (eng w') = NLANES (eng w)
  /\ mode (eng w') = MODE_NORMAL
  /\ lastLongPauseEnd (eng w') = u32 (clock (clk w + NLANES (eng w)))
  /\ trace (eng w') = trace (eng w).
Proof.
  intros w'.
  assert (E : w' = {| eng := with_lastLongPauseEnd (u32 (clock (clk w + NLANES (eng w))))
                        (with_mode MODE_NORMAL
                           (with_lanes
                              (imap (relaunched (set_running true) (fun _ => 120) w 0)
                                 (lanes (eng w))) (eng w)));
                      clk := S (clk w + NLANES (eng w));
                      rnd := (rnd w + NLANES (eng w))%nat |}).
  { subst w'. unfold endLongPause. unfold bind at 1. cbv beta.
    change (fun i : nat => relaunch (set_running true) 120 i)
      with (fun i : nat => relaunch (set_running true) ((fun _ => 120) i) i).
    rewrite relaunch_all. reflexivity. }
  rewrite E. cbn [eng lanes with_lanes with_mode with_lastLongPauseEnd mode
                  lastLongPauseEnd trace NLANES].
  unfold NLANES. cbn [lanes with_lanes with_mode with_lastLongPauseEnd].
  split; [|rewrite length_imap; repeat split].
  intros j L HL.
  destruct (relaunched_window (set_running true) (fun _ => 120) w j L ltac:(lia))
    as (r & Hr & Er).
  exists r. split; [exact Hr|]. rewrite list_lookup_imap, HL. cbn. rewrite Er. reflexivity.
Qed.

(** X15.  [endStaggerBlackout] restarts every lane likewise, lane [j]
    within a window of [100 + 20 * j] ms, so that later lanes spread
    wider; it returns to Normal and, having no cooldown, stamps nothing. *)
Theorem stagger_release_windows w :
  20 * Z.of_nat (NLANES (eng w)) + 100 < 2 ^ 31 ->
  let w' := snd (endStaggerBlackout w) in
  (forall j L, lanes (eng w) !! j = Some L ->
     exists r, 0 <= r <= 100 + 20 * Z.of_nat j
       /\ lanes (eng w') !! j
          = Some (set_nextDue (u32 (u32 (clock (clk w + j))
                                    + periodMs (set_running true L) + r))
                    (set_running true L)))
  /\ NLANES (eng w') = NLANES (eng w)
  /\ mode (eng w') = MODE_NORMAL
  /\ lastLongPauseEnd (eng w') = lastLongPauseEnd (eng w)
  /\ lastSyncEnd (eng w') = lastSyncEnd (eng w)
  /\ trace (eng w') = trace (eng w).
Proof.
  intros HN w'.
  assert (E : w' = {| eng := with_mode MODE_NORMAL
                        (with_lanes
                           (imap (relaunched (set_running true)
                                    (fun i => 100 + i32 (20 * Z.of_nat i)) w 0)
                              (lanes (eng w))) (eng w));
                      clk := (clk w + NLANES (eng w))%nat;
                      rnd := (rnd w + NLANES (eng w))%nat |}).
  { subst w'. unfold endStaggerBlackout. unfold bind at 1. cbv beta.
    change (fun i : nat => relaunch (set_running true) (100 + i32 (20 * Z.of_nat i)) i)
      with (fun i : nat => relaunch (set_running true)
                             ((fun i => 100 + i32 (20 * Z.of_nat i)) i) i).
    rewrite relaunch_all. reflexivity. }
  rewrite E. unfold NLANES.
  cbn [eng lanes with_lanes with_mode mode lastLongPauseEnd lastSyncEnd trace].
  split; [|rewrite length_imap; repeat split].
  intros j L HL.
  assert (Hj : (j < NLANES (eng w))%nat) by (eapply lookup_lt_Some, HL).
  unfold NLANES in *.
  destruct (relaunched_window (set_running true) (fun i => 100 + i32 (20 * Z.of_nat i)) w j L)
    as (r & Hr & Er).
  { cbv beta. rewrite i32_small by lia. lia. }
  cbv beta in Hr. rewrite i32_small in Hr by lia.
  exists r. split; [exact Hr|]. rewrite list_lookup_imap, HL. cbn. rewrite Er. reflexivity.
Qed.


(** *** Beat: how long a pattern plays *)

(** Loops that stamp each lane with its own clock reading. *)
Lemma stamp_loop (f : Z -> Lane -> Lane) k : forall s w,
  snd (forEach (seq s k) (fun i => now <- millis ;; updLane i (f now)) w)
  = {| eng := with_lanes
        (imap (fun j L => if bool_decide (s <= j < s + k)%nat
                          then f (u32 (clock (clk w + (j - s)))) L else L)
              (lanes (eng w))) (eng w);
       clk := (clk w + k)%nat; rnd := rnd w |}.
Proof.
  induction k as [|k IH]; intros s w; simpl.
  - destruct w as [e c r]; simpl. replace (c + 0)%nat with c by lia.
    symmetry. apply world_eq.
    apply list_eq. intros j. rewrite list_lookup_imap.
    destruct (lanes e !! j); simpl; [|reflexivity].
    rewrite bool_decide_eq_false_2 by lia. reflexivity.
  - unfold bind at 1. rewrite IH.
    destruct w as [e c r]; simpl. unfold with_lanes; simpl.
    f_equal; [|lia]. f_equal.
    apply list_eq. intros j. rewrite !list_lookup_imap.
    destruct (decide (s = j)) as [<-|Hne].
    + rewrite list_lookup_alter_eq. destruct (lanes e !! s) as [L|] eqn:E; simpl; [|reflexivity].
      rewrite bool_decide_eq_false_2 by lia. rewrite bool_decide_eq_true_2 by lia.
      rewrite Nat.sub_diag, Nat.add_0_r. reflexivity.
    + rewrite list_lookup_alter_ne by exact Hne.
      destruct (lanes e !! j) as [L|]; simpl; [|reflexivity].
      destruct (decide (S s <= j < S s + k)%nat).
      * rewrite !bool_decide_eq_true_2 by lia.
        replace (S (c + (j - S s)))%nat with (c + (j - s))%nat by lia. reflexivity.
      * rewrite !bool_decide_eq_false_2 by lia. reflexivity.
Qed.

Definition restarted (now : Z) (L : Lane) : Lane :=
  set_nextDue (u32 (now + periodMs (set_running true L))) (set_running true L).

Lemma endBeat_spec w :
  snd (endBeat w)
  = {| eng := with_beat
         {| pat := None; stepPeriodMs := stepPeriodMs (beat (eng w));
            nextStepAt := nextStepAt (beat (eng w)); step := step (beat (eng w));
            barsLeft := barsLeft (beat (eng w)) |}
         (with_mode MODE_NORMAL
            (with_lanes
               (imap (fun j L => restarted (u32 (clock (clk w + j))) L) (lanes (eng w)))
               (eng w)));
       clk := (clk w + NLANES (eng w))%nat; rnd := rnd w |}.
Proof.
  unfold endBeat, forLanes. unfold bind at 1 2. unfold bind at 2. unfold get. cbn [fst snd].
  change (fun i : nat => bind millis (fun now => updLane i _))
    with (fun i : nat => now <- millis ;; updLane i (restarted now)).
  rewrite (stamp_loop restarted).
  cbv [bind setMode modify]. cbn [fst snd eng clk rnd beat with_mode with_lanes].
  f_equal. f_equal. f_equal. f_equal.
  apply list_eq. intros j. rewrite !list_lookup_imap.
  destruct (lanes (eng w) !! j) as [L|] eqn:E; simpl; [|reflexivity].
  assert (j < NLANES (eng w))%nat by (eapply lookup_lt_Some, E).
  rewrite bool_decide_eq_true_2 by lia. rewrite Nat.sub_0_r. reflexivity.
Qed.

(** Pulses and jitter leave the beat state and the mode alone. *)
Definition sameBeat (w0 w : World) : Prop :=
  beat (eng w) = beat (eng w0) /\ mode (eng w) = mode (eng w0)
  /\ NLANES (eng w) = NLANES (eng w0).

Lemma coilOn_sameBeat i w : sameBeat w (snd (coilOn i w)).
Proof.
  unfold sameBeat, coilOn, bind, reading, get, NLANES. cbn [fst snd eng].
  destruct (lanes (eng w) !! i) as [L|]; [|repeat split].
  destruct (sdiff _ _ <? 0); [repeat split|].
  cbv [modify updLane]. cbn [snd eng lanes beat mode with_lanes with_trace with_lastAnyPulseAt].
  rewrite length_alter. repeat split.
Qed.

Lemma when_coilOn_sameBeat c i w0 w :
  sameBeat w0 w -> sameBeat w0 (snd (when c (coilOn i) w)).
Proof.
  intros (Hb & Hm & Hn). destruct c; cbn [when ret snd]; [|repeat split; assumption].
  destruct (coilOn_sameBeat i w) as (Hb' & Hm' & Hn'). repeat split; congruence.
Qed.

Lemma jitter_sameBeat lo hi w0 w :
  sameBeat w0 w -> sameBeat w0 (snd (jitter lo hi w)).
Proof.
  intros H. unfold jitter. destruct (0 <? JITTER_MS cfg); exact H.
Qed.

(** Steps still to play: the rest of the current bar and the bars after it. *)
Definition stepsLeft (p : BeatPattern) (b : BeatState) : Z :=
  (barsLeft b - 1) * bp_steps p + (bp_steps p - step b).

Definition beatCounters (p : BeatPattern) (b : BeatState) : Prop :=
  pat b = Some p /\ 0 <= step b < bp_steps p /\ 0 < barsLeft b < 2 ^ 8.


Lemma handleBeat_due now w p :
  pat (beat (eng w)) = Some p ->
  (sdiff now (nextStepAt (beat (eng w))) <? 0) = false ->
  exists w4 j,
    sameBeat w w4
    /\ handleBeat now w
       = (let b := beat (eng w) in
          let step' := u8 (crem (step b + 1) (bp_steps p)) in
          let wraps := (step' =? 0) && negb (barsLeft b =? 0) in
          let bars' := if wraps then u8 (barsLeft b - 1) else barsLeft b in
          (modify (with_beat
             {| pat := pat b; stepPeriodMs := stepPeriodMs b;
                nextStepAt := u32 (nextStepAt b + stepPeriodMs b + j);
                step := step'; barsLeft := bars' |}) ;;
           when (wraps && (bars' =? 0)) endBeat) w4).
Proof.
  intros Hp Hdue. unfold handleBeat. unfold bind at 1. unfold get. cbn [fst snd].
  rewrite Hp, Hdue.
  set (c0 := hasStep (bp_A p) _). set (c1 := hasStep (bp_B p) _). set (c2 := hasStep (bp_C p) _).
  unfold bind at 1 2 3 4. cbv beta.
  set (w1 := snd (when c0 (coilOn 0) w)).
  set (w2 := snd (when c1 (coilOn 1) w1)).
  set (w3 := snd (when c2 (coilOn 2) w2)).
  exists (snd (jitter (cdiv (- JITTER_MS cfg) 2) (cdiv (JITTER_MS cfg) 2) w3)),
         (fst (jitter (cdiv (- JITTER_MS cfg) 2) (cdiv (JITTER_MS cfg) 2) w3)).
  split; [|reflexivity].
  apply jitter_sameBeat. subst w3 w2 w1.
  repeat apply when_coilOn_sameBeat. repeat split.
Qed.

(** [startBeat] stops every lane, with transients cleared, and arms the
    pattern for [bars * steps] steps. *)
Lemma startBeat_counts p w :
  let w' := snd (startBeat p w) in
  pat (beat (eng w')) = Some p
  /\ stepsLeft p (beat (eng w')) = bp_bars p * bp_steps p
  /\ lanes (eng w')
     = (fun L => set_running false (clearTransients L)) <$> lanes (eng w)
  /\ mode (eng w') = MODE_BEAT
  /\ trace (eng w') = trace (eng w).
Proof.
  intros w'. subst w'. unfold startBeat, stepsLeft.
  cbv [bind clearTransientsAll mapLanes modify millis reading ret setMode].
  cbn [fst snd eng lanes beat with_lanes with_beat with_mode mode trace pat step barsLeft].
  rewrite <- list_fmap_compose. repeat split. lia.
Qed.

Lemma handleBeat_counts now w p :
  beatCounters p (beat (eng w)) -> bp_steps p < 2 ^ 8 ->
  (sdiff now (nextStepAt (beat (eng w))) <? 0) = false ->
  let w' := snd (handleBeat now w) in
  if stepsLeft p (beat (eng w)) =? 1 then
    pat (beat (eng w')) = None /\ mode (eng w') = MODE_NORMAL
    /\ NLANES (eng w') = NLANES (eng w)
    /\ (forall j L, lanes (eng w') !! j = Some L -> running L = true)
  else
    beatCounters p (beat (eng w'))
    /\ stepsLeft p (beat (eng w')) = stepsLeft p (beat (eng w)) - 1
    /\ mode (eng w') = mode (eng w).
Proof.
  intros (Hp & Hs & Hb) H8 Hdue w'.
  destruct (handleBeat_due now w p Hp Hdue) as (w4 & j & (Eb & Em & En) & E).
  subst w'. rewrite E. clear E. cbv zeta.
  set (b := beat (eng w)) in *.
  assert (Hrem : crem (step b + 1) (bp_steps p) = (step b + 1) mod bp_steps p).
  { unfold crem. apply Z.rem_mod_nonneg; lia. }
  rewrite Hrem.
  destruct (Z.eqb_spec (barsLeft b) 0) as [?|_]; [lia|]. cbn [negb]. rewrite andb_true_r.
  destruct (Z.eq_dec (step b + 1) (bp_steps p)) as [Hlast|Hmid].
  - rewrite Hlast, Z.mod_same by lia. change (u8 0) with 0. cbn [Z.eqb andb].
    assert (Hu : u8 (barsLeft b - 1) = barsLeft b - 1) by (unfold u8; apply Z.mod_small; lia).
    rewrite Hu.
    destruct (Z.eqb_spec (barsLeft b - 1) 0) as [Hone|Hmore].
    + assert (Hsl : stepsLeft p b = 1) by (unfold stepsLeft; nia).
      rewrite Hsl. change (1 =? 1) with true. cbv iota.
      unfold bind. cbn [when]. rewrite endBeat_spec.
      cbv [modify]. unfold NLANES in *.
      cbn [fst snd eng lanes beat mode pat with_beat with_mode with_lanes].
      rewrite length_imap. repeat split; try assumption.
      intros k L. rewrite list_lookup_imap.
      destruct (lanes (eng w4) !! k); [|discriminate]. intros [= <-]. reflexivity.
    + assert (Hsl : stepsLeft p b <> 1) by (unfold stepsLeft; nia).
      destruct (Z.eqb_spec (stepsLeft p b) 1) as [?|_]; [contradiction|].
      cbv [bind modify when ret]. cbn [fst snd eng beat mode with_beat].
      unfold beatCounters, stepsLeft. cbn [pat step barsLeft].
      repeat split; try assumption; try lia.
  - assert (Hlt : step b + 1 < bp_steps p) by lia.
    rewrite (Z.mod_small (step b + 1)) by lia.
    assert (Hu : u8 (step b + 1) = step b + 1) by (unfold u8; apply Z.mod_small; lia).
    rewrite Hu. destruct (Z.eqb_spec (step b + 1) 0) as [?|_]; [lia|]. cbn [andb].
    assert (Hsl : stepsLeft p b <> 1) by (unfold stepsLeft; nia).
    destruct (Z.eqb_spec (stepsLeft p b) 1) as [?|_]; [contradiction|].
    cbv [bind modify when ret]. cbn [fst snd eng beat mode with_beat].
    unfold beatCounters, stepsLeft. cbn [pat step barsLeft].
    repeat split; try assumption; try lia.
Qed.

(** X16.  Every due step of a playing pattern counts [stepsLeft] down by
    one, whatever pulses and jitter the step brings; the step that takes
    it to zero ends the beat: the pattern is dropped, the mode returns
    to Normal and every lane runs again. *)
Theorem beat_step_counts_down now w p :
  beatCounters p (beat (eng w)) -> bp_steps p < 2 ^ 8 ->
  (sdiff now (nextStepAt (beat (eng w))) <? 0) = false ->
  let w' := snd (handleBeat now w) in
  if stepsLeft p (beat (eng w)) =? 1 then
    pat (beat (eng w')) = None /\ mode (eng w') = MODE_NORMAL
    /\ NLANES (eng w') = NLANES (eng w)
    /\ (forall j L, lanes (eng w') !! j = Some L -> running L = true)
  else
    beatCounters p (beat (eng w'))
    /\ stepsLeft p (beat (eng w')) = stepsLeft p (beat (eng w)) - 1
    /\ mode (eng w') = mode (eng w).
Proof. exact (handleBeat_counts now w p). Qed.

(** [k] steps of the playing pattern, each handled at the moment it
    falls due. *)
Fixpoint playSteps (k : nat) (w : World) : World :=
  match k with
  | O => w
  | S k' => playSteps k' (snd (handleBeat (nextStepAt (beat (eng w))) w))
  end.

Lemma playSteps_snoc k : forall w,
  playSteps (S k) w
  = snd (handleBeat (nextStepAt (beat (eng (playSteps k w)))) (playSteps k w)).
Proof.
  induction k as [|k IH]; intros w; [reflexivity|].
  change (playSteps (S (S k)) w)
    with (playSteps (S k) (snd (handleBeat (nextStepAt (beat (eng w))) w))).
  rewrite IH. reflexivity.
Qed.

Lemma due_now t : (sdiff t t <? 0) = false.
Proof. unfold sdiff. rewrite Z.sub_diag. reflexivity. Qed.

Lemma playSteps_counts p k : forall w,
  beatCounters p (beat (eng w)) -> bp_steps p < 2 ^ 8 ->
  Z.of_nat k < stepsLeft p (beat (eng w)) ->
  beatCounters p (beat (eng (playSteps k w)))
  /\ stepsLeft p (beat (eng (playSteps k w))) = stepsLeft p (beat (eng w)) - Z.of_nat k
  /\ mode (eng (playSteps k w)) = mode (eng w).
Proof.
  induction k as [|k IH]; intros w Hc H8 Hk.
  - cbn [playSteps]. split; [exact Hc|]. split; [lia | reflexivity].
  - cbn [playSteps].
    pose proof (handleBeat_counts (nextStepAt (beat (eng w))) w p Hc H8 (due_now _)) as Hstep.
    cbv zeta in Hstep.
    destruct (Z.eqb_spec (stepsLeft p (beat (eng w))) 1) as [?|_]; [lia|].
    destruct Hstep as (Hc' & Hs' & Hm').
    destruct (IH _ Hc' H8 ltac:(lia)) as (Hc2 & Hs2 & Hm2).
    split; [exact Hc2|]. split; [lia | congruence].
Qed.

(** X17.  A pattern plays exactly [bars * steps] steps.  After
    [startBeat], which stops every lane and clears its transients, the
    mode is Beat through the first [bars * steps - 1] due steps, and the
    step after them ends the beat: the pattern is dropped, the mode is
    Normal again and every lane runs. *)
Theorem beat_plays_bars_times_steps p w :
  0 < bp_steps p < 2 ^ 8 -> 0 < bp_bars p < 2 ^ 8 ->
  let w0 := snd (startBeat p w) in
  let total := Z.to_nat (bp_bars p * bp_steps p) in
  lanes (eng w0) = (fun L => set_running false (clearTransients L)) <$> lanes (eng w)
  /\ (forall k, (k < total)%nat ->
        mode (eng (playSteps k w0)) = MODE_BEAT
        /\ pat (beat (eng (playSteps k w0))) = Some p)
  /\ mode (eng (playSteps total w0)) = MODE_NORMAL
  /\ pat (beat (eng (playSteps total w0))) = None
  /\ (forall j L, lanes (eng (playSteps total w0)) !! j = Some L -> running L = true).
Proof.
  intros Hs Hb w0 total.
  destruct (startBeat_counts p w) as (Hp0 & Hl0 & Hlanes & Hm0 & _).
  fold w0 in Hp0, Hl0, Hlanes, Hm0.
  assert (Hc0 : beatCounters p (beat (eng w0))).
  { split; [exact Hp0|]. subst w0. unfold startBeat.
    cbv [bind clearTransientsAll mapLanes modify millis reading ret setMode].
    cbn [fst snd eng beat with_lanes with_beat with_mode step barsLeft]. lia. }
  assert (Htot : Z.of_nat total = bp_bars p * bp_steps p) by (subst total; nia).
  split; [exact Hlanes|]. split.
  - intros k Hk.
    destruct (playSteps_counts p k w0 Hc0 ltac:(lia) ltac:(lia)) as ((Hpk & _) & _ & Hmk).
    split; [congruence | exact Hpk].
  - assert (Hpos : (0 < total)%nat) by nia.
    destruct total as [|m]; [lia|].
    destruct (playSteps_counts p m w0 Hc0 ltac:(lia) ltac:(lia)) as (Hcm & Hsm & Hmm).
    rewrite playSteps_snoc.
    pose proof (handleBeat_counts (nextStepAt (beat (eng (playSteps m w0)))) (playSteps m w0) p
                  Hcm ltac:(lia) (due_now _)) as Hstep.
    cbv zeta in Hstep.
    destruct (Z.eqb_spec (stepsLeft p (beat (eng (playSteps m w0)))) 1) as [_|?]; [|lia].
    destruct Hstep as (Hp' & Hm' & _ & Hr'). auto.
Qed.


(** *** The subtle glitch *)

(** What a glitch leaves alone on the lane it picks. *)
Definition sameBody (L0 L : Lane) : Prop :=
  baseHz L = baseHz L0 /\ running L = running L0 /\ nextDue L = nextDue L0
  /\ nextFree L = nextFree L0 /\ coilOffAt L = coilOffAt L0 /\ pol L = pol L0
  /\ minute L = minute L0 /\ savedHz L = savedHz L0.

(** X18.  The fallback glitch changes one listed lane and nothing else:
    on the lane it picks it writes transients only (a nudge, a freeze or
    a burst), and it leaves every other lane, the mode, the effect state
    and the actuator alone. *)
Theorem subtle_glitch_touches_one_lane w :
  (1 <= NLANES (eng w))%nat ->
  exists i f,
    (i < NLANES (eng w))%nat
    /\ (forall L, sameBody L (f L))
    /\ eng (snd (subtleGlitch w)) = with_lanes (alter f i (lanes (eng w))) (eng w).
Proof.
  intros HN.
  pose proof (random_bounds 0 (Z.of_nat (NLANES (eng w))) w ltac:(lia)) as Hi.
  exists (Z.to_nat (fst (random 0 (Z.of_nat (NLANES (eng w))) w))).
  unfold subtleGlitch. unfold bind at 1 2 3. unfold get. cbn [fst snd].
  remember (random 0 (Z.of_nat (NLANES (eng w))) w) as pick eqn:Epick.
  assert (Ee : eng (snd pick) = eng w) by (subst pick; apply random_eng).
  remember (random 0 100 (snd pick)) as g eqn:Eg.
  assert (Eg' : eng (snd g) = eng (snd pick)) by (subst g; apply random_eng).
  destruct (fst g <? 40); [|destruct (fst g <? 65)].
  - unfold bind at 1 2. remember (random 0 2 (snd g)) as s eqn:Es.
    assert (Es' : eng (snd s) = eng (snd g)) by (subst s; apply random_eng).
    remember (random 30 100 (snd s)) as p eqn:Ep.
    assert (Ep' : eng (snd p) = eng (snd s)) by (subst p; apply random_eng).
    eexists (fun L => set_nudgeUntil _ (set_nudgeMul _ L)).
    split; [lia|]. split; [repeat split|].
    cbv [bind rng esp_random ret updLane modify millis reading].
    cbn [fst snd eng clk rnd lanes with_lanes].
    rewrite list_alter_alter_eq. rewrite Ep', Es', Eg', Ee. reflexivity.
  - eexists (fun L => set_freezeUntil _ L). split; [lia|]. split; [repeat split|].
    cbv [bind rng esp_random ret updLane modify millis reading].
    cbn [fst snd eng clk rnd lanes with_lanes].
    rewrite Eg', Ee. reflexivity.
  - eexists (fun L => set_burstRemain _ L). split; [lia|]. split; [repeat split|].
    cbv [bind burstPulses rng esp_random ret updLane modify].
    cbn [fst snd eng clk rnd lanes with_lanes].
    rewrite Eg', Ee. reflexivity.
Qed.


(** *** Email storm *)

Lemma burstPulses_bounds w :
  0 <= BURST_MIN_PULSES cfg -> BURST_MIN_PULSES cfg <= BURST_MAX_PULSES cfg ->
  BURST_MAX_PULSES cfg < 2 ^ 8 ->
  BURST_MIN_PULSES cfg <= fst (burstPulses w) <= BURST_MAX_PULSES cfg
  /\ eng (snd (burstPulses w)) = eng w.
Proof.
  intros H0 Hle H8. split; [|reflexivity].
  pose proof (rng_bounds (BURST_MIN_PULSES cfg) (BURST_MAX_PULSES cfg) w
                ltac:(lia) Hle ltac:(lia) ltac:(lia)) as Hb.
  unfold burstPulses, bind, ret. cbn [fst snd].
  unfold u8. rewrite Z.mod_small; lia.
Qed.

(** X19.  A storm tick with two lanes or more grants bursts to two
    different listed lanes, each of [BURST_MIN_PULSES..BURST_MAX_PULSES]
    pulses, and sets the next tick
    [STORM_TICK_MIN_MS..STORM_TICK_MAX_MS] after [now]; nothing else in
    the engine changes. *)
Theorem storm_tick_grants_two_bursts now w :
  (2 <= NLANES (eng w))%nat ->
  0 <= BURST_MIN_PULSES cfg -> BURST_MIN_PULSES cfg <= BURST_MAX_PULSES cfg ->
  BURST_MAX_PULSES cfg < 2 ^ 8 ->
  0 <= STORM_TICK_MIN_MS cfg -> STORM_TICK_MIN_MS cfg <= STORM_TICK_MAX_MS cfg ->
  STORM_TICK_MAX_MS cfg < 2 ^ 31 - 1 ->
  passed now (stormEnd (storm (eng w))) = false ->
  passed now (nextStormTick (storm (eng w))) = true ->
  exists i j b1 b2 r,
    i <> j /\ (i < NLANES (eng w))%nat /\ (j < NLANES (eng w))%nat
    /\ BURST_MIN_PULSES cfg <= b1 <= BURST_MAX_PULSES cfg
    /\ BURST_MIN_PULSES cfg <= b2 <= BURST_MAX_PULSES cfg
    /\ STORM_TICK_MIN_MS cfg <= r <= STORM_TICK_MAX_MS cfg
    /\ eng (snd (handleEmailStorm now w))
       = with_storm {| stormEnd := stormEnd (storm (eng w));
                       nextStormTick := u32 (now + r) |}
           (with_lanes (alter (set_burstRemain b2) j
                          (alter (set_burstRemain b1) i (lanes (eng w))))
              (eng w)).
Proof.
  intros HN Hb0 Hble Hb8 Ht0 Htle Htmax Hend Htick.
  destruct (pickTwoDistinct_some w HN) as (i & j & Ep & Hi & Hj & Hij & Ee).
  set (w1 := snd (pickTwoDistinct w)) in *.
  set (w2 := snd (grantBurst i w1)).
  set (w3 := snd (grantBurst j w2)).
  assert (E : eng (snd (handleEmailStorm now w))
              = with_storm
                  {| stormEnd := stormEnd (storm (eng w3));
                     nextStormTick :=
                       u32 (now + fst (rng (i32 (STORM_TICK_MIN_MS cfg))
                                         (i32 (STORM_TICK_MAX_MS cfg)) w3)) |}
                  (eng w3)).
  { unfold handleEmailStorm. unfold bind at 1. unfold get. cbn [fst snd].
    rewrite Hend, Htick. cbn [when]. unfold bind at 1. rewrite Ep. reflexivity. }
  rewrite E. clear E.
  rewrite (i32_small (STORM_TICK_MIN_MS cfg)), (i32_small (STORM_TICK_MAX_MS cfg)) by lia.
  destruct (burstPulses_bounds w1 Hb0 Hble Hb8) as (Hb1 & _).
  destruct (burstPulses_bounds w2 Hb0 Hble Hb8) as (Hb2 & _).
  pose proof (rng_bounds (STORM_TICK_MIN_MS cfg) (STORM_TICK_MAX_MS cfg) w3
                ltac:(lia) Htle ltac:(lia) ltac:(lia)) as Hr.
  exists (Z.to_nat i), (Z.to_nat j), (fst (burstPulses w1)), (fst (burstPulses w2)),
         (fst (rng (STORM_TICK_MIN_MS cfg) (STORM_TICK_MAX_MS cfg) w3)).
  split; [lia|]. split; [lia|]. split; [lia|].
  split; [exact Hb1|]. split; [exact Hb2|]. split; [exact Hr|].
  assert (E3 : eng w3 = with_lanes
                          (alter (set_burstRemain (fst (burstPulses w2))) (Z.to_nat j)
                             (alter (set_burstRemain (fst (burstPulses w1))) (Z.to_nat i)
                                (lanes (eng w))))
                          (eng w)).
  { rewrite <- Ee. reflexivity. }
  rewrite E3. reflexivity.
Qed.


(** *** Reorg: a full cycle *)

(** [k] reorg swaps in a row. *)
Definition reorgs (k : nat) (w : World) : World :=
  Nat.iter k (fun w => snd (reorgSwap w)) w.

Lemma reorgSwap_step w :
  let n := NLANES (eng w) in
  NLANES (eng (snd (reorgSwap w))) = n
  /\ forall j, (j < n)%nat ->
       hzAt (lanes (eng (snd (reorgSwap w)))) j = hzAt (lanes (eng w)) ((j + 1) mod n).
Proof.
  intros n. destruct (Nat.lt_ge_cases n 2) as [Hn|Hn].
  - rewrite reorgSwap_small by exact Hn. split; [reflexivity|].
    intros j Hj. assert (n = 1%nat) by lia. assert (j = 0%nat) by lia. subst j.
    replace n with 1%nat by lia. reflexivity.
  - rewrite reorgSwap_spec by exact Hn. unfold NLANES in *.
    cbn [eng lanes with_lanes]. split; [apply length_imap|].
    intros j Hj. unfold hzAt at 1. rewrite list_lookup_imap.
    destruct (lookup_lt_is_Some_2 (lanes (eng w)) j Hj) as [L HL].
    rewrite HL. reflexivity.
Qed.

Lemma reorgs_rotate k w :
  let n := NLANES (eng w) in
  NLANES (eng (reorgs k w)) = n
  /\ forall j, (j < n)%nat ->
       hzAt (lanes (eng (reorgs k w))) j = hzAt (lanes (eng w)) ((j + k) mod n).
Proof.
  intros n. induction k as [|k [IHn IH]].
  - split; [reflexivity|]. intros j Hj. cbn [reorgs Nat.iter].
    rewrite Nat.add_0_r, Nat.mod_small by exact Hj. reflexivity.
  - change (reorgs (S k) w) with (snd (reorgSwap (reorgs k w))).
    destruct (reorgSwap_step (reorgs k w)) as [Hlen Hhz]. rewrite IHn in Hlen, Hhz.
    split; [exact Hlen|]. intros j Hj.
    rewrite (Hhz j Hj). rewrite IH by (apply Nat.mod_upper_bound; lia).
    f_equal. rewrite Nat.Div0.add_mod_idemp_l. f_equal. lia.
Qed.

Lemma reorgs_restore w :
  baseHz <$> lanes (eng (reorgs (NLANES (eng w)) w)) = baseHz <$> lanes (eng w).
Proof.
  destruct (reorgs_rotate (NLANES (eng w)) w) as [Hlen Hhz]. unfold NLANES in *.
  apply list_eq_same_length with (length (lanes (eng w))).
  - rewrite length_fmap. reflexivity.
  - rewrite length_fmap. exact Hlen.
  - intros j x y Hj. rewrite !list_lookup_fmap. specialize (Hhz j Hj).
    rewrite Nat.Div0.add_mod, Nat.Div0.mod_same, Nat.add_0_r, Nat.Div0.mod_mod in Hhz.
    rewrite Nat.mod_small in Hhz by exact Hj. unfold hzAt in Hhz.
    destruct (lookup_lt_is_Some_2 (lanes (eng w)) j Hj) as [L HL].
    destruct (lookup_lt_is_Some_2 (lanes (eng (reorgs (length (lanes (eng w))) w))) j
                ltac:(lia)) as [L' HL'].
    rewrite HL, HL' in *. cbn in *. congruence.
Qed.

(** X20.  Reorg rotates the tempos by one place: with two lanes or more,
    lane [i] takes the former [baseHz] of lane [i + 1], the last lane
    that of the first, and is due one period (at its new tempo) after
    its own clock reading; no other lane field and nothing else in the
    engine changes, and with fewer than two lanes reorg does nothing.
    So [k] reorg swaps rotate the tempos by [k] places, and as many
    swaps as there are lanes give every lane its original [baseHz]
    back. *)
Theorem reorg_full_cycle w :
  let n := NLANES (eng w) in
  ((2 <= n)%nat ->
     forall i L, lanes (eng w) !! i = Some L ->
       lanes (eng (snd (reorgSwap w))) !! i
       = Some (let L1 := set_baseHz (hzAt (lanes (eng w)) ((i + 1) mod n)) L in
               set_nextDue (u32 (u32 (clock (clk w + i)) + periodMs L1)) L1))
  /\ ((n < 2)%nat -> reorgSwap w = (tt, w))
  /\ eng (snd (reorgSwap w)) = with_lanes (lanes (eng (snd (reorgSwap w)))) (eng w)
  /\ (forall k,
        NLANES (eng (reorgs k w)) = n
        /\ forall i, (i < n)%nat ->
             hzAt (lanes (eng (reorgs k w))) i = hzAt (lanes (eng w)) ((i + k) mod n))
  /\ baseHz <$> lanes (eng (reorgs n w)) = baseHz <$> lanes (eng w).
Proof.
  intros n. split; [|split; [|split; [|split]]].
  - intros Hn i L HL. rewrite reorgSwap_spec by exact Hn.
    cbn [eng lanes with_lanes]. rewrite list_lookup_imap, HL. reflexivity.
  - intros Hn. apply reorgSwap_small, Hn.
  - destruct (Nat.lt_ge_cases n 2) as [Hn|Hn].
    + rewrite reorgSwap_small by exact Hn. cbn [snd]. destruct (eng w); reflexivity.
    + rewrite reorgSwap_spec by exact Hn. reflexivity.
  - intros k. exact (reorgs_rotate k w).
  - exact (reorgs_restore w).
Qed.


(** *** A whole tick during a silence *)

(** Every listed lane is stopped and has no burst pending. *)
Definition quiet (e : Engine) : Prop :=
  forall j L, lanes e !! j = Some L -> running L = false /\ burstRemain L = 0.

Definition isOff (ev : Event) : Prop :=
  match ev with Deenergize _ => True | Energize _ _ _ => False end.

(** The trace [tr] extends [tr0] by de-energize events only. *)
Definition offOnly (tr0 tr : list Event) : Prop :=
  exists new, tr = new ++ tr0 /\ Forall isOff new.

Lemma scheduler_quiet fuel now k : forall s w,
  quiet (eng w) -> (s + k <= NLANES (eng w))%nat ->
  exists w',
    forEachL (seq s k) (scheduleLane fuel now) w = Some (tt, w')
    /\ quiet (eng w') /\ NLANES (eng w') = NLANES (eng w)
    /\ offOnly (trace (eng w)) (trace (eng w'))
    /\ mode (eng w') = mode (eng w) /\ modeEndsAt (eng w') = modeEndsAt (eng w)
    /\ clk w' = clk w /\ rnd w' = rnd w.
Proof.
  induction k as [|k IH]; intros s w Hq Hk.
  - exists w. split; [reflexivity|]. split; [exact Hq|]. split; [reflexivity|].
    split; [exists []; split; [reflexivity | constructor]|]. repeat split.
  - destruct (lookup_lt_is_Some_2 (lanes (eng w)) s ltac:(unfold NLANES in Hk; lia)) as [L HL].
    destruct (Hq s L HL) as [Hrun Hb].
    destruct (scheduleLane_stopped fuel now s w L HL Hrun Hb)
      as (w1 & L1 & E1 & HL1 & Hr1 & Hb1 & _ & _ & Hoth & Htr & Hm & Hc & Hn & Hme).
    assert (Hq1 : quiet (eng w1)).
    { intros j Lj Hj. destruct (decide (j = s)) as [->|Hne].
      - rewrite HL1 in Hj. injection Hj as <-. auto.
      - rewrite Hoth in Hj by exact Hne. eapply Hq, Hj. }
    assert (Hn1 : NLANES (eng w1) = NLANES (eng w)).
    { unfold NLANES. apply Nat.le_antisymm.
      - apply Nat.nlt_ge. intros Hlt.
        destruct (lookup_lt_is_Some_2 (lanes (eng w1)) (length (lanes (eng w))) Hlt) as [x Hx].
        assert (length (lanes (eng w)) <> s) by (apply lookup_lt_Some in HL; lia).
        rewrite Hoth in Hx by assumption. apply lookup_lt_Some in Hx. lia.
      - apply Nat.nlt_ge. intros Hlt.
        destruct (lookup_lt_is_Some_2 (lanes (eng w)) (length (lanes (eng w1))) Hlt) as [x Hx].
        assert (length (lanes (eng w1)) <> s) by (apply lookup_lt_Some in HL1; lia).
        rewrite <- Hoth in Hx by assumption. apply lookup_lt_Some in Hx. lia. }
    destruct (IH (S s) w1 Hq1 ltac:(lia))
      as (w' & E & Hq' & Hn' & (new & Etr & Hall) & Hm' & Hme' & Hc' & Hr').
    exists w'. split.
    { cbn [seq forEachL]. unfold bindL at 1. rewrite E1. exact E. }
    split; [exact Hq'|]. split; [congruence|]. split; [|repeat split; congruence].
    destruct Htr as [Htr|Htr]; rewrite Htr in Etr.
    + exists new. auto.
    + exists (new ++ [Deenergize s]). rewrite <- app_assoc. split; [exact Etr|].
      apply Forall_app. split; [exact Hall|]. repeat constructor.
Qed.

Lemma loop_paused fuel w :
  quiet (eng w) ->
  mode (eng w) = MODE_LONG_PAUSE \/ mode (eng w) = MODE_STAGGER_BLACKOUT ->
  passed (u32 (clock (clk w))) (modeEndsAt (eng w)) = false ->
  exists w',
    loop fuel w = Some (tt, w')
    /\ quiet (eng w') /\ NLANES (eng w') = NLANES (eng w)
    /\ offOnly (trace (eng w)) (trace (eng w'))
    /\ mode (eng w') = mode (eng w) /\ modeEndsAt (eng w') = modeEndsAt (eng w)
    /\ clk w' = S (clk w) /\ rnd w' = rnd w.
Proof.
  intros Hq Hmode Hdl.
  set (w0 := {| eng := eng w; clk := S (clk w); rnd := rnd w |}).
  assert (Hnn : mode (eng w0) <> MODE_NORMAL)
    by (destruct Hmode as [E|E]; cbn; rewrite E; discriminate).
  destruct (scheduler_quiet fuel (u32 (clock (clk w))) (NLANES (eng w0)) 0 w0 Hq ltac:(lia))
    as (w' & E & H).
  exists w'. split; [|exact H].
  unfold loop. rewrite bindL_lift. cbn [millis reading bind ret fst snd]. fold w0.
  unfold bindL at 1. rewrite (considerEffect_busy _ _ w0 Hnn).
  rewrite bindL_lift.
  assert (Hh : handleMode (u32 (clock (clk w))) w0 = (tt, w0)).
  { unfold handleMode, bind, get. cbn [fst snd]. change (eng w0) with (eng w).
    destruct Hmode as [Em|Em]; rewrite Em, Hdl; reflexivity. }
  rewrite Hh. cbn [fst snd]. rewrite bindL_lift.
  assert (Hw : watchdog (u32 (clock (clk w))) w0 = (tt, w0)).
  { unfold watchdog, bind, get. cbn [fst snd].
    rewrite (bool_decide_eq_false_2 _ Hnn), andb_false_r. reflexivity. }
  rewrite Hw. cbn [fst snd]. rewrite bindL_lift. cbn [get fst snd]. exact E.
Qed.

(** X21.  During a long pause or a stagger blackout whose deadline has
    not come, with every lane stopped and no burst pending (as those
    effects leave them), a whole pass through [loop] returns, whatever
    the loop bound, and energizes nothing: the trace grows by
    de-energize events only, the lanes stay stopped, mode and deadline
    stay as they are and one clock reading is taken.  The premises hold
    again at the next pass, up to the deadline. *)
Theorem paused_tick_is_silent fuel w :
  quiet (eng w) ->
  mode (eng w) = MODE_LONG_PAUSE \/ mode (eng w) = MODE_STAGGER_BLACKOUT ->
  passed (u32 (clock (clk w))) (modeEndsAt (eng w)) = false ->
  exists w',
    loop fuel w = Some (tt, w')
    /\ quiet (eng w') /\ NLANES (eng w') = NLANES (eng w)
    /\ offOnly (trace (eng w)) (trace (eng w'))
    /\ mode (eng w') = mode (eng w) /\ modeEndsAt (eng w') = modeEndsAt (eng w)
    /\ clk w' = S (clk w) /\ rnd w' = rnd w.
Proof. exact (loop_paused fuel w). Qed.

Lemma offOnly_refl tr : offOnly tr tr.
Proof. exists []. split; [reflexivity | constructor]. Qed.

Lemma offOnly_trans tr0 tr1 tr2 :
  offOnly tr0 tr1 -> offOnly tr1 tr2 -> offOnly tr0 tr2.
Proof.
  intros (n1 & -> & H1) (n2 & -> & H2). exists (n2 ++ n1).
  rewrite app_assoc. split; [reflexivity|]. apply Forall_app. auto.
Qed.

(** Any number of passes, all before the deadline. *)
Lemma ticks_paused fuel n : forall w,
  quiet (eng w) ->
  mode (eng w) = MODE_LONG_PAUSE \/ mode (eng w) = MODE_STAGGER_BLACKOUT ->
  (forall k, (k < n)%nat ->
     passed (u32 (clock (clk w + k))) (modeEndsAt (eng w)) = false) ->
  exists w',
    ticks fuel n w = Some (tt, w')
    /\ quiet (eng w') /\ NLANES (eng w') = NLANES (eng w)
    /\ offOnly (trace (eng w)) (trace (eng w'))
    /\ mode (eng w') = mode (eng w) /\ modeEndsAt (eng w') = modeEndsAt (eng w)
    /\ clk w' = (clk w + n)%nat /\ rnd w' = rnd w.
Proof.
  induction n as [|n IH]; intros w Hq Hmode Hdl.
  - exists w. split; [reflexivity|]. split; [exact Hq|]. split; [reflexivity|].
    split; [apply offOnly_refl|]. repeat split. lia.
  - destruct (loop_paused fuel w Hq Hmode) as (w1 & E1 & Hq1 & Hn1 & Ht1 & Hm1 & He1 & Hc1 & Hr1).
    { rewrite <- (Nat.add_0_r (clk w)). apply Hdl. lia. }
    destruct (IH w1 Hq1) as (w' & E & Hq' & Hn' & Ht' & Hm' & He' & Hc' & Hr').
    { rewrite Hm1. exact Hmode. }
    { intros k Hk. rewrite He1, Hc1.
      replace (S (clk w) + k)%nat with (clk w + S k)%nat by lia. apply Hdl. lia. }
    exists w'. split.
    { cbn [ticks]. unfold bindL at 1. rewrite E1. exact E. }
    split; [exact Hq'|]. split; [congruence|].
    split; [eapply offOnly_trans; eassumption|].
    split; [congruence|]. split; [congruence|]. split; [lia | congruence].
Qed.

(** The release of a stagger blackout, as the dispatcher performs it. *)
Lemma endStaggerBlackout_spec w :
  snd (endStaggerBlackout w)
  = {| eng := with_mode MODE_NORMAL
                (with_lanes
                   (imap (relaunched (set_running true)
                            (fun i => 100 + i32 (20 * Z.of_nat i)) w 0)
                      (lanes (eng w))) (eng w));
       clk := (clk w + NLANES (eng w))%nat;
       rnd := (rnd w + NLANES (eng w))%nat |}.
Proof.
  unfold endStaggerBlackout. unfold bind at 1. cbv beta.
  change (fun i : nat => relaunch (set_running true) (100 + i32 (20 * Z.of_nat i)) i)
    with (fun i : nat => relaunch (set_running true)
                           ((fun i => 100 + i32 (20 * Z.of_nat i)) i) i).
  rewrite relaunch_all. reflexivity.
Qed.

Lemma handleMode_stagger_release now w :
  mode (eng w) = MODE_STAGGER_BLACKOUT -> passed now (modeEndsAt (eng w)) = true ->
  handleMode now w = endStaggerBlackout w.
Proof.
  intros Hm Hp. unfold handleMode, bind, get. cbn [fst snd]. rewrite Hm, Hp. reflexivity.
Qed.

(** All lanes restart together: lane [j] running, due one period and
    [0 .. 100 + 20 * j] ms after its own clock reading. *)
Lemma stagger_release_lanes now w :
  mode (eng w) = MODE_STAGGER_BLACKOUT -> passed now (modeEndsAt (eng w)) = true ->
  20 * Z.of_nat (NLANES (eng w)) + 100 < 2 ^ 31 ->
  let w' := snd (handleMode now w) in
  mode (eng w') = MODE_NORMAL
  /\ trace (eng w') = trace (eng w)
  /\ forall j L, lanes (eng w) !! j = Some L ->
       exists r, 0 <= r <= 100 + 20 * Z.of_nat j
         /\ lanes (eng w') !! j
            = Some (set_nextDue (u32 (u32 (clock (clk w + j))
                                      + periodMs (set_running true L) + r))
                      (set_running true L)).
Proof.
  intros Hm Hp HN w'. subst w'.
  rewrite (handleMode_stagger_release now w Hm Hp), endStaggerBlackout_spec.
  cbn [eng lanes with_lanes with_mode mode trace].
  split; [reflexivity|]. split; [reflexivity|].
  intros j L HL.
  assert (Hj : (j < NLANES (eng w))%nat) by (eapply lookup_lt_Some, HL).
  unfold NLANES in *.
  destruct (relaunched_window (set_running true) (fun i => 100 + i32 (20 * Z.of_nat i)) w j L)
    as (r & Hr & Er).
  { cbv beta. rewrite i32_small by lia. lia. }
  cbv beta in Hr. rewrite i32_small in Hr by lia.
  exists r. split; [exact Hr|]. rewrite list_lookup_imap, HL. cbn. rewrite Er. reflexivity.
Qed.



(** What [startStaggerBlackout] leaves besides the freezes. *)
Lemma startStaggerBlackout_state w :
  let w' := snd (startStaggerBlackout w) in
  quiet (eng w')
  /\ mode (eng w') = MODE_STAGGER_BLACKOUT
  /\ trace (eng w') = trace (eng w)
  /\ NLANES (eng w') = NLANES (eng w)
  /\ clk w' = S (clk w) /\ rnd w' = rnd w.
Proof.
  intros w'. subst w'. unfold startStaggerBlackout, bind; simpl. split.
  - intros j L. cbn [lanes with_lanes with_mode with_modeEndsAt].
    rewrite list_lookup_imap, list_lookup_fmap.
    destruct (lanes (eng w) !! j); [|discriminate]. cbn. intros [= <-]. split; reflexivity.
  - unfold NLANES; simpl. rewrite length_imap, length_fmap. repeat split.
Qed.


(** *** Considering an effect *)

(** X22.  With a glitch probability whose per-mille value truncates to
    zero or less, no effect ever starts: considering an effect returns
    at once and can only move [lastTry]. *)
Theorem zero_probability_starts_nothing fuel now w :
  F32.trunc (F32.mul (GLITCH_PROB cfg) (F32.of_Z 1000)) <= 0 ->
  exists w',
    considerEffect fuel now w = Some (tt, w')
    /\ clk w' = clk w
    /\ (eng w' = eng w
        \/ exists t, eng w' = with_lastTry t (eng w)).
Proof.
  intros Hp. unfold considerEffect. rewrite bindL_lift. cbn [get fst snd].
  destruct (bool_decide (mode (eng w) = MODE_NORMAL) && passed now (lastTry (eng w))).
  - rewrite bindL_lift, rng_world. unfold bindL at 1. unfold lift at 1.
    cbv [modify drawn]. cbn [eng clk rnd]. rewrite bindL_lift.
    set (w1 := {| eng := with_lastTry _ (eng w); clk := clk w; rnd := S (rnd w) |}).
    pose proof (random_bounds 0 1000 w1 ltac:(lia)) as Hx.
    destruct (Z.ltb_spec (fst (random 0 1000 w1))
                (F32.trunc (F32.mul (GLITCH_PROB cfg) (F32.of_Z 1000)))) as [?|_]; [lia|].
    eexists. split; [reflexivity|].
    assert (E : snd (random 0 1000 w1) = drawn w1) by reflexivity.
    rewrite E. subst w1. cbn [drawn eng clk]. split; [reflexivity|]. right. eexists. reflexivity.
  - exists w. split; [reflexivity|]. split; [reflexivity|]. left. reflexivity.
Qed.


(** *** Naming lanes in the log *)

Section LaneTable.
Context {Ptr : Type} `{EqDecision Ptr}.

(** [laneIndex(L)] over the pointer table [LANES]: the loop from index
    [i] on, with the fall-through [return 0]. *)
Fixpoint scanFrom (LANES : list Ptr) (L : Ptr) (i : nat) : Z :=
  match LANES with
  | [] => 0
  | p :: rest => if decide (p = L) then i32 (Z.of_nat i) else scanFrom rest L (S i)
  end.

Definition laneIndex (LANES : list Ptr) (L : Ptr) : Z := scanFrom LANES L 0.

(** [(char)('A' + laneIndex(L))] *)
Definition laneName (LANES : list Ptr) (L : Ptr) : ascii :=
  ascii_of_N (Z.to_N (u8 (65 + laneIndex LANES L))).

Lemma scanFrom_listed (LANES : list Ptr) L : forall s i,
  NoDup LANES -> Z.of_nat (s + length LANES) < 2 ^ 31 ->
  LANES !! i = Some L -> scanFrom LANES L s = Z.of_nat (s + i).
Proof.
  induction LANES as [|p rest IH]; intros s i Hnd Hlen Hi; [discriminate|].
  apply NoDup_cons in Hnd as [Hp Hnd]. cbn [scanFrom]. cbn [length] in Hlen.
  destruct i as [|i]; cbn in Hi.
  - injection Hi as ->. rewrite decide_True by reflexivity.
    rewrite Nat.add_0_r. apply i32_small. lia.
  - rewrite decide_False.
    + rewrite (IH (S s) i Hnd) by (try exact Hi; lia). f_equal. lia.
    + intros ->. apply Hp. eapply list_elem_of_lookup_2, Hi.
Qed.

Lemma scanFrom_unlisted (LANES : list Ptr) L : forall s,
  L ∉ LANES -> scanFrom LANES L s = 0.
Proof.
  induction LANES as [|p rest IH]; intros s Hn; [reflexivity|].
  apply not_elem_of_cons in Hn as [Hne Hn]. cbn [scanFrom].
  rewrite decide_False by congruence. apply IH, Hn.
Qed.

(** X23.  On a table without repeated pointers [laneIndex] is the
    inverse of the table: the lane at index [i] is reported as [i].  A
    lane that the table does not list is reported as index 0, so the log
    names it ['A'], like the first lane. *)
Theorem laneIndex_inverts_table (LANES : list Ptr) :
  NoDup LANES -> Z.of_nat (length LANES) < 2 ^ 31 ->
  (forall i L, LANES !! i = Some L -> laneIndex LANES L = Z.of_nat i)
  /\ (forall L, L ∉ LANES ->
        laneIndex LANES L = 0 /\ laneName LANES L = "A"%char).
Proof.
  intros Hnd Hlen. split.
  - intros i L Hi. unfold laneIndex. rewrite (scanFrom_listed LANES L 0 i); auto.
  - intros L Hn. unfold laneName, laneIndex. rewrite scanFrom_unlisted by exact Hn.
    split; reflexivity.
Qed.

End LaneTable.

End Sketch.

(** * The stated properties *)

(** ** Stagger blackout *)

Definition quietClock : nat -> Z := fun _ => 0.
Definition noEntropy : nat -> Z := fun _ => 0.

(** Closed side conditions on concrete configurations. *)
Ltac concrete :=
  first [ cbn; lia
        | vm_compute; first [ reflexivity | intro; discriminate | lia ] ].

(** The freeze durations alone. *)
Lemma stagger_durations (cfg : Config) (clock : nat -> Z) (w : World) :
  0 <= STAGGER_SILENCE_MS cfg ->
  0 <= STAGGER_STOP_STEP_MS cfg ->
  STAGGER_SILENCE_MS cfg
    + STAGGER_STOP_STEP_MS cfg * (Z.of_nat (NLANES (eng w)) - 1) < 2 ^ 31 ->
  let n := NLANES (eng w) in
  let now := u32 (clock (clk w)) in
  let w' := snd (startStaggerBlackout cfg clock w) in
  let dur i := sdiff (freezeUntil (laneAt (eng w') i)) now in
  (forall i, (i < n)%nat ->
     dur i = STAGGER_SILENCE_MS cfg
             + STAGGER_STOP_STEP_MS cfg * (Z.of_nat n - 1 - Z.of_nat i))
  /\ (forall i, (i < n)%nat ->
        dur (n - 1)%nat = STAGGER_SILENCE_MS cfg /\ dur (n - 1)%nat <= dur i <= dur 0%nat).
Proof.
  intros Hs Hp Hb n now w' dur.
  assert (Hdur : forall i, (i < n)%nat ->
            dur i = STAGGER_SILENCE_MS cfg
                    + STAGGER_STOP_STEP_MS cfg * (Z.of_nat n - 1 - Z.of_nat i)).
  { intros i Hi. subst dur w'. cbv beta.
    destruct (lookup_lt_is_Some_2 (lanes (eng w)) i Hi) as [L HL].
    unfold laneAt. rewrite (startStaggerBlackout_lane cfg clock w i L HL). simpl.
    apply sdiff_after. fold n. nia. }
  split; [exact Hdur|].
  intros i Hi.
  rewrite (Hdur i Hi), (Hdur (n - 1)%nat), (Hdur 0%nat) by lia.
  split; [|split]; nia.
Qed.

(** The scenario: four lanes as shipped (3500 ms window, 700 ms step), the
    blackout started at 0 ms; [loop] then passes at 3500, 4200 and
    4900 ms, the three shorter freeze ends, at 5599 ms, and from 5600 ms
    on, the longest freeze end. *)
Definition scenarioClock (k : nat) : Z := nth k [0; 3500; 4200; 4900; 5599] 5600.

Definition scenarioStart : World :=
  snd (startStaggerBlackout default_config scenarioClock (boot default_config)).

(** The world after [k] passes of the scenario. *)
Definition scenarioAfter (k : nat) : option World :=
  match ticks default_config scenarioClock noEntropy 4 k scenarioStart with
  | Some (_, w) => Some w
  | None => None
  end.

(** Lane [i] has resumed in [w]: it runs again, or it has pulsed. *)
Definition resumed (i : nat) (w : World) : Prop :=
  running (laneAt (eng w) i) = true
  \/ exists p t, In (Energize i p t) (trace (eng w)).

(** C9, as stated, fails: the lane with the shortest freeze does not
    resume first.  In the scenario lane D's freeze ends at 3500 ms, yet
    at none of the passes at 3500, 4200, 4900 and 5599 ms has lane D
    resumed: [startStaggerBlackout] also stops every lane, and the
    scheduler skips a stopped lane whatever its freeze. *)
Lemma stagger_shortest_freeze_does_not_resume_first :
  ~ (exists k w1, (1 <= k <= 4)%nat /\ scenarioAfter k = Some w1 /\ resumed 3 w1).
Proof.
  intros (k & w1 & Hk & E & H).
  assert (Hcases : k = 1%nat \/ k = 2%nat \/ k = 3%nat \/ k = 4%nat) by lia.
  destruct Hcases as [-> | [-> | [-> | ->]]];
    vm_compute in E; injection E as <-;
    (destruct H as [H | (p & t & H)]; [vm_compute in H; discriminate H | exact H]).
Qed.

(** C9, amended.  [startStaggerBlackout] freezes lane [i] until
    [STAGGER_SILENCE_MS + STAGGER_STOP_STEP_MS * (N - 1 - i)] ms after
    the reading it took, on the wrapping clock: the lane at index
    [N - 1] gets exactly the silence window, the shortest freeze, and
    index 0 the longest.  It also stops every lane and sets the mode's
    deadline to the end of the longest freeze.  So no lane resumes at
    the end of its own freeze: through any number of passes of [loop]
    made before the deadline nothing is energized and every lane stays
    stopped (by [running], so even a freeze deadline that wraps to 0
    changes nothing); at the first dispatch past the deadline
    [endStaggerBlackout] restarts all lanes together, lane [j] due one
    period and [0 .. 100 + 20 * j] ms after its own clock reading.  With
    the shipped 3500 ms window, 700 ms step and four lanes, started at
    time 0, the freezes end at 5600, 4900, 4200 and 3500 ms for indices
    0, 1, 2, 3; after the passes at 3500, 4200, 4900 and 5599 ms no
    lane runs and none has pulsed, and the pass at 5600 ms sets all
    four running. *)
Theorem stagger_freezes_then_joint_release (cfg : Config) (clock entropy : nat -> Z)
    (fuel : nat) (w : World) :
  0 <= STAGGER_SILENCE_MS cfg ->
  0 <= STAGGER_STOP_STEP_MS cfg ->
  STAGGER_SILENCE_MS cfg
    + STAGGER_STOP_STEP_MS cfg * (Z.of_nat (NLANES (eng w)) - 1) < 2 ^ 31 ->
  20 * Z.of_nat (NLANES (eng w)) + 100 < 2 ^ 31 ->
  let n := NLANES (eng w) in
  let now := u32 (clock (clk w)) in
  let w' := snd (startStaggerBlackout cfg clock w) in
  let dur i := sdiff (freezeUntil (laneAt (eng w') i)) now in
  let freezeEnd i :=
    u32 (now + (STAGGER_SILENCE_MS cfg
                + STAGGER_STOP_STEP_MS cfg * (Z.of_nat n - 1 - Z.of_nat i))) in
  (* the freezes *)
  (forall i, (i < n)%nat ->
     dur i = STAGGER_SILENCE_MS cfg
             + STAGGER_STOP_STEP_MS cfg * (Z.of_nat n - 1 - Z.of_nat i))
  /\ (forall i, (i < n)%nat ->
        dur (n - 1)%nat = STAGGER_SILENCE_MS cfg /\ dur (n - 1)%nat <= dur i <= dur 0%nat)
  (* every lane is stopped, and the deadline is the longest freeze *)
  /\ (forall i L, lanes (eng w) !! i = Some L ->
        lanes (eng w') !! i
        = Some (set_running false (set_freezeUntil (freezeEnd i) (clearTransients L))))
  /\ mode (eng w') = MODE_STAGGER_BLACKOUT
  /\ modeEndsAt (eng w') = freezeEnd 0%nat
  /\ trace (eng w') = trace (eng w)
  (* no lane resumes before the deadline; all restart together after it *)
  /\ (forall k,
        (forall j, (j < k)%nat ->
           passed (u32 (clock (clk w' + j)%nat)) (modeEndsAt (eng w')) = false) ->
        exists w1,
          ticks cfg clock entropy fuel k w' = Some (tt, w1)
          /\ (forall j L, lanes (eng w1) !! j = Some L -> running L = false)
          /\ offOnly (trace (eng w)) (trace (eng w1))
          /\ mode (eng w1) = MODE_STAGGER_BLACKOUT
          /\ modeEndsAt (eng w1) = modeEndsAt (eng w')
          /\ forall t, passed t (modeEndsAt (eng w')) = true ->
               let w2 := snd (handleMode cfg clock entropy t w1) in
               mode (eng w2) = MODE_NORMAL
               /\ trace (eng w2) = trace (eng w1)
               /\ forall j L, lanes (eng w1) !! j = Some L ->
                    exists r, 0 <= r <= 100 + 20 * Z.of_nat j
                      /\ lanes (eng w2) !! j
                         = Some (set_nextDue
                                   (u32 (u32 (clock (clk w1 + j)%nat)
                                         + periodMs (set_running true L) + r))
                                   (set_running true L)))
  (* the scenario *)
  /\ freezeUntil <$> lanes (eng scenarioStart) = [5600; 4900; 4200; 3500]
  /\ modeEndsAt (eng scenarioStart) = 5600
  /\ match scenarioAfter 4 with
     | Some w1 => running <$> lanes (eng w1) = [false; false; false; false]
                  /\ trace (eng w1) = []
     | None => False
     end
  /\ match scenarioAfter 5 with
     | Some w2 => running <$> lanes (eng w2) = [true; true; true; true]
                  /\ mode (eng w2) = MODE_NORMAL
     | None => False
     end.
Proof.
  intros Hs Hp Hb HN n now w' dur freezeEnd.
  destruct (stagger_durations cfg clock w Hs Hp Hb) as [Hdur Hord].
  destruct (startStaggerBlackout_state cfg clock w) as (Hq & Hm & Ht & Hn & Hc & Hr).
  fold w' in Hq, Hm, Ht, Hn, Hc, Hr.
  split; [exact Hdur|]. split; [exact Hord|].
  split; [intros i L HL; exact (startStaggerBlackout_lane cfg clock w i L HL)|].
  split; [exact Hm|].
  split.
  { subst w' freezeEnd now n. cbv beta. rewrite startStaggerBlackout_deadline.
    do 2 f_equal. lia. }
  split; [exact Ht|].
  split.
  { intros k Hk.
    destruct (ticks_paused cfg clock entropy fuel k w' Hq (or_intror Hm) Hk)
      as (w1 & E & Hq1 & Hn1 & Ht1 & Hm1 & He1 & Hc1 & Hr1).
    exists w1. split; [exact E|].
    split; [intros j L HL; exact (proj1 (Hq1 j L HL))|].
    split; [rewrite <- Ht; exact Ht1|].
    split; [congruence|]. split; [exact He1|].
    intros t Hpass.
    apply (stagger_release_lanes cfg clock entropy t w1); [congruence| congruence |].
    rewrite Hn1, Hn. exact HN. }
  split; [vm_compute; reflexivity|].
  split; [vm_compute; reflexivity|].
  split; vm_compute; split; reflexivity.
Qed.

Lemma stagger_freezes_then_joint_release_witness :
  sdiff (freezeUntil (laneAt (eng scenarioStart) 3)) 0 = 3500
  /\ sdiff (freezeUntil (laneAt (eng scenarioStart) 0)) 0 = 5600
  /\ exists w1,
       ticks default_config scenarioClock noEntropy 4 4 scenarioStart = Some (tt, w1)
       /\ (forall j L, lanes (eng w1) !! j = Some L -> running L = false)
       /\ mode (eng (snd (handleMode default_config scenarioClock noEntropy 5600 w1)))
          = MODE_NORMAL.
Proof.
  destruct (stagger_freezes_then_joint_release default_config scenarioClock noEntropy 4
              (boot default_config)
              ltac:(concrete) ltac:(concrete) ltac:(concrete) ltac:(concrete))
    as (Hdur & _ & _ & _ & _ & _ & Hpass & _).
  split; [exact (Hdur 3%nat ltac:(concrete))|].
  split; [exact (Hdur 0%nat ltac:(concrete))|].
  destruct (Hpass 4%nat) as (w1 & E & Hstop & _ & _ & _ & Hrel).
  { intros j Hj. do 4 (destruct j as [|j]; [vm_compute; reflexivity|]). lia. }
  exists w1. split; [exact E|]. split; [exact Hstop|].
  exact (proj1 (Hrel 5600 ltac:(vm_compute; reflexivity))).
Defined.

(** ** Cooldown guards *)

(** C6.  Inside the cooldown window (the guard's own test: the signed
    distance on the wrapping clock from the last release to the reading
    the guard takes is below the cooldown), [startSyncLock] and
    [startLongPause] are complete no-ops: the engine (every lane field,
    the mode register, all effect state and the actuator trace) is left
    as it was and no random word is drawn; only the guard's clock reading
    has been consumed. *)
Theorem cooldown_guard_noop (cfg : Config) (clock entropy : nat -> Z) (w : World) :
  (sdiff (u32 (clock (clk w))) (lastSyncEnd (eng w)) < i32 (SYNC_COOLDOWN_MS cfg) ->
   snd (startSyncLock cfg clock w)
   = {| eng := eng w; clk := S (clk w); rnd := rnd w |})
  /\ (sdiff (u32 (clock (clk w))) (lastLongPauseEnd (eng w)) < i32 (LONG_PAUSE_COOLDOWN cfg) ->
      snd (startLongPause cfg clock entropy w)
      = {| eng := eng w; clk := S (clk w); rnd := rnd w |}).
Proof.
  split; intros H; apply Z.ltb_lt in H.
  - unfold startSyncLock, bind; simpl. rewrite H. reflexivity.
  - unfold startLongPause, bind; simpl. rewrite H. reflexivity.
Qed.

Lemma cooldown_guard_noop_witness :
  eng (snd (startSyncLock default_config quietClock (boot default_config)))
  = eng (boot default_config)
  /\ eng (snd (startLongPause default_config quietClock noEntropy (boot default_config)))
     = eng (boot default_config).
Proof.
  destruct (cooldown_guard_noop default_config quietClock noEntropy (boot default_config))
    as [H1 H2].
  split.
  - rewrite H1 by concrete. reflexivity.
  - rewrite H2 by concrete. reflexivity.
Defined.

(** ** Transient state at the start of an effect *)

Definition countEntropy : nat -> Z := fun k => Z.of_nat k.

(** Four lanes as shipped, lane A in the middle of a subtle glitch: three
    burst pulses owed, frozen until 9000, nudged by 1.02 until 7000. *)
Definition staleLane : Lane :=
  set_nudgeUntil 7000 (set_nudgeMul (F32.dec 102 100)
    (set_freezeUntil 9000 (set_burstRemain 3 (newLane F32.one)))).

Definition staleWorld : World :=
  {| eng := with_lanes (<[0%nat := staleLane]> (lanes (initEngine default_config)))
              (initEngine default_config);
     clk := 0; rnd := 0 |}.

(** C4, as stated, fails: Scope Creep starts without touching any lane,
    so the stale burst, freeze and nudge of lane A survive its start. *)
Lemma scope_creep_keeps_stale_transients :
  ~ Forall cleared (lanes (eng (snd (startScopeCreep default_config quietClock staleWorld)))).
Proof.
  intros H. apply Forall_inv in H. destruct H as [H _].
  vm_compute in H. discriminate H.
Qed.

(** C4, amended.  Email Storm, Accel, Decel and Beat start by clearing
    every lane's transients (burst 0, freeze unset, nudge 1.0 / unset);
    Stagger Blackout does the same and then sets its own freeze;
    Counterbalance only resets every lane's nudge multiplier to 1.0 and
    keeps burst, freeze and nudge deadline; Phase Snap and Scope Creep
    reset none of the four fields. *)
Theorem transient_reset_at_start (cfg : Config) (clock entropy : nat -> Z) (w : World) :
  Forall cleared (lanes (eng (snd (startEmailStorm cfg clock w))))
  /\ Forall cleared (lanes (eng (snd (startAccelerando cfg clock entropy w))))
  /\ Forall cleared (lanes (eng (snd (startDecelerando cfg clock entropy w))))
  /\ (forall p, Forall cleared (lanes (eng (snd (startBeat clock p w)))))
  /\ (forall i L, lanes (eng w) !! i = Some L ->
        exists L', lanes (eng (snd (startStaggerBlackout cfg clock w))) !! i = Some L'
          /\ burstRemain L' = 0 /\ nudgeMul L' = F32.one /\ nudgeUntil L' = 0
          /\ freezeUntil L' =
               u32 (u32 (clock (clk w))
                    + (STAGGER_SILENCE_MS cfg
                       + STAGGER_STOP_STEP_MS cfg
                         * (Z.of_nat (NLANES (eng w)) - 1 - Z.of_nat i))))
  /\ (forall fuel u w', startCounterbalance cfg clock entropy fuel w = Some (u, w') ->
        Forall2 nudgeMulReset (lanes (eng w)) (lanes (eng w')))
  /\ (forall fuel u w', startPhaseSnap clock entropy fuel w = Some (u, w') ->
        Forall2 sameTransients (lanes (eng w)) (lanes (eng w')))
  /\ lanes (eng (snd (startScopeCreep cfg clock w))) = lanes (eng w).
Proof.
  split; [apply startEmailStorm_cleared|].
  split; [unfold startAccelerando; apply startRamp_cleared|].
  split; [unfold startDecelerando; apply startRamp_cleared|].
  split; [intros p; apply startBeat_cleared|].
  split.
  { intros i L HL. eexists. split; [apply startStaggerBlackout_lane, HL|].
    repeat split. }
  split; [intros fuel u w'; apply startCounterbalance_transients|].
  split; [intros fuel u w'; apply startPhaseSnap_transients|].
  reflexivity.
Qed.

Lemma transient_reset_at_start_witness :
  match startCounterbalance default_config quietClock countEntropy 4 staleWorld with
  | Some (_, w') => Forall2 nudgeMulReset (lanes (eng staleWorld)) (lanes (eng w'))
  | None => False
  end
  /\ match startPhaseSnap quietClock countEntropy 4 staleWorld with
     | Some (_, w') => Forall2 sameTransients (lanes (eng staleWorld)) (lanes (eng w'))
     | None => False
     end
  /\ (exists L',
        lanes (eng (snd (startStaggerBlackout default_config quietClock staleWorld))) !! 0%nat
        = Some L' /\ burstRemain L' = 0 /\ freezeUntil L' = 5600).
Proof.
  pose proof (transient_reset_at_start default_config quietClock countEntropy staleWorld)
    as (_ & _ & _ & _ & Hs & Hc & Hp & _).
  split; [|split].
  - destruct (startCounterbalance _ _ _ 4 staleWorld) as [[u w']|] eqn:E.
    + eapply Hc, E.
    + vm_compute in E. discriminate E.
  - destruct (startPhaseSnap _ _ 4 staleWorld) as [[u w']|] eqn:E.
    + eapply Hp, E.
    + vm_compute in E. discriminate E.
  - destruct (Hs 0%nat staleLane eq_refl) as (L' & HL' & Hb & _ & _ & Hf).
    exists L'. split; [exact HL'|]. split; [exact Hb|]. rewrite Hf. reflexivity.
Defined.

(** ** Beat mode *)

(** C10.  Whatever the pattern and the step, one call of [handleBeat]
    (including the [endBeat] it may run) leaves polarity and pulse state
    (stored polarity, pulse-off time, minimum-off gate, minute counter) of
    every listed lane with index 3 or more as they were, and every
    actuator event it adds is a pulse on lane A, B or C (index 0, 1, 2). *)
Theorem beat_only_fires_ABC (cfg : Config) (clock entropy : nat -> Z)
    (now : Z) (w : World) :
  let w' := snd (handleBeat cfg clock entropy now w) in
  (forall i L, (3 <= i)%nat -> lanes (eng w) !! i = Some L ->
     exists L', lanes (eng w') !! i = Some L' /\ samePulse L L')
  /\ exists new, trace (eng w') = new ++ trace (eng w) /\ Forall onABC new.
Proof.
  intros w'. pose proof (handleBeat_frame cfg clock entropy now w) as H. split.
  - intros i L Hi HL.
    destruct (laneFrame_lookup _ _ _ _ _ _ H HL) as (L' & HL' & HR).
    exists L'. split; [exact HL' | exact (HR Hi)].
  - destruct H as [(_ & _ & Ht & _) _]. exact Ht.
Qed.

(** ** The mode register *)

(** C2.  The mode register is one [Mode] value, [MODE_NORMAL] at boot and
    after [setup]; while it holds anything else the dispatcher starts no
    effect; every effect's end path writes [MODE_NORMAL]; and [reorgSwap]
    never writes it: lane [i] receives the former [baseHz] of lane
    [i + 1] (wrapping) and, with two lanes or more, a fresh [nextDue] one
    period after its clock reading. *)
Theorem mode_exclusive_reorg_keeps_mode (cfg : Config) (clock entropy : nat -> Z)
    (now : Z) (w : World) :
  (mode (initEngine cfg) = MODE_NORMAL
   /\ mode (eng (snd (setup cfg clock entropy (boot cfg)))) = MODE_NORMAL)
  /\ (forall fuel, mode (eng w) <> MODE_NORMAL ->
        considerEffect cfg clock entropy fuel now w = Some (tt, w))
  /\ (mode (eng (snd (endBeat clock w))) = MODE_NORMAL
      /\ mode (eng (snd (endSyncLock clock entropy w))) = MODE_NORMAL
      /\ mode (eng (snd (endLongPause clock entropy w))) = MODE_NORMAL
      /\ mode (eng (snd (endStaggerBlackout clock entropy w))) = MODE_NORMAL
      /\ (passed now (rampEnd (ramp (eng w))) = true ->
            mode (eng (snd (handleAccelerando now w))) = MODE_NORMAL
            /\ mode (eng (snd (handleDecelerando now w))) = MODE_NORMAL)
      /\ (passed now (cbEnd (cb (eng w))) = true ->
            mode (eng (snd (handleCounterbalance now w))) = MODE_NORMAL)
      /\ (passed now (stormEnd (storm (eng w))) = true ->
            mode (eng (snd (handleEmailStorm cfg entropy now w))) = MODE_NORMAL)
      /\ (passed now (scopeEnd (scope (eng w))) = true ->
            mode (eng (snd (handleScopeCreep cfg now w))) = MODE_NORMAL)
      /\ (passed now (snapEnd (snap (eng w))) = true ->
            mode (eng (snd (handlePhaseSnap now w))) = MODE_NORMAL))
  /\ (mode (eng (snd (reorgSwap clock w))) = mode (eng w)
      /\ forall i L', lanes (eng (snd (reorgSwap clock w))) !! i = Some L' ->
           exists Lnext,
             lanes (eng w) !! ((i + 1) mod NLANES (eng w))%nat = Some Lnext
             /\ baseHz L' = baseHz Lnext
             /\ ((2 <= NLANES (eng w))%nat ->
                 nextDue L' = u32 (u32 (clock (clk w + i)%nat) + periodMs L'))).
Proof.
  split; [split; [reflexivity | apply setup_mode]|].
  split; [intros fuel; apply considerEffect_busy|].
  split.
  - split; [reflexivity|]. split; [reflexivity|]. split; [reflexivity|].
    split; [reflexivity|].
    split.
    { intros H. unfold handleAccelerando, handleDecelerando, handleRamp, bind; simpl.
      rewrite H. split; reflexivity. }
    split.
    { intros H. unfold handleCounterbalance, bind; simpl. rewrite H. reflexivity. }
    split.
    { intros H. unfold handleEmailStorm, bind; simpl. rewrite H. reflexivity. }
    split.
    { intros H. unfold handleScopeCreep, bind; simpl. rewrite H. reflexivity. }
    intros H. unfold handlePhaseSnap, bind; simpl. rewrite H. reflexivity.
  - split; [apply reorgSwap_keeps_mode | apply reorgSwap_rotates].
Qed.

(** ** The autonomous scheduler *)

(** C3.  For a lane whose [nextDue] has passed, the scheduler's loop runs
    its body ([autoBody]).  If the minimum-off gate has not cleared, the
    body sets [nextDue] to [nextFree], fires nothing and leaves the loop.
    Otherwise it calls [coilOn] and then [scheduleNext]: when the drift
    [now - nextDue] exceeds four periods the new due time is
    [now + period + jitter], otherwise [previous due + period + jitter];
    the jitter lies within [-JITTER_MS, JITTER_MS] (and is 0 when
    [JITTER_MS] is not positive). *)
Theorem scheduler_defers_or_advances (cfg : Config) (clock entropy : nat -> Z)
    (i : nat) (now : Z) (w : World) (L : Lane) :
  lanes (eng w) !! i = Some L ->
  let r := autoBody cfg clock entropy i now w in
  (passed now (nextDue L) = true ->
     forall fuel, autoLoop cfg clock entropy (S fuel) i now w
                  = if fst r then autoLoop cfg clock entropy fuel i now (snd r)
                    else Some (tt, snd r))
  /\ (passed now (nextFree L) = false ->
        exists L', lanes (eng (snd r)) !! i = Some L'
          /\ nextDue L' = nextFree L
          /\ trace (eng (snd r)) = trace (eng w)
          /\ fst r = false)
  /\ (passed now (nextFree L) = true ->
        exists L' j, lanes (eng (snd r)) !! i = Some L'
          /\ (0 < JITTER_MS cfg < 2 ^ 15 -> - JITTER_MS cfg <= j <= JITTER_MS cfg)
          /\ (JITTER_MS cfg <= 0 -> j = 0)
          /\ (periodMs L < 2 ^ 29 -> i32 (u32 (periodMs L * 4)) = 4 * periodMs L)
          /\ nextDue L' =
               if i32 (u32 (periodMs L * 4)) <? sdiff now (nextDue L)
               then u32 (now + periodMs L + j)
               else u32 (nextDue L + periodMs L + j)).
Proof.
  intros HL r. split; [|split].
  - intros Hd fuel. apply autoLoop_unfold. unfold laneAt. rewrite HL. exact Hd.
  - intros Hg. subst r. rewrite (autoBody_gated cfg clock entropy i now w L HL Hg).
    cbn [fst snd eng lanes with_lanes trace].
    rewrite list_lookup_alter_eq, HL.
    eexists. split; [reflexivity|]. repeat split.
  - intros Hg.
    destruct (autoBody_open cfg clock entropy i now w L HL Hg) as (HL2 & _ & _).
    eexists. exists (jitterDraw cfg entropy (snd (coilOn cfg clock i w))).
    split; [exact HL2|].
    destruct (jitterDraw_bound cfg entropy (snd (coilOn cfg clock i w))) as [Hb Hz].
    split; [exact Hb|]. split; [exact Hz|]. split.
    + intros Hp. assert (0 <= periodMs L) by (unfold periodMs; apply u32_range).
      rewrite i32_u32, i32_small; lia.
    + destruct (negb _); reflexivity.
Qed.

Lemma scheduler_defers_or_advances_witness :
  let w := boot default_config in
  let r := autoBody default_config quietClock noEntropy 0 5000 w in
  let r2 := autoBody default_config quietClock noEntropy 0 100 (snd r) in
  (exists L', lanes (eng (snd r)) !! 0%nat = Some L' /\ nextDue L' = 5990)
  /\ (exists L', lanes (eng (snd r2)) !! 0%nat = Some L' /\ nextDue L' = 240).
Proof.
  intros w r r2. split.
  - destruct (scheduler_defers_or_advances default_config quietClock noEntropy 0 5000 w
                (newLane (F32.dec 100 100)) eq_refl) as (_ & _ & H).
    destruct (H eq_refl) as (L' & j & HL' & _ & _ & _ & Hd).
    exists L'. split; [exact HL'|].
    assert (E : lanes (eng (snd r)) !! 0%nat
                = Some (set_nextDue 5990 (fire default_config 0 (newLane (F32.dec 100 100))))).
    { vm_compute. reflexivity. }
    fold r in HL'. rewrite HL' in E. injection E as ->. reflexivity.
  - destruct (scheduler_defers_or_advances default_config quietClock noEntropy 0 100 (snd r)
                (set_nextDue 5990 (fire default_config 0 (newLane (F32.dec 100 100))))
                ltac:(vm_compute; reflexivity)) as (_ & H & _).
    destruct (H ltac:(vm_compute; reflexivity)) as (L' & HL' & Hd & _).
    exists L'. split; [exact HL' | exact Hd].
Defined.

(** ** Picking two distinct lanes *)

(** One lane, as a table with a single entry. *)
Definition soloWorld : World :=
  {| eng := with_lanes [newLane F32.one] (initEngine default_config); clk := 0; rnd := 0 |}.

(** C5.  With a single lane configured, [pickTwoDistinct] returns [false]
    at once and the storm tick falls back to [LANES[0]]; but the
    [do ... while] loops of [startCounterbalance] and [startPhaseSnap]
    draw [rng(0, 0)] for ever: whatever the fuel, the clock and the
    random source, neither returns. *)
Theorem single_lane_pick_diverges (cfg : Config) (clock entropy : nat -> Z)
    (now : Z) (w : World) :
  NLANES (eng w) = 1%nat ->
  pickTwoDistinct entropy w = (None, w)
  /\ (passed now (stormEnd (storm (eng w))) = false ->
      passed now (nextStormTick (storm (eng w))) = true ->
      lanes (eng (snd (handleEmailStorm cfg entropy now w)))
      = alter (set_burstRemain (fst (burstPulses cfg entropy w))) 0%nat (lanes (eng w)))
  /\ (forall fuel, startCounterbalance cfg clock entropy fuel w = None)
  /\ (forall fuel, startPhaseSnap clock entropy fuel w = None).
Proof.
  intros Hn. split; [apply pickTwoDistinct_single; lia|].
  split; [apply handleEmailStorm_single; lia|].
  split; intros fuel.
  - apply startCounterbalance_single, Hn.
  - apply startPhaseSnap_single, Hn.
Qed.

Lemma single_lane_pick_diverges_witness :
  let w := snd (startEmailStorm default_config quietClock soloWorld) in
  startCounterbalance default_config quietClock countEntropy 1000 w = None
  /\ startPhaseSnap quietClock countEntropy 1000 w = None
  /\ burstRemain <$> lanes (eng (snd (handleEmailStorm default_config countEntropy 0 w)))
     = [3].
Proof.
  intros w.
  destruct (single_lane_pick_diverges default_config quietClock countEntropy 0 w eq_refl)
    as (_ & Hs & Hc & Hp).
  split; [apply Hc|]. split; [apply Hp|].
  rewrite Hs by (vm_compute; reflexivity). vm_compute. reflexivity.
Defined.

(** ** Sync-lock *)

Lemma same_eq (x y : float) : F32.same x y = true -> x = y.
Proof.
  destruct x as [s|s| |s m e], y as [s'|s'| |s' m' e']; simpl; try discriminate.
  - intros H. apply Bool.eqb_prop in H. congruence.
  - intros H. apply Bool.eqb_prop in H. congruence.
  - reflexivity.
  - intros H. apply andb_prop in H as [H He]. apply andb_prop in H as [Hs Hm].
    apply Bool.eqb_prop in Hs. apply Pos.eqb_eq in Hm. apply Z.eqb_eq in He. congruence.
Qed.

(** The effective frequency of a lane running at [bpm / 60] with no nudge. *)
Definition syncEff (bpm : Z) : float :=
  F32.fmax (F32.dec 1 1000)
    (F32.mul (F32.div (F32.of_Z bpm) (F32.of_Z 60)) F32.one).

(** [P lo && P (lo + 1) && ...], [n] values in all. *)
Fixpoint allFrom (P : Z -> bool) (lo : Z) (n : nat) : bool :=
  match n with
  | O => true
  | S n' => P lo && allFrom P (lo + 1) n'
  end.

Lemma allFrom_spec (P : Z -> bool) n : forall lo k,
  allFrom P lo n = true -> lo <= k < lo + Z.of_nat n -> P k = true.
Proof.
  induction n as [|n IH]; intros lo k H Hk; [lia|].
  cbn [allFrom] in H. apply andb_prop in H as [H0 H].
  destruct (Z.eq_dec k lo) as [->|Hne]; [exact H0|].
  apply (IH (lo + 1)); [exact H | lia].
Qed.

(** Every [uint16_t] tempo from 1 BPM on: checked one by one. *)
Lemma syncEff_all :
  allFrom (fun k => F32.same (syncEff k) (F32.div (F32.of_Z k) (F32.of_Z 60)))
          1 (Z.to_nat 65535) = true.
Proof. vm_cast_no_check (eq_refl true). Qed.

Lemma syncEff_bpm (bpm : Z) :
  1 <= bpm < 2 ^ 16 -> syncEff bpm = F32.div (F32.of_Z bpm) (F32.of_Z 60).
Proof.
  intros H. apply same_eq.
  apply (allFrom_spec _ _ 1 bpm syncEff_all). rewrite Z2Nat.id; lia.
Qed.


(** The hold of a sync-lock that found the lane tempos [orig]: the mode
    register says so, and every lane runs at [SYNC_BPM / 60] with no nudge
    and keeps its own tempo in [savedHz]. *)
Definition syncHeld (cfg : Config) (orig : list float) (w : World) : Prop :=
  mode (eng w) = MODE_SYNC_LOCK
  /\ length (lanes (eng w)) = length orig
  /\ forall i L, lanes (eng w) !! i = Some L ->
       baseHz L = syncHz cfg /\ nudgeMul L = F32.one /\ orig !! i = Some (savedHz L).

Lemma syncHeld_holds cfg orig w : syncHeld cfg orig w <-> holds (holdFrame cfg orig) w.
Proof.
  unfold syncHeld, holds, holdsE, holdFrame, holdLane; cbn. tauto.
Qed.

(** C8.  Outside its cooldown and for a tempo of 1 BPM or more,
    [startSyncLock] opens a hold in which every lane's effective frequency
    is [SYNC_BPM / 60] (2.0 Hz at the shipped 120 BPM) with [nudgeMul]
    1.0; every pass through [loop] keeps the hold or is the pass that
    releases it, and after the release ([endSyncLock]) every lane's
    [baseHz] is the one it had just before the lock. *)
Theorem sync_lock_round_trip (cfg : Config) (clock entropy : nat -> Z) (w : World) :
  1 <= SYNC_BPM cfg < 2 ^ 16 ->
  (sdiff (u32 (clock (clk w))) (lastSyncEnd (eng w)) <? i32 (SYNC_COOLDOWN_MS cfg)) = false ->
  let orig := baseHz <$> lanes (eng w) in
  syncHeld cfg orig (snd (startSyncLock cfg clock w))
  /\ (forall w1, syncHeld cfg orig w1 ->
        (forall i L, lanes (eng w1) !! i = Some L ->
           nudgeMul L = F32.one /\ effHz L = syncHz cfg)
        /\ (forall fuel u w2, loop cfg clock entropy fuel w1 = Some (u, w2) ->
              syncHeld cfg orig w2
              \/ (mode (eng w2) = MODE_NORMAL /\ baseHz <$> lanes (eng w2) = orig))
        /\ mode (eng (snd (endSyncLock clock entropy w1))) = MODE_NORMAL
        /\ baseHz <$> lanes (eng (snd (endSyncLock clock entropy w1))) = orig)
  /\ syncHz default_config = F32.of_Z 2.
Proof.
  intros Hbpm Hg orig. split; [|split; [|reflexivity]].
  - apply syncHeld_holds, startSyncLock_hold, Hg.
  - intros w1 Hh. split; [|split; [|split]].
    + intros i L HL. destruct Hh as (_ & _ & Hq).
      destruct (Hq i L HL) as (Hb & Hn & _). split; [exact Hn|].
      unfold effHz. rewrite Hb, Hn. apply (syncEff_bpm (SYNC_BPM cfg) Hbpm).
    + intros fuel u w2 E. apply syncHeld_holds in Hh.
      destruct (sync_hold_step cfg clock entropy orig fuel w1 u w2 Hh E) as [H|H].
      * left. apply syncHeld_holds, H.
      * right. split; [apply H | apply released_baseHz, H].
    + reflexivity.
    + apply syncHeld_holds in Hh.
      apply released_baseHz, (endSyncLock_released cfg clock entropy), Hh.
Qed.

Lemma sync_lock_round_trip_witness :
  let w := snd (setup default_config quietClock noEntropy (boot default_config)) in
  let clock := fun k : nat => 20000 in
  let w1 := snd (startSyncLock default_config clock w) in
  (forall i L, lanes (eng w1) !! i = Some L -> effHz L = F32.of_Z 2)
  /\ baseHz <$> lanes (eng (snd (endSyncLock clock noEntropy w1)))
     = baseHz <$> lanes (eng w).
Proof.
  intros w clock w1.
  destruct (sync_lock_round_trip default_config clock noEntropy w
              ltac:(concrete) ltac:(vm_compute; reflexivity)) as (H1 & H2 & _).
  destruct (H2 w1 H1) as (He & _ & _ & Hr).
  split; [|exact Hr].
  intros i L HL. destruct (He i L HL) as [_ ->]. reflexivity.
Defined.

(** * Further properties on the shipped configuration *)

(** The properties of "Further properties of the sketch" that carry
    premises, each applied to a concrete run. *)

(** A clock that stands at [t]. *)
Definition steadyClock (t : Z) : nat -> Z := fun _ => t.

Lemma rng_in_range_witness :
  0 <= fst (rng countEntropy 0 500 (boot default_config)) <= 500.
Proof.
  exact (proj1 (rng_in_range countEntropy 0 500 (boot default_config)
                  ltac:(lia) ltac:(lia) ltac:(lia) ltac:(lia))).
Defined.

Lemma pickTwoDistinct_distinct_witness :
  exists i j,
    fst (pickTwoDistinct countEntropy (boot default_config)) = Some (i, j) /\ i <> j.
Proof.
  destruct (pickTwoDistinct_distinct countEntropy (boot default_config)
              ltac:(vm_compute; lia)) as (i & j & E & _ & _ & Hne & _).
  exists i, j. split; [exact E | exact Hne].
Defined.

Lemma startCounterbalance_picks_two_witness :
  match startCounterbalance default_config quietClock countEntropy 10 (boot default_config) with
  | Some (_, w') => cbUp (cb (eng w')) <> cbDown (cb (eng w'))
                    /\ mode (eng w') = MODE_COUNTERBAL
  | None => False
  end.
Proof.
  destruct (startCounterbalance default_config quietClock countEntropy 10 (boot default_config))
    as [[u w']|] eqn:E; [|vm_compute in E; discriminate E].
  destruct (startCounterbalance_picks_two default_config quietClock countEntropy 10
              (boot default_config) u w' ltac:(vm_compute; lia) ltac:(vm_compute; reflexivity) E)
    as (_ & _ & Hne & _ & Hm & _).
  split; [exact Hne | exact Hm].
Defined.

Lemma phase_snap_round_trip_witness :
  match startPhaseSnap quietClock countEntropy 10 (boot default_config) with
  | Some (_, w1) =>
      baseHz <$> lanes (eng (snd (handlePhaseSnap (snapEnd (snap (eng w1))) w1)))
      = baseHz <$> lanes (eng (boot default_config))
  | None => False
  end.
Proof.
  destruct (startPhaseSnap quietClock countEntropy 10 (boot default_config))
    as [[u w1]|] eqn:E; [|vm_compute in E; discriminate E].
  assert (Hp : passed (snapEnd (snap (eng w1))) (snapEnd (snap (eng w1))) = true).
  { unfold passed, sdiff. rewrite Z.sub_diag. reflexivity. }
  destruct (phase_snap_round_trip quietClock countEntropy 10 (boot default_config) u w1
              (snapEnd (snap (eng w1))) ltac:(vm_compute; lia) ltac:(vm_compute; reflexivity)
              E Hp) as (_ & _ & _ & _ & Hhz & _).
  exact Hhz.
Defined.

Lemma scope_creep_round_trip_witness :
  let w := boot default_config in
  let w2 := snd (startScopeCreep default_config quietClock w) in
  baseHz <$> lanes (eng (snd (handleScopeCreep default_config 60000 w2)))
  = baseHz <$> lanes (eng w).
Proof.
  intros w w2.
  destruct (scope_creep_round_trip default_config quietClock w w2 60000
              eq_refl eq_refl ltac:(vm_compute; reflexivity)) as (_ & Hhz & _).
  exact Hhz.
Defined.

(** The shipped lanes half-way through an Accelerando, a Decelerando
    and a Counterbalance started at time 0. *)
Definition midAccel : World :=
  snd (handleAccelerando 5000
         (snd (startAccelerando default_config quietClock countEntropy (boot default_config)))).

Definition midDecel : World :=
  snd (handleDecelerando 5000
         (snd (startDecelerando default_config quietClock countEntropy (boot default_config)))).

Definition midCounterbalance : option World :=
  match startCounterbalance default_config quietClock countEntropy 10 (boot default_config) with
  | Some (_, w) => Some (snd (handleCounterbalance 4000 w))
  | None => None
  end.

Lemma ramps_end_clean_witness :
  (mode (eng midAccel) = MODE_ACCEL
   /\ F32.ltb F32.one (nudgeMul (laneAt (eng midAccel) 0)) = true
   /\ lanes (eng (snd (handleAccelerando 10000 midAccel)))
      = set_nudgeMul F32.one <$> lanes (eng midAccel)
   /\ mode (eng (snd (handleAccelerando 10000 midAccel))) = MODE_NORMAL)
  /\ (mode (eng midDecel) = MODE_DECEL
      /\ F32.ltb (nudgeMul (laneAt (eng midDecel) 0)) F32.one = true
      /\ lanes (eng (snd (handleDecelerando 10000 midDecel)))
         = set_nudgeMul F32.one <$> lanes (eng midDecel))
  /\ match midCounterbalance with
     | Some w =>
         mode (eng w) = MODE_COUNTERBAL
         /\ F32.ltb F32.one (nudgeMul (laneAt (eng w) (Z.to_nat (cbUp (cb (eng w)))))) = true
         /\ F32.ltb (nudgeMul (laneAt (eng w) (Z.to_nat (cbDown (cb (eng w)))))) F32.one = true
         /\ lanes (eng (snd (handleCounterbalance 8000 w)))
            = set_nudgeMul F32.one <$> lanes (eng w)
         /\ mode (eng (snd (handleCounterbalance 8000 w))) = MODE_NORMAL
     | None => False
     end.
Proof.
  split; [|split].
  - destruct (ramps_end_clean 10000 midAccel) as [Hr _].
    destruct (Hr ltac:(vm_compute; reflexivity)) as (Hl & _ & Hm & _).
    split; [vm_compute; reflexivity|]. split; [vm_compute; reflexivity|].
    split; [exact Hl | exact Hm].
  - destruct (ramps_end_clean 10000 midDecel) as [Hr _].
    destruct (Hr ltac:(vm_compute; reflexivity)) as (_ & Hl & _).
    split; [vm_compute; reflexivity|]. split; [vm_compute; reflexivity|]. exact Hl.
  - destruct midCounterbalance as [w|] eqn:E; [|vm_compute in E; discriminate E].
    vm_compute in E. injection E as <-.
    match goal with
    | |- mode (eng ?w) = _ /\ _ => destruct (ramps_end_clean 8000 w) as [_ Hc]
    end.
    destruct (Hc ltac:(vm_compute; reflexivity)) as (Hl & Hm & _).
    split; [vm_compute; reflexivity|]. split; [vm_compute; reflexivity|].
    split; [vm_compute; reflexivity|]. split; [exact Hl | exact Hm].
Defined.

Lemma reorg_full_cycle_witness :
  baseHz <$> lanes (eng (snd (reorgSwap quietClock (boot default_config)))) !! 0%nat
  = Some (F32.dec 98 100)
  /\ baseHz <$> lanes (eng (snd (reorgSwap quietClock (boot default_config)))) !! 3%nat
     = Some (F32.dec 100 100)
  /\ baseHz <$> lanes (eng (reorgs quietClock 4 (boot default_config)))
     = [F32.dec 100 100; F32.dec 98 100; F32.dec 102 100; F32.dec 101 100].
Proof.
  destruct (reorg_full_cycle quietClock (boot default_config)) as (Hone & _ & _ & _ & Hfull).
  split; [|split].
  - rewrite (Hone ltac:(vm_compute; lia) 0%nat (newLane (F32.dec 100 100)) eq_refl).
    reflexivity.
  - rewrite (Hone ltac:(vm_compute; lia) 3%nat (newLane (F32.dec 101 100)) eq_refl).
    reflexivity.
  - exact Hfull.
Defined.

(** A pulse that starts [PULSE_ON_MS] before the 32-bit clock wraps. *)
Definition lateClock : nat -> Z := steadyClock (2 ^ 32 - PULSE_ON_MS default_config).

Lemma pulse_ending_at_zero_stays_on_witness :
  let w := snd (setup default_config lateClock noEntropy (boot default_config)) in
  let w1 := snd (coilOn default_config lateClock 0 w) in
  trace (eng w1) = Energize 0 false (2 ^ 32 - 120) :: trace (eng w)
  /\ maybeCoilOff 0 (u32 (2 ^ 32 - 120 + 1000)) w1 = (tt, w1).
Proof.
  intros w w1.
  destruct (pulse_ending_at_zero_stays_on default_config lateClock 0 w (laneAt (eng w) 0)
              ltac:(vm_compute; reflexivity) ltac:(vm_compute; reflexivity)
              ltac:(vm_compute; reflexivity)) as [Ht Hoff].
  split; [exact Ht | apply Hoff].
Defined.

Lemma setup_arms_every_lane_witness :
  let w := snd (setup default_config quietClock countEntropy (boot default_config)) in
  exists r, 0 <= r <= 500
    /\ lanes (eng w) !! 3%nat
       = Some (set_nextFree 0 (set_nextDue (u32 (0 + r)) (newLane (F32.dec 101 100)))).
Proof.
  intros w.
  destruct (setup_arms_every_lane default_config quietClock countEntropy) as (_ & H & _).
  exact (H 3%nat (F32.dec 101 100) eq_refl).
Defined.

Lemma watchdog_rearms_running_lanes_witness :
  let w := boot default_config in
  let w' := snd (watchdog default_config countEntropy 30000 w) in
  trace (eng w') = trace (eng w)
  /\ exists L, lanes (eng w') !! 0%nat = Some L
       /\ rearmed 30000 (newLane (F32.dec 100 100)) L.
Proof.
  intros w w'.
  destruct (watchdog_rearms_running_lanes default_config countEntropy 30000 w) as [_ H].
  destruct (H eq_refl ltac:(vm_compute; reflexivity)) as (_ & Ht & _ & _ & Hl).
  split; [exact Ht | exact (Hl 0%nat (newLane (F32.dec 100 100)) eq_refl)].
Defined.

(** The shipped lanes two seconds into a stagger blackout started at 0. *)
Definition blackoutWorld : World :=
  snd (startStaggerBlackout default_config quietClock (boot default_config)).

Lemma frozen_lane_is_silent_witness :
  exists w' L',
    scheduleLane default_config quietClock countEntropy 0 2000 0 blackoutWorld = Some (tt, w')
    /\ lanes (eng w') !! 0%nat = Some L'
    /\ nextDue L' = 2010.
Proof.
  destruct (frozen_lane_is_silent default_config quietClock countEntropy 0 2000 0 blackoutWorld
              (laneAt (eng blackoutWorld) 0)
              ltac:(vm_compute; reflexivity) ltac:(vm_compute; discriminate)
              ltac:(vm_compute; reflexivity))
    as (w' & L' & E & HL & Hd & _).
  exists w', L'. split; [exact E|]. split; [exact HL | exact Hd].
Defined.

(** Lane A stopped, with three burst pulses granted. *)
Definition burstWorld : World :=
  {| eng := with_lanes
              (alter (fun L => set_burstRemain 3 (set_running false L)) 0%nat
                 (lanes (initEngine default_config)))
              (initEngine default_config);
     clk := 0; rnd := 0 |}.

Lemma burst_overrides_stop_witness :
  exists w' L',
    scheduleLane default_config quietClock countEntropy 0 0 0 burstWorld = Some (tt, w')
    /\ lanes (eng w') !! 0%nat = Some L'
    /\ burstRemain L' = 2 /\ nextDue L' = 150 /\ running L' = false
    /\ trace (eng w') = [Energize 0 false 0].
Proof.
  destruct (burst_overrides_stop default_config quietClock countEntropy 0 0 0 burstWorld
              (laneAt (eng burstWorld) 0)
              ltac:(vm_compute; reflexivity) ltac:(left; vm_compute; reflexivity)
              ltac:(vm_compute; reflexivity) ltac:(vm_compute; reflexivity))
    as (w' & L' & pre & E & HL & Hb & Hd & _ & Hr & _ & Hpre & Ht & _).
  exists w', L'. split; [exact E|]. split; [exact HL|].
  split; [exact Hb|]. split; [exact Hd|]. split; [exact Hr|].
  destruct Hpre as [-> | ->]; [exact Ht|].
  exfalso. revert Ht. pose proof E as E'. vm_compute in E'. injection E' as <-.
  vm_compute. discriminate.
Defined.

Lemma stopped_lane_is_silent_witness :
  exists w' L',
    scheduleLane default_config quietClock countEntropy 0 9000 3 blackoutWorld = Some (tt, w')
    /\ lanes (eng w') !! 3%nat = Some L'
    /\ running L' = false /\ burstRemain L' = 0.
Proof.
  destruct (stopped_lane_is_silent default_config quietClock countEntropy 0 9000 3 blackoutWorld
              (laneAt (eng blackoutWorld) 3)
              ltac:(vm_compute; reflexivity) ltac:(vm_compute; reflexivity)
              ltac:(vm_compute; reflexivity))
    as (w' & L' & E & HL & Hr & Hb & _).
  exists w', L'. split; [exact E|]. split; [exact HL|]. split; [exact Hr | exact Hb].
Defined.

(** The shipped lanes in a long pause started one minute after boot. *)
Definition pausedWorld : World :=
  snd (startLongPause default_config (steadyClock 60000) countEntropy (boot default_config)).

Lemma long_pause_freezes_all_witness :
  exists dur, 10000 <= dur <= 14000
    /\ modeEndsAt (eng pausedWorld) = u32 (60000 + dur)
    /\ mode (eng pausedWorld) = MODE_LONG_PAUSE.
Proof.
  destruct (long_pause_freezes_all default_config (steadyClock 60000) countEntropy
              (boot default_config) ltac:(vm_compute; discriminate) ltac:(vm_compute; discriminate)
              ltac:(vm_compute; reflexivity) ltac:(vm_compute; reflexivity))
    as (dur & Hd & _ & He & Hm & _).
  exists dur. split; [exact Hd|]. split; [exact He | exact Hm].
Defined.

Lemma long_pause_release_witness :
  let w' := snd (endLongPause (steadyClock 75000) countEntropy pausedWorld) in
  (exists r L, 0 <= r <= 120 /\ lanes (eng w') !! 0%nat = Some L
               /\ running L = true /\ nextDue L = u32 (75000 + 1000 + r))
  /\ lastLongPauseEnd (eng w') = 75000.
Proof.
  intros w'.
  destruct (long_pause_release (steadyClock 75000) countEntropy pausedWorld)
    as (Hl & _ & _ & He & _).
  destruct (Hl 0%nat (laneAt (eng pausedWorld) 0) ltac:(vm_compute; reflexivity))
    as (r & Hr & HL).
  split; [|exact He].
  exists r. eexists. split; [exact Hr|]. split; [exact HL|]. split; reflexivity.
Defined.

Lemma stagger_release_windows_witness :
  let w' := snd (endStaggerBlackout (steadyClock 5600) countEntropy blackoutWorld) in
  (exists r L, 0 <= r <= 160 /\ lanes (eng w') !! 3%nat = Some L
               /\ running L = true /\ nextDue L = u32 (5600 + 990 + r))
  /\ mode (eng w') = MODE_NORMAL.
Proof.
  intros w'.
  destruct (stagger_release_windows (steadyClock 5600) countEntropy blackoutWorld
              ltac:(vm_compute; reflexivity)) as (Hl & _ & Hm & _).
  destruct (Hl 3%nat (laneAt (eng blackoutWorld) 3) ltac:(vm_compute; reflexivity))
    as (r & Hr & HL).
  split; [|exact Hm].
  exists r. eexists. split; [exact Hr|]. split; [exact HL|]. split; reflexivity.
Defined.

(** Rock, just started at time 0. *)
Definition rockWorld : World := snd (startBeat quietClock ROCK (boot default_config)).

Lemma beat_step_counts_down_witness :
  let w' := snd (handleBeat default_config quietClock countEntropy 20 rockWorld) in
  stepsLeft ROCK (beat (eng rockWorld)) = 64
  /\ stepsLeft ROCK (beat (eng w')) = 63
  /\ mode (eng w') = MODE_BEAT.
Proof.
  intros w'.
  pose proof (beat_step_counts_down default_config quietClock countEntropy 20 rockWorld ROCK
                ltac:(vm_compute; repeat split; discriminate) ltac:(vm_compute; reflexivity)
                ltac:(vm_compute; reflexivity)) as H.
  cbv zeta in H.
  assert (E : stepsLeft ROCK (beat (eng rockWorld)) = 64) by (vm_compute; reflexivity).
  rewrite E in H. change (64 =? 1) with false in H. cbv iota in H.
  destruct H as (_ & Hs & Hm). split; [exact E|]. split; [exact Hs | exact Hm].
Defined.

Lemma beat_plays_bars_times_steps_witness :
  let w0 := snd (startBeat quietClock ROCK (boot default_config)) in
  mode (eng (playSteps default_config quietClock countEntropy 63 w0)) = MODE_BEAT
  /\ mode (eng (playSteps default_config quietClock countEntropy 64 w0)) = MODE_NORMAL.
Proof.
  intros w0.
  destruct (beat_plays_bars_times_steps default_config quietClock countEntropy ROCK
              (boot default_config) ltac:(vm_compute; split; reflexivity)
              ltac:(vm_compute; split; reflexivity)) as (_ & Hplay & Hend & _).
  split; [exact (proj1 (Hplay 63%nat ltac:(vm_compute; lia))) | exact Hend].
Defined.

Lemma subtle_glitch_touches_one_lane_witness :
  exists i f,
    (i < 4)%nat /\ (forall L, sameBody L (f L))
    /\ lanes (eng (snd (subtleGlitch default_config quietClock countEntropy
                          (boot default_config))))
       = alter f i (lanes (eng (boot default_config))).
Proof.
  destruct (subtle_glitch_touches_one_lane default_config quietClock countEntropy
              (boot default_config) ltac:(vm_compute; lia)) as (i & f & Hi & Hf & E).
  exists i, f. split; [exact Hi|]. split; [exact Hf|]. rewrite E. reflexivity.
Defined.

(** The shipped lanes at the first tick of an email storm started at 0. *)
Definition stormWorld : World :=
  snd (startEmailStorm default_config quietClock (boot default_config)).

Lemma storm_tick_grants_two_bursts_witness :
  exists i j b1 b2,
    i <> j /\ 3 <= b1 <= 8 /\ 3 <= b2 <= 8
    /\ lanes (eng (snd (handleEmailStorm default_config countEntropy 0 stormWorld)))
       = alter (set_burstRemain b2) j
           (alter (set_burstRemain b1) i (lanes (eng stormWorld))).
Proof.
  destruct (storm_tick_grants_two_bursts default_config countEntropy 0 stormWorld
              ltac:(vm_compute; lia) ltac:(vm_compute; discriminate)
              ltac:(vm_compute; discriminate) ltac:(vm_compute; reflexivity)
              ltac:(vm_compute; discriminate) ltac:(vm_compute; discriminate)
              ltac:(vm_compute; reflexivity) ltac:(vm_compute; reflexivity)
              ltac:(vm_compute; reflexivity))
    as (i & j & b1 & b2 & r & Hij & _ & _ & Hb1 & Hb2 & _ & E).
  exists i, j, b1, b2. split; [exact Hij|]. split; [exact Hb1|]. split; [exact Hb2|].
  rewrite E. reflexivity.
Defined.

Lemma paused_tick_is_silent_witness :
  exists w',
    loop default_config (steadyClock 61000) countEntropy 0 pausedWorld = Some (tt, w')
    /\ offOnly (trace (eng pausedWorld)) (trace (eng w'))
    /\ mode (eng w') = MODE_LONG_PAUSE.
Proof.
  assert (Hq : quiet (eng pausedWorld)).
  { intros j L H.
    do 4 (destruct j as [|j]; [injection H as <-; split; reflexivity|]).
    discriminate H. }
  destruct (paused_tick_is_silent default_config (steadyClock 61000) countEntropy 0 pausedWorld
              Hq ltac:(left; vm_compute; reflexivity) ltac:(vm_compute; reflexivity))
    as (w' & E & _ & _ & Ht & Hm & _).
  exists w'. split; [exact E|]. split; [exact Ht | exact Hm].
Defined.

(** The shipped configuration with [GLITCH_PROB = 0.0f]. *)
Definition calmConfig : Config :=
  {| BASE_HZ := BASE_HZ default_config; PULSE_ON_MS := PULSE_ON_MS default_config;
     MIN_OFF_MS := MIN_OFF_MS default_config; JITTER_MS := JITTER_MS default_config;
     GLITCH_CHECK_MS := GLITCH_CHECK_MS default_config; GLITCH_PROB := F32.zero;
     W_PAUSE := W_PAUSE default_config; W_STAGGER := W_STAGGER default_config;
     W_SYNC := W_SYNC default_config; W_BEAT := W_BEAT default_config;
     W_ACCEL := W_ACCEL default_config; W_DECEL := W_DECEL default_config;
     W_COUNTER := W_COUNTER default_config; W_STORM := W_STORM default_config;
     W_SNAP := W_SNAP default_config; W_SCOPE := W_SCOPE default_config;
     W_REORG := W_REORG default_config; NUDGE_MAX_PCT := NUDGE_MAX_PCT default_config;
     NUDGE_MIN_MS := NUDGE_MIN_MS default_config; NUDGE_MAX_MS := NUDGE_MAX_MS default_config;
     FREEZE_MIN_MS := FREEZE_MIN_MS default_config;
     FREEZE_MAX_MS := FREEZE_MAX_MS default_config;
     BURST_MIN_PULSES := BURST_MIN_PULSES default_config;
     BURST_MAX_PULSES := BURST_MAX_PULSES default_config;
     BURST_TARGET_MS := BURST_TARGET_MS default_config;
     LONG_PAUSE_MIN_MS := LONG_PAUSE_MIN_MS default_config;
     LONG_PAUSE_MAX_MS := LONG_PAUSE_MAX_MS default_config;
     LONG_PAUSE_COOLDOWN := LONG_PAUSE_COOLDOWN default_config;
     STAGGER_STOP_STEP_MS := STAGGER_STOP_STEP_MS default_config;
     STAGGER_SILENCE_MS := STAGGER_SILENCE_MS default_config;
     SYNC_BPM := SYNC_BPM default_config; SYNC_HOLD_MS := SYNC_HOLD_MS default_config;
     SYNC_COOLDOWN_MS := SYNC_COOLDOWN_MS default_config;
     ACCEL_DUR_MS := ACCEL_DUR_MS default_config;
     ACCEL_TO_MUL_MIN := ACCEL_TO_MUL_MIN default_config;
     ACCEL_TO_MUL_MAX := ACCEL_TO_MUL_MAX default_config;
     DECEL_DUR_MS := DECEL_DUR_MS default_config;
     DECEL_TO_MUL_MIN := DECEL_TO_MUL_MIN default_config;
     DECEL_TO_MUL_MAX := DECEL_TO_MUL_MAX default_config;
     COUNTERBAL_DUR_MS := COUNTERBAL_DUR_MS default_config;
     COUNTERBAL_DELTA_MIN := COUNTERBAL_DELTA_MIN default_config;
     COUNTERBAL_DELTA_MAX := COUNTERBAL_DELTA_MAX default_config;
     STORM_DUR_MS := STORM_DUR_MS default_config;
     STORM_TICK_MIN_MS := STORM_TICK_MIN_MS default_config;
     STORM_TICK_MAX_MS := STORM_TICK_MAX_MS default_config;
     SCOPE_DUR_MS := SCOPE_DUR_MS default_config; SCOPE_DH := SCOPE_DH default_config;
     LIVENESS_WARN_MS := LIVENESS_WARN_MS default_config |}.

Lemma zero_probability_starts_nothing_witness :
  exists w',
    considerEffect calmConfig quietClock countEntropy 0 0 (boot calmConfig) = Some (tt, w')
    /\ lanes (eng w') = lanes (eng (boot calmConfig))
    /\ mode (eng w') = MODE_NORMAL.
Proof.
  destruct (zero_probability_starts_nothing calmConfig quietClock countEntropy 0 0
              (boot calmConfig) ltac:(vm_compute; discriminate)) as (w' & E & _ & He).
  exists w'. split; [exact E|].
  destruct He as [-> | [t ->]]; split; reflexivity.
Defined.

Lemma laneIndex_inverts_table_witness :
  laneIndex [10; 20; 30; 40] 30 = 2
  /\ laneIndex [10; 20; 30; 40] 50 = 0
  /\ laneName [10; 20; 30; 40] 50 = "A"%char.
Proof.
  destruct (laneIndex_inverts_table [10; 20; 30; 40]
              ltac:(apply (bool_decide_unpack _); vm_compute; exact I)
              ltac:(vm_compute; reflexivity)) as [Hin Hout].
  split; [exact (Hin 2%nat 30 eq_refl)|].
  exact (Hout 50 ltac:(apply (bool_decide_unpack _); vm_compute; exact I)).
Defined.


Lemma due_lane_pulses_once_witness :
  exists w' L',
    scheduleLane default_config quietClock countEntropy 2 0 0 (boot default_config)
    = Some (tt, w')
    /\ lanes (eng w') !! 0%nat = Some L'
    /\ sdiff 0 (nextDue L') < 0 /\ pol L' = true /\ nextFree L' = 240.
Proof.
  destruct (due_lane_pulses_once default_config quietClock countEntropy 0 0 0
              (boot default_config) (newLane (F32.dec 100 100))
              eq_refl eq_refl eq_refl eq_refl
              ltac:(vm_compute; reflexivity) ltac:(vm_compute; reflexivity)
              ltac:(vm_compute; discriminate) ltac:(vm_compute; reflexivity))
    as (w' & L' & pre & E & HL & Hd & Hp & Hf & _).
  exists w', L'. split; [exact E|]. split; [exact HL|]. split; [exact Hd|].
  split; [exact Hp | exact Hf].
Defined.


Lemma stagger_deadline_is_last_freeze_witness :
  modeEndsAt (eng blackoutWorld) = 5600
  /\ passed 5600 (freezeUntil (laneAt (eng blackoutWorld) 3)) = true.
Proof.
  destruct (stagger_deadline_is_last_freeze default_config quietClock (boot default_config)
              ltac:(vm_compute; lia) ltac:(vm_compute; discriminate)
              ltac:(vm_compute; discriminate)) as [Hd Hall].
  split; [unfold blackoutWorld; rewrite Hd; reflexivity|].
  exact (Hall 5600 3%nat (laneAt (eng blackoutWorld) 3)
           ltac:(vm_compute; reflexivity) ltac:(vm_compute; reflexivity)
           ltac:(vm_compute; reflexivity)).
Defined.
